(** * Translation microservice: cache, provider cascade, chunker, batch

    A shallow embedding of [translation_services.py], [cache_manager.py]
    and the two endpoints of [main.py], with the properties of the
    cascading-resolution engine stated and proved over it.

    Python values are modelled as the interpreter has them: a [str] is a
    sequence of Unicode code points (so that [len] and slicing count code
    points, not bytes), a [dict] is a finite map from field names to
    values, and a [dict] object that is shared and mutated lives in a heap
    of objects addressed by references. A call returns or raises; an
    [async] function is a program that suspends at its awaits; the remote
    services, Redis and the clocks are inputs. What [print] writes is left
    out. *)

From Stdlib Require Import ZArith NArith List Lia Bool String Ascii.
From Stdlib Require PrimFloat Uint63.
From stdpp Require Import base option list strings gmap.
Import ListNotations.

Open Scope string_scope.
Open Scope list_scope.
Open Scope Z_scope.

(* ===================================================================== *)
(** * Python strings *)
(* ===================================================================== *)

(** A Python [str]: the list of its code points. *)
Abbreviation str := (list N).

Module PyStr.

(** Bytes of a Rocq string literal. *)
Fixpoint bytes_of (s : string) : list N :=
  match s with
  | EmptyString => []
  | String c s' => N_of_ascii c :: bytes_of s'
  end.

(** UTF-8 decoding, so that source literals can be written as literals.
    Ill-formed input stops the decoding. *)
Fixpoint utf8_decode (bs : list N) : list N :=
  match bs with
  | [] => []
  | b0 :: r0 =>
    if (b0 <? 0x80)%N then b0 :: utf8_decode r0
    else if (b0 <? 0xE0)%N then
      match r0 with
      | b1 :: r1 =>
        N.lor (N.shiftl (N.land b0 0x1F) 6) (N.land b1 0x3F) :: utf8_decode r1
      | _ => []
      end
    else if (b0 <? 0xF0)%N then
      match r0 with
      | b1 :: b2 :: r2 =>
        N.lor (N.shiftl (N.land b0 0x0F) 12)
          (N.lor (N.shiftl (N.land b1 0x3F) 6) (N.land b2 0x3F))
        :: utf8_decode r2
      | _ => []
      end
    else
      match r0 with
      | b1 :: b2 :: b3 :: r3 =>
        N.lor (N.shiftl (N.land b0 0x07) 18)
          (N.lor (N.shiftl (N.land b1 0x3F) 12)
             (N.lor (N.shiftl (N.land b2 0x3F) 6) (N.land b3 0x3F)))
        :: utf8_decode r3
      | _ => []
      end
  end.

(** The [str] denoted by a literal of the source. *)
Definition lit (s : string) : str := utf8_decode (bytes_of s).

(** [len(s)] *)
Definition len (s : str) : Z := Z.of_nat (length s).

(** Truth value of a [str]: non-empty. *)
Definition truthy (s : str) : bool :=
  match s with [] => false | _ => true end.

(** [c.isspace()] for one code point: the characters [str.strip()]
    removes when called without argument. *)
Definition isspace (c : N) : bool :=
  ((0x09 <=? c) && (c <=? 0x0D) || (0x1C <=? c) && (c <=? 0x20)
   || (c =? 0x85) || (c =? 0xA0) || (c =? 0x1680)
   || (0x2000 <=? c) && (c <=? 0x200A)
   || (c =? 0x2028) || (c =? 0x2029) || (c =? 0x202F)
   || (c =? 0x205F) || (c =? 0x3000))%N.

Fixpoint lstrip (s : str) : str :=
  match s with
  | [] => []
  | c :: s' => if isspace c then lstrip s' else s
  end.

Definition rstrip (s : str) : str := rev (lstrip (rev s)).

(** [s.strip()] *)
Definition strip (s : str) : str := rstrip (lstrip s).

(** [s.split('. ')]: cut at every occurrence of full stop + space, from
    the left, occurrences not overlapping. [acc] holds the current piece
    reversed. The result always has at least one piece. *)
Fixpoint split_dot_space_from (acc : str) (s : str) : list str :=
  match s with
  | [] => [rev acc]
  | c :: s' =>
    match s' with
    | d :: s'' =>
      if ((c =? 0x2E) && (d =? 0x20))%N
      then rev acc :: split_dot_space_from [] s''
      else split_dot_space_from (c :: acc) s'
    | [] => [rev (c :: acc)]
    end
  end.

Definition split_dot_space (s : str) : list str := split_dot_space_from [] s.


(** [s[i:j]] for [0 <= i <= j]. *)
Definition slice (s : str) (i j : Z) : str :=
  take (Z.to_nat (j - i)) (drop (Z.to_nat i) s).

Definition is_ascii (c : N) : bool := (c <? 0x80)%N.

Definition ascii_lower (c : N) : N :=
  if ((0x41 <=? c) && (c <=? 0x5A))%N then (c + 0x20)%N else c.

(** Decimal digits of a natural number, most significant first; the
    fuel is the number of binary digits, which bounds the decimal ones. *)
Fixpoint digits_fuel (fuel : nat) (n : N) (acc : str) : str :=
  match fuel with
  | O => acc
  | S fuel' =>
    let acc' := (0x30 + n mod 10)%N :: acc in
    if (n / 10 =? 0)%N then acc' else digits_fuel fuel' (n / 10)%N acc'
  end.

(** [str(z)] for an [int]. *)
Definition of_int (z : Z) : str :=
  let d := digits_fuel (S (N.to_nat (N.size (Z.to_N (Z.abs z)))))
             (Z.to_N (Z.abs z)) [] in
  if z <? 0 then 0x2D%N :: d else d.

End PyStr.

(** What a call of the source does: it returns a value or raises. *)
Inductive outcome (A : Type) : Type :=
| Returned (a : A)
| Raised (e : string).
Arguments Returned {A} a.
Arguments Raised {A} e.

Definition returned {A} (o : outcome A) : option A :=
  match o with Returned a => Some a | Raised _ => None end.

(* ===================================================================== *)
(** * The chunker: [TranslationServices._chunk_text] *)
(* ===================================================================== *)

Module Chunker.
Import PyStr.

Definition dot_space : str := [0x2E; 0x20]%N.

(** [chunks.append(current_chunk.strip())] under [if current_chunk:] *)
Definition append_if_truthy (chunks : list str) (current_chunk : str)
  : list str :=
  if truthy current_chunk then chunks ++ [strip current_chunk] else chunks.

(** One iteration of [for sentence in sentences:], on the pair
    [(chunks, current_chunk)]. *)
Definition sentence_step (max_length : Z) (st : list str * str)
    (sentence : str) : list str * str :=
  let '(chunks, current_chunk) := st in
  if len (current_chunk ++ sentence ++ dot_space) <=? max_length then
    (chunks, current_chunk ++ sentence ++ dot_space)
  else
    let chunks := append_if_truthy chunks current_chunk in
    let current_chunk := sentence ++ dot_space in
    let chunks := append_if_truthy chunks current_chunk in
    let current_chunk := sentence ++ dot_space in
    (chunks, current_chunk).

(** The first loop and the append after it. *)
Definition sentence_chunks (max_length : Z) (text : str) : list str :=
  let sentences := split_dot_space text in
  let '(chunks, current_chunk) :=
    fold_left (sentence_step max_length) sentences ([], []) in
  append_if_truthy chunks current_chunk.

(** [range(0, stop, step)] for [0 <= stop]: raises on a zero step, and
    is empty on a negative one (counting down from 0 reaches nothing). *)
Definition range0 (stop step : Z) : outcome (list Z) :=
  if step =? 0 then Raised "ValueError: range() arg 3 must not be zero"
  else if step <? 0 then Returned []
  else
    Returned (map (fun k => Z.of_nat k * step)
                (seq 0 (Z.to_nat ((stop + step - 1) / step)))).

(** The inner loop: [chunk[i:i+max_length]] for [i] in the range. *)
Definition hard_split (max_length : Z) (chunk : str) : outcome (list str) :=
  match range0 (len chunk) max_length with
  | Raised e => Raised e
  | Returned is_ =>
    Returned (map (fun i => slice chunk i (i + max_length)) is_)
  end.

(** The second loop, [for chunk in chunks:], on [final_chunks]. *)
Fixpoint final_loop (max_length : Z) (chunks : list str)
    (final_chunks : list str) : outcome (list str) :=
  match chunks with
  | [] => Returned final_chunks
  | chunk :: rest =>
    if len chunk <=? max_length then
      final_loop max_length rest (final_chunks ++ [chunk])
    else
      match hard_split max_length chunk with
      | Raised e => Raised e
      | Returned pieces =>
        final_loop max_length rest (final_chunks ++ pieces)
      end
  end.

Definition _chunk_text (text : str) (max_length : Z) : outcome (list str) :=
  if len text <=? max_length then Returned [text]
  else final_loop max_length (sentence_chunks max_length text) [].

(** The default of the parameter. *)
Definition default_max_length : Z := 450.

End Chunker.


(* ===================================================================== *)
(** * The hash of a [str] *)
(* ===================================================================== *)

(** [hash(s)] as CPython computes it for a [str] since version 3.11:
    SipHash-1-3 over the bytes of the object, keyed by a secret the
    process draws when it starts, at random or from [PYTHONHASHSEED]. The
    interpreter is not part of the repository; the figures of this model
    agree with those of the interpreter on the inputs used below. *)
Module PyHash.
Import PyStr.

Definition u64 (x : Z) : Z := x mod 2 ^ 64.

Definition rotate (x b : Z) : Z :=
  u64 (Z.lor (Z.shiftl x b) (Z.shiftr x (64 - b))).

(** [HALF_ROUND(a,b,c,d,s,t)] *)
Definition half_round (s t : Z) (v : Z * Z * Z * Z) : Z * Z * Z * Z :=
  let '(a, b, c, d) := v in
  let a := u64 (a + b) in
  let c := u64 (c + d) in
  let b := Z.lxor (rotate b s) a in
  let d := Z.lxor (rotate d t) c in
  let a := rotate a 32 in
  (a, b, c, d).

(** [SINGLE_ROUND(v0,v1,v2,v3)] *)
Definition single_round (v : Z * Z * Z * Z) : Z * Z * Z * Z :=
  let '(v0, v1, v2, v3) := half_round 13 16 v in
  let '(v2, v1, v0, v3) := half_round 17 21 (v2, v1, v0, v3) in
  (v0, v1, v2, v3).

(** A little-endian word from at most eight bytes. *)
Fixpoint le_word (bytes : list Z) : Z :=
  match bytes with
  | [] => 0
  | b :: rest => b + 256 * le_word rest
  end.

Definition absorb (v : Z * Z * Z * Z) (m : Z) : Z * Z * Z * Z :=
  let '(v0, v1, v2, v3) := v in
  let '(v0, v1, v2, v3) := single_round (v0, v1, v2, Z.lxor v3 m) in
  (Z.lxor v0 m, v1, v2, v3).

(** The loop over the whole words, then the last, partial word with the
    length in its top byte. [fuel] bounds the number of words. *)
Fixpoint blocks (fuel : nat) (v : Z * Z * Z * Z) (src : list Z) (b : Z)
  : Z * Z * Z * Z :=
  match fuel with
  | O => v
  | S fuel' =>
    if (8 <=? length src)%nat
    then blocks fuel' (absorb v (le_word (take 8 src))) (drop 8 src) b
    else absorb v (Z.lor b (le_word src))
  end.

Definition siphash13 (k0 k1 : Z) (src : list Z) : Z :=
  let b := u64 (Z.shiftl (Z.of_nat (length src)) 56) in
  let v := (Z.lxor k0 0x736f6d6570736575, Z.lxor k1 0x646f72616e646f6d,
            Z.lxor k0 0x6c7967656e657261, Z.lxor k1 0x7465646279746573) in
  let '(v0, v1, v2, v3) := blocks (S (length src)) v src b in
  let v2 := Z.lxor v2 0xff in
  let '(v0, v1, v2, v3) :=
    single_round (single_round (single_round (v0, v1, v2, v3))) in
  Z.lxor (Z.lxor v0 v1) (Z.lxor v2 v3).

(** The bytes of a [str] object: one, two or four per code point, by the
    largest code point in it. *)
Definition kind (s : str) : nat :=
  if forallb (fun c => c <? 0x100)%N s then 1%nat
  else if forallb (fun c => c <? 0x10000)%N s then 2%nat
  else 4%nat.

Fixpoint le_bytes (n : nat) (x : Z) : list Z :=
  match n with
  | O => []
  | S n' => x mod 256 :: le_bytes n' (x / 256)
  end.

Definition data (s : str) : list Z :=
  flat_map (fun c => le_bytes (kind s) (Z.of_N c)) s.

(** [hash(s)] for a [str], in a process whose secret is [(k0, k1)]. *)
Definition str_hash (secret : Z * Z) (s : str) : Z :=
  match s with
  | [] => 0
  | _ =>
    let x := siphash13 (fst secret) (snd secret) (data s) in
    let x := if 2 ^ 63 <=? x then x - 2 ^ 64 else x in
    if x =? -1 then -2 else x
  end.

(** The secret of a process started with [PYTHONHASHSEED=seed]: zero for
    the seed 0, and else the bytes of a linear congruential generator. *)
Fixpoint lcg_urandom (n : nat) (x : Z) : list Z :=
  match n with
  | O => []
  | S n' =>
    let x := (x * 214013 + 2531011) mod 2 ^ 32 in
    Z.land (Z.shiftr x 16) 0xff :: lcg_urandom n' x
  end.

Definition secret_of_seed (seed : Z) : Z * Z :=
  if seed =? 0 then (0, 0)
  else
    let bytes := lcg_urandom 16 seed in
    (le_word (take 8 bytes), le_word (drop 8 bytes)).

End PyHash.

(* ===================================================================== *)
(** * The interpreter, the libraries and the values of the program *)
(* ===================================================================== *)

(** What the program takes from the interpreter and from [langcodes], and
    that is not written in it:
    - the numbers that are not [int]: the [float] readings of the clock
      and the numbers of a JSON payload, with their truth value and with
      [int(float(x) * 100)];
    - [str.lower()] on a text that is not ASCII (on ASCII it is written
      out below);
    - [langcodes.Language.make(language=code).language], which may raise. *)
Class Interp := {
  pynumber : Type;
  number_truthy : pynumber -> bool;
  percent_of : pynumber -> Z;
  unicode_lower : str -> str;
  langcodes_language : str -> outcome str;
}.

(** The builtin [hash] on a [str] in the running process: it is keyed by
    the secret of the process ([PyHash.str_hash] for CPython). *)
Class Process := {
  str_hash : str -> Z;
}.

Section Values.
Context `{Interp}.

(** [s.lower()] *)
Definition lower (s : str) : str :=
  if forallb PyStr.is_ascii s then map PyStr.ascii_lower s
  else unicode_lower s.

(** The values a field of a result holds. *)
Inductive value : Type :=
| VNone
| VStr (s : str)
| VInt (z : Z)
| VFloat (x : pynumber).

(** Truth value in a condition. *)
Definition value_truthy (v : value) : bool :=
  match v with
  | VNone => false
  | VStr s => PyStr.truthy s
  | VInt z => negb (z =? 0)
  | VFloat x => number_truthy x
  end.

End Values.

(** A [dict] whose keys are the field names the source writes. *)
Abbreviation pydict := (gmap string value).

Section Dicts.
Context `{Interp}.

(** [d.get(k)], with [None] for a missing key. *)
Definition dict_get (d : pydict) (k : string) : value :=
  default VNone (d !! k).

(** [d[k]] read as a [str]. *)
Definition dict_str (d : pydict) (k : string) : option str :=
  match d !! k with Some (VStr s) => Some s | _ => None end.

(** [d[k]] read as an [int]. *)
Definition dict_int (d : pydict) (k : string) : option Z :=
  match d !! k with Some (VInt z) => Some z | _ => None end.

(** Truth value of a [dict]: non-empty. *)
Definition dict_truthy (d : pydict) : bool := negb (bool_decide (d = ∅)).

End Dicts.

(* ===================================================================== *)
(** * Awaited calls *)
(* ===================================================================== *)

(** An [async] function of the source is a program that awaits remote
    calls: between two awaits it runs without interruption. The two remote
    calls of the source are the GET to MyMemory and the POST to
    LibreTranslate. What comes back is the decoded payload, or the call
    raised: a timeout, a network failure, a status that
    [raise_for_status] refuses, a body that is not JSON, or a payload
    whose fields do not have the types the code uses them at. *)
Module Await.
Section Await.
Context `{Interp}.

Record http_request := {
  url : str;
  fields : list (string * str);
  timeout : Z;
}.

(** One element of [data["matches"]], as the loop reads it:
    [match.get("segment", "")], [match.get("translation", "")],
    [int(match.get("quality", 0))]. *)
Record mymemory_match := {
  segment : str;
  translation : str;
  quality : Z;
}.

(** [data["responseData"]]: [.get("translatedText", "")] and
    [.get("match", 0)], [None] standing for the default [0]. *)
Record mymemory_response_data := {
  translatedText : str;
  match_ratio : option pynumber;
}.

Record mymemory_data := {
  responseStatus : option Z;
  matches : list mymemory_match;
  responseData : option mymemory_response_data;
}.

(** The payload of LibreTranslate: [data["translatedText"]] when the key
    is there, and [data["detectedLanguage"]] when it is a [dict], with
    its ["language"] when that key is there. *)
Record libretranslate_data := {
  lt_translatedText : option str;
  lt_detectedLanguage : option (option str);
}.

Inductive prog (A : Type) : Type :=
| Ret (a : A)
| AwaitMyMemory (rq : http_request) (k : outcome mymemory_data -> prog A)
| AwaitLibreTranslate (rq : http_request)
    (k : outcome libretranslate_data -> prog A).
Arguments Ret {A} a.
Arguments AwaitMyMemory {A} rq k.
Arguments AwaitLibreTranslate {A} rq k.

Fixpoint bind {A B} (p : prog A) (f : A -> prog B) : prog B :=
  match p with
  | Ret a => f a
  | AwaitMyMemory rq k => AwaitMyMemory rq (fun x => bind (k x) f)
  | AwaitLibreTranslate rq k => AwaitLibreTranslate rq (fun x => bind (k x) f)
  end.

(** The remote services: what each answers to a request, in a state of
    the outside world that the request may change. *)
Record services (W : Type) := {
  mymemory_server : http_request -> W -> outcome mymemory_data * W;
  libretranslate_server :
    http_request -> W -> outcome libretranslate_data * W;
}.
Arguments mymemory_server {W} s.
Arguments libretranslate_server {W} s.

(** Running a program alone, from start to end. *)
Fixpoint run {W A} (srv : services W) (p : prog A) (w : W) : A * W :=
  match p with
  | Ret a => (a, w)
  | AwaitMyMemory rq k =>
    let '(x, w') := mymemory_server srv rq w in run srv (k x) w'
  | AwaitLibreTranslate rq k =>
    let '(x, w') := libretranslate_server srv rq w in run srv (k x) w'
  end.

End Await.
Arguments Ret {_ A} a.
Arguments AwaitMyMemory {_ A} rq k.
Arguments AwaitLibreTranslate {_ A} rq k.
Arguments mymemory_server {_ W} s.
Arguments libretranslate_server {_ W} s.
Arguments Build_services {_ W} _ _.

#[global] Instance prog_ret `{Interp} : MRet prog := fun A a => Ret a.
#[global] Instance prog_bind `{Interp} : MBind prog :=
fun A B f p => bind p f.
End Await.

(* ===================================================================== *)
(** * Tasks under [asyncio.gather] and an [asyncio.Semaphore] *)
(* ===================================================================== *)

(** [gather] wraps each coroutine into a task and returns the list of
    their results, in the order of its arguments, once all are done. Each
    task here is a program under [async with semaphore:]. The event loop
    runs one task at a time, up to its next await; which task it resumes
    next is not fixed by the program: it depends on when the remote
    services answer. A schedule is the list of the indices of the tasks
    in the order in which the loop resumes them. *)
Module Asyncio.
Import Await.
Section Asyncio.
Context `{Interp} {A W : Type}.

Inductive task : Type :=
| Waiting (p : prog A)
| Running (p : prog A)
| Done (a : A).

(** The event loop: the tasks, the value of the semaphore, and the
    outside world. *)
Record loop := {
  tasks : list task;
  permits : Z;
  world : W;
}.

(** [asyncio.Semaphore(value)] *)
Definition semaphore (value : Z) : outcome Z :=
  if value <? 0 then Raised "ValueError: Semaphore initial value must be >= 0"
  else Returned value.

(** The loop resumes task [i]: a waiting task enters the semaphore when a
    permit is free and stays waiting when none is; a running task receives
    the answer to the call it awaits, or returns and leaves the semaphore;
    a task that is done is left alone. *)
Definition step (srv : services W) (i : nat) (l : loop) : loop :=
  match tasks l !! i with
  | Some (Waiting p) =>
    if 0 <? permits l then
      {| tasks := <[i := Running p]> (tasks l);
         permits := permits l - 1;
         world := world l |}
    else l
  | Some (Running (Ret a)) =>
    {| tasks := <[i := Done a]> (tasks l);
       permits := permits l + 1;
       world := world l |}
  | Some (Running (AwaitMyMemory rq k)) =>
    let '(x, w) := mymemory_server srv rq (world l) in
    {| tasks := <[i := Running (k x)]> (tasks l);
       permits := permits l;
       world := w |}
  | Some (Running (AwaitLibreTranslate rq k)) =>
    let '(x, w) := libretranslate_server srv rq (world l) in
    {| tasks := <[i := Running (k x)]> (tasks l);
       permits := permits l;
       world := w |}
  | Some (Done _) => l
  | None => l
  end.

Definition run_schedule (srv : services W) (schedule : list nat) (l : loop)
  : loop :=
  fold_left (fun l i => step srv i l) schedule l.

(** What [await asyncio.gather(...)] evaluates to, once every task is
    done: the results in the order of the tasks. *)
Fixpoint gathered (ts : list task) : option (list A) :=
  match ts with
  | [] => Some []
  | Done a :: rest => option_map (cons a) (gathered rest)
  | _ => None
  end.

End Asyncio.
Arguments task {_} A.
Arguments loop {_} A W.
End Asyncio.

(* ===================================================================== *)
(** * [translation_services.py] *)
(* ===================================================================== *)

Module TranslationServices.
Import PyStr Await.

(** The literal of [self.mock_translations], in the order of the source. *)
Definition mock_table : list (string * list (string * string)) :=
  [
    ("hello",
     [("hi", "नमस्ते"); ("ta", "வணக்கம்"); ("te", "హలో"); ("kn", "ಹಲೋ");
      ("ml", "ഹലോ"); ("bn", "হ্যালো"); ("gu", "હેલો"); ("mr", "नमस्कार");
      ("pa", "ਸਤ ਸ੍ਰੀ ਅਕਾਲ"); ("or", "ନମସ୍କାର"); ("as", "নমস্কাৰ")]);
    ("good morning",
     [("hi", "सुप्रभात"); ("ta", "காலை வணக்கம்"); ("te", "శుభోదయం"); ("kn", "ಶುಭೋದಯ");
      ("ml", "സുപ്രഭാതം"); ("bn", "সুপ্রভাত"); ("gu", "શુભ સવાર"); ("mr", "शुभ प्रभात");
      ("pa", "ਸ਼ੁਭ ਸਵੇਰ"); ("or", "ଶୁଭ ପ୍ରଭାତ"); ("as", "শুভ প্ৰভাত")]);
    ("good evening",
     [("hi", "शुभ संध्या"); ("ta", "மாலை வணக்கம்"); ("te", "శుభ సాయంత్రం"); ("kn", "ಶುಭ ಸಾಯಂಕಾಲ");
      ("ml", "സന്ധ്യാശുഭാശയങ്ങൾ"); ("bn", "শুভ সন্ধ্যা"); ("gu", "શુભ સાંજ"); ("mr", "शुभ संध्या");
      ("pa", "ਸ਼ੁਭ ਸ਼ਾਮ"); ("or", "ଶୁଭ ସନ୍ଧ୍ୟା"); ("as", "শুভ সন্ধিয়া")]);
    ("good night",
     [("hi", "शुभ रात्रि"); ("ta", "இனிய இரவு"); ("te", "శుభ రాత్రి"); ("kn", "ಶುಭ ರಾತ್ರಿ");
      ("ml", "ശുഭ രാത്രി"); ("bn", "শুভ রাত্রি"); ("gu", "શુભ રાત્રી"); ("mr", "शुभ रात्री");
      ("pa", "ਸ਼ੁਭ ਰਾਤ"); ("or", "ଶୁଭ ରାତ୍ରି"); ("as", "শুভ ৰাতি")]);
    ("thank you",
     [("hi", "धन्यवाद"); ("ta", "நன்றி"); ("te", "ధన్యవాదాలు"); ("kn", "ಧನ್ಯವಾದಗಳು");
      ("ml", "നന്ദി"); ("bn", "ধন্যবাদ"); ("gu", "આભાર"); ("mr", "धन्यवाद");
      ("pa", "ਧੰਨਵਾਦ"); ("or", "ଧନ୍ୟବାଦ"); ("as", "ধন্যবাদ")]);
    ("goodbye",
     [("hi", "अलविदा"); ("ta", "விடை"); ("te", "వీడ్కోలు"); ("kn", "ವಿದಾಯ");
      ("ml", "വിട"); ("bn", "বিদায়"); ("gu", "આવજો"); ("mr", "निरोप");
      ("pa", "ਅਲਵਿਦਾ"); ("or", "ବିଦାୟ"); ("as", "বিদায়")]);
    ("please",
     [("hi", "कृपया"); ("ta", "தயவுசெய்து"); ("te", "దయచేసి"); ("kn", "ದಯವಿಟ್ಟು");
      ("ml", "ദയവായി"); ("bn", "দয়া করে"); ("gu", "કૃપા કરીને"); ("mr", "कृपया");
      ("pa", "ਕਿਰਪਾ ਕਰਕੇ"); ("or", "ଦୟାକରି"); ("as", "অনুগ্ৰহ কৰি")]);
    ("yes",
     [("hi", "हाँ"); ("ta", "ஆம்"); ("te", "అవును"); ("kn", "ಹೌದು");
      ("ml", "അതെ"); ("bn", "হ্যাঁ"); ("gu", "હા"); ("mr", "होय");
      ("pa", "ਹਾਂ"); ("or", "ହଁ"); ("as", "হয়")]);
    ("no",
     [("hi", "नहीं"); ("ta", "இல்லை"); ("te", "లేదు"); ("kn", "ಇಲ್ಲ");
      ("ml", "ഇല്ല"); ("bn", "না"); ("gu", "ના"); ("mr", "नाही");
      ("pa", "ਨਹੀਂ"); ("or", "ନାହିଁ"); ("as", "নাই")]);
    ("welcome",
     [("hi", "स्वागत है"); ("ta", "வரவேற்கிறோம்"); ("te", "స్వాగతం"); ("kn", "ಸ್ವಾಗತ");
      ("ml", "സ്വാഗതം"); ("bn", "স্বাগতম"); ("gu", "સ્વાગત છે"); ("mr", "स्वागत आहे");
      ("pa", "ਜੀ ਆਇਆਂ ਨੂੰ"); ("or", "ସ୍ୱାଗତ"); ("as", "স্বাগতম")]);
    ("one",
     [("hi", "एक"); ("ta", "ஒன்று"); ("te", "ఒకటి"); ("kn", "ಒಂದು");
      ("ml", "ഒന്ന്"); ("bn", "এক"); ("gu", "એક"); ("mr", "एक");
      ("pa", "ਇੱਕ"); ("or", "ଏକ"); ("as", "এক")]);
    ("two",
     [("hi", "दो"); ("ta", "இரண்டு"); ("te", "రెండు"); ("kn", "ಎರಡು");
      ("ml", "രണ്ട്"); ("bn", "দুই"); ("gu", "બે"); ("mr", "दोन");
      ("pa", "ਦੋ"); ("or", "ଦୁଇ"); ("as", "দুই")]);
    ("three",
     [("hi", "तीन"); ("ta", "மூன்று"); ("te", "మూడు"); ("kn", "ಮೂರು");
      ("ml", "മൂന്ന്"); ("bn", "তিন"); ("gu", "ત્રણ"); ("mr", "तीन");
      ("pa", "ਤਿੰਨ"); ("or", "ତିନି"); ("as", "তিনি")]);
    ("four",
     [("hi", "चार"); ("ta", "நான்கு"); ("te", "నాలుగు"); ("kn", "ನಾಲ್ಕು");
      ("ml", "നാല്"); ("bn", "চার"); ("gu", "ચાર"); ("mr", "चार");
      ("pa", "ਚਾਰ"); ("or", "ଚାରି"); ("as", "চাৰি")]);
    ("five",
     [("hi", "पांच"); ("ta", "ஐந்து"); ("te", "ఐదు"); ("kn", "ಐದು");
      ("ml", "അഞ്ച്"); ("bn", "পাঁচ"); ("gu", "પાંચ"); ("mr", "पाच");
      ("pa", "ਪੰਜ"); ("or", "ପାଞ୍ଚ"); ("as", "পাঁচ")]);
    ("mother",
     [("hi", "मां"); ("ta", "அம்மா"); ("te", "అమ్మ"); ("kn", "ಅಮ್ಮ");
      ("ml", "അമ്മ"); ("bn", "মা"); ("gu", "મા"); ("mr", "आई");
      ("pa", "ਮਾਂ"); ("or", "ମା"); ("as", "মা")]);
    ("father",
     [("hi", "पिता"); ("ta", "அப்பா"); ("te", "నాన్న"); ("kn", "ಅಪ್ಪ");
      ("ml", "അച്ഛൻ"); ("bn", "বাবা"); ("gu", "પપ્પા"); ("mr", "बाबा");
      ("pa", "ਪਿਤਾ"); ("or", "ବାପା"); ("as", "দেউতা")]);
    ("brother",
     [("hi", "भाई"); ("ta", "அண்ணா"); ("te", "అన్న"); ("kn", "ಅಣ್ಣ");
      ("ml", "ചേട്ടൻ"); ("bn", "ভাই"); ("gu", "ભાઈ"); ("mr", "भाऊ");
      ("pa", "ਭਰਾ"); ("or", "ଭାଇ"); ("as", "ভাই")]);
    ("sister",
     [("hi", "बहन"); ("ta", "அக்கா"); ("te", "అక్క"); ("kn", "ಅಕ್ಕ");
      ("ml", "ചേച്ചി"); ("bn", "বোন"); ("gu", "બહેન"); ("mr", "बहीण");
      ("pa", "ਭੈਣ"); ("or", "ଭଉଣୀ"); ("as", "ভনী")]);
    ("water",
     [("hi", "पानी"); ("ta", "தண்ணீர்"); ("te", "నీళ్లు"); ("kn", "ನೀರು");
      ("ml", "വെള്ളം"); ("bn", "পানি"); ("gu", "પાણી"); ("mr", "पाणी");
      ("pa", "ਪਾਣੀ"); ("or", "ପାଣି"); ("as", "পানী")]);
    ("food",
     [("hi", "खाना"); ("ta", "உணவு"); ("te", "ఆహారం"); ("kn", "ಆಹಾರ");
      ("ml", "ഭക്ഷണം"); ("bn", "খাবার"); ("gu", "ખાણું"); ("mr", "अन्न");
      ("pa", "ਖਾਣਾ"); ("or", "ଖାଦ୍ୟ"); ("as", "খাদ্য")]);
    ("house",
     [("hi", "घर"); ("ta", "வீடு"); ("te", "ఇల్లు"); ("kn", "ಮನೆ");
      ("ml", "വീട്"); ("bn", "ঘর"); ("gu", "ઘર"); ("mr", "घर");
      ("pa", "ਘਰ"); ("or", "ଘର"); ("as", "ঘৰ")]);
    ("school",
     [("hi", "स्कूल"); ("ta", "பள்ளி"); ("te", "పాఠశాల"); ("kn", "ಶಾಲೆ");
      ("ml", "സ്കൂൾ"); ("bn", "স্কুল"); ("gu", "શાળા"); ("mr", "शाळा");
      ("pa", "ਸਕੂਲ"); ("or", "ସ୍କୁଲ"); ("as", "বিদ্যালয়")]);
    ("hospital",
     [("hi", "अस्पताल"); ("ta", "மருத்துவமனை"); ("te", "ఆసుపత్రి"); ("kn", "ಆಸ್ಪತ್ರೆ");
      ("ml", "ആശുപത്രി"); ("bn", "হাসপাতাল"); ("gu", "હોસ્પિટલ"); ("mr", "रुग्णालय");
      ("pa", "ਹਸਪਤਾਲ"); ("or", "ହସ୍ପିତାଲ"); ("as", "চিকিৎসালয়")]);
    ("money",
     [("hi", "पैसा"); ("ta", "பணம்"); ("te", "డబ్బు"); ("kn", "ಹಣ");
      ("ml", "പണം"); ("bn", "টাকা"); ("gu", "પૈસા"); ("mr", "पैसा");
      ("pa", "ਪੈਸਾ"); ("or", "ଟଙ୍କା"); ("as", "টকা")]);
    ("work",
     [("hi", "काम"); ("ta", "வேலை"); ("te", "పని"); ("kn", "ಕೆಲಸ");
      ("ml", "ജോലി"); ("bn", "কাজ"); ("gu", "કામ"); ("mr", "काम");
      ("pa", "ਕੰਮ"); ("or", "କାମ"); ("as", "কাম")]);
    ("office",
     [("hi", "कार्यालय"); ("ta", "அலுவலகம்"); ("te", "కార్యాలయం"); ("kn", "ಕಛೇರಿ");
      ("ml", "ഓഫീസ്"); ("bn", "অফিস"); ("gu", "ઑફિસ"); ("mr", "कार्यालय");
      ("pa", "ਦਫ਼ਤਰ"); ("or", "କାର୍ଯ୍ୟାଳୟ"); ("as", "কাৰ্যালয়")]);
    ("meeting",
     [("hi", "बैठक"); ("ta", "கூட்டம்"); ("te", "సభ"); ("kn", "ಸಭೆ");
      ("ml", "യോഗം"); ("bn", "বৈঠক"); ("gu", "મીટિંગ"); ("mr", "सभा");
      ("pa", "ਮੀਟਿੰਗ"); ("or", "ସଭା"); ("as", "সভা")]);
    ("help",
     [("hi", "मदद"); ("ta", "உதவி"); ("te", "సహాయం"); ("kn", "ಸಹಾಯ");
      ("ml", "സഹായം"); ("bn", "সাহায্য"); ("gu", "મદદ"); ("mr", "मदत");
      ("pa", "ਮਦਦ"); ("or", "ସାହାଯ୍ୟ"); ("as", "সহায়")]);
    ("doctor",
     [("hi", "डॉक्टर"); ("ta", "டாக்டர்"); ("te", "వైద్యుడు"); ("kn", "ವೈದ್ය");
      ("ml", "ഡോക്ടർ"); ("bn", "ডাক্তার"); ("gu", "ડૉક્ટર"); ("mr", "डॉक्टर");
      ("pa", "ਡਾਕਟਰ"); ("or", "ଡାକ୍ତର"); ("as", "চিকিৎসক")]);
    ("police",
     [("hi", "पुलिस"); ("ta", "போலீஸ்"); ("te", "పోలీసు"); ("kn", "ಪೊಲೀಸ್");
      ("ml", "പോലീസ്"); ("bn", "পুলিশ"); ("gu", "પોલીસ"); ("mr", "पोलिस");
      ("pa", "ਪੁਲਿਸ"); ("or", "ପୋଲିସ"); ("as", "আৰক্ষী")]);
    ("emergency",
     [("hi", "आपातकाल"); ("ta", "அவசரம்"); ("te", "అత్యవసరం"); ("kn", "ತುರ್ತು");
      ("ml", "അത്യാവശ്യം"); ("bn", "জরুরি"); ("gu", "કટોકટી"); ("mr", "आपत्कालीन");
      ("pa", "ਐਮਰਜੈਂਸੀ"); ("or", "ଜରୁରୀକାଳୀନ"); ("as", "জৰুৰীকালীন")]);
    ("bus",
     [("hi", "बस"); ("ta", "பேருந்து"); ("te", "బస్సు"); ("kn", "ಬಸ್");
      ("ml", "ബസ്"); ("bn", "বাস"); ("gu", "બસ"); ("mr", "बस");
      ("pa", "ਬੱਸ"); ("or", "ବସ୍"); ("as", "বাছ")]);
    ("train",
     [("hi", "ट्रेन"); ("ta", "ரயில்"); ("te", "రైలు"); ("kn", "ರೈಲು");
      ("ml", "ട്രെയിൻ"); ("bn", "ট্রেন"); ("gu", "ટ્રેન"); ("mr", "ट्रेन");
      ("pa", "ਰੇਲ"); ("or", "ଟ୍ରେନ୍"); ("as", "ৰেল")]);
    ("station",
     [("hi", "स्टेशन"); ("ta", "நிலையம்"); ("te", "స్టేషన్"); ("kn", "ನಿಲ್ದಾಣ");
      ("ml", "സ്റ്റേഷൻ"); ("bn", "স্টেশন"); ("gu", "સ્ટેશન"); ("mr", "स्थानक");
      ("pa", "ਸਟੇਸ਼ਨ"); ("or", "ଷ୍ଟେସନ୍"); ("as", "ষ্টেচন")]);
    ("today",
     [("hi", "आज"); ("ta", "இன்று"); ("te", "ఈరోజు"); ("kn", "ಇಂದು");
      ("ml", "ഇന്ന്"); ("bn", "আজ"); ("gu", "આજે"); ("mr", "आज");
      ("pa", "ਅੱਜ"); ("or", "ଆଜି"); ("as", "আজি")]);
    ("tomorrow",
     [("hi", "कल"); ("ta", "நாளை"); ("te", "రేపు"); ("kn", "ನಾಳೆ");
      ("ml", "നാളെ"); ("bn", "কাল"); ("gu", "કાલે"); ("mr", "उद्या");
      ("pa", "ਕੱਲ"); ("or", "କାଲି"); ("as", "কাইলৈ")]);
    ("yesterday",
     [("hi", "कल"); ("ta", "நேற்று"); ("te", "నిన్న"); ("kn", "ನಿನ್ನೆ");
      ("ml", "ഇന്നലെ"); ("bn", "গতকাল"); ("gu", "ગઈકાલે"); ("mr", "काल");
      ("pa", "ਕੱਲ੍ਹ"); ("or", "ଗତକାଲି"); ("as", "কালি")]);
    ("how are you",
     [("hi", "आप कैसे हैं"); ("ta", "நீங்கள் எப்படி இருக்கிறீர்கள்"); ("te", "మీరు ఎలా ఉన్నారు"); ("kn", "ನೀವು ಹೇಗಿದ್ದೀರಿ");
      ("ml", "നിങ്ങൾ എങ്ങനെയുണ്ട്"); ("bn", "আপনি কেমন আছেন"); ("gu", "તમે કેમ છો"); ("mr", "तुम्ही कसे आहात");
      ("pa", "ਤੁਸੀਂ ਕਿਵੇਂ ਹੋ"); ("or", "ଆପଣ କେମିତି ଅଛନ୍ତି"); ("as", "আপুনি কেনেকুৱা আছে")]);
    ("i am fine",
     [("hi", "मैं ठीक हूं"); ("ta", "நான் நலமாக இருக்கிறேன்"); ("te", "నేను బాగున్నాను"); ("kn", "ನಾನು ಚೆನ್ನಾಗಿದ್ದೇನೆ");
      ("ml", "ഞാൻ സുഖമായിരിക്കുന്നു"); ("bn", "আমি ভালো আছি"); ("gu", "હું સારો છું"); ("mr", "मी बरा आहे");
      ("pa", "ਮੈਂ ਠੀਕ ਹਾਂ"); ("or", "ମୁଁ ଭଲ ଅଛି"); ("as", "মই ভাল আছোঁ")]);
    ("what is your name",
     [("hi", "आपका नाम क्या है"); ("ta", "உங்கள் பெயர் என்ன"); ("te", "మీ పేరు ఏమిటి"); ("kn", "ನಿಮ್ಮ ಹೆಸರು ಏನು");
      ("ml", "നിങ്ങളുടെ പേര് എന്താണ്"); ("bn", "আপনার নাম কি"); ("gu", "તમારું નામ શું છે"); ("mr", "तुमचे नाव काय आहे");
      ("pa", "ਤੁਹਾਡਾ ਨਾਮ ਕੀ ਹੈ"); ("or", "ଆପଣଙ୍କ ନାମ କଣ"); ("as", "আপোনাৰ নাম কি")]);
    ("sorry",
     [("hi", "माफ करना"); ("ta", "மன்னிக்கவும்"); ("te", "క్షమించండి"); ("kn", "ಕ್ಷಮಿಸಿ");
      ("ml", "ക്ഷമിക്കണം"); ("bn", "দুঃখিত"); ("gu", "માફ કરશો"); ("mr", "माफ करा");
      ("pa", "ਮਾਫ ਕਰਨਾ"); ("or", "କ୍ଷମା କରନ୍ତୁ"); ("as", "ক্ষমা কৰিব")]);
    ("excuse me",
     [("hi", "माफ करिए"); ("ta", "மன்னிக்கவும்"); ("te", "క్షమించండి"); ("kn", "ಕ್ಷಮಿಸಿ");
      ("ml", "ക്ഷമിക്കണം"); ("bn", "মাফ করবেন"); ("gu", "માફ કરશો"); ("mr", "माफ करा");
      ("pa", "ਮਾਫ਼ ਕਰੋ"); ("or", "କ୍ଷମା କରନ୍ତୁ"); ("as", "ক্ষমা কৰিব")])
  ].

(** A [dict] written as a literal with [str] keys: its items in the
    order of the literal. The keys of the literals of the source are
    distinct, so a key has one item. *)
Fixpoint item {V} (d : list (str * V)) (k : str) : option V :=
  match d with
  | [] => None
  | (k', v) :: d' => if bool_decide (k = k') then Some v else item d' k
  end.

(** The [dict] of [dict]s that the literal builds. *)
Definition mock_translations_literal : list (str * list (str * str)) :=
  map (fun '(phrase, entries) =>
         (lit phrase, map (fun '(l, t) => (lit l, lit t)) entries))
    mock_table.

(** LibreTranslate's [supported_languages]. *)
Definition supported_languages : list str :=
  map lit ["en"; "es"; "fr"; "de"; "it"; "pt"; "ru"; "ja"; "ko"; "ar";
           "zh"; "hi"]%string.

Section TranslationServices.
Context `{Interp}.

(** The attributes [__init__] sets from the environment. *)
Record service := {
  mymemory_api_key : option str;
  mymemory_base_url : str;
  libretranslate_base_url : str;
  request_timeout : Z;
  enable_mock_fallback : bool;
  mock_translations : list (str * list (str * str));
}.

Definition str_eqb (a b : str) : bool := bool_decide (a = b).

Definition _normalize_language_code (lang_code : str) : str :=
  match langcodes_language lang_code with
  | Returned language => language
  | Raised _ => lower lang_code
  end.

(** A result of a provider or of [translate]. *)
Definition result_dict (translated_text source_language target_language
    service_name : str) (confidence : Z) (original_text : str) : pydict :=
  {[ "translated_text" := VStr translated_text;
     "source_language" := VStr source_language;
     "target_language" := VStr target_language;
     "service" := VStr service_name;
     "confidence" := VInt confidence;
     "original_text" := VStr original_text ]}.

(** ** MyMemory *)

(** [any(lo <= ord(char) <= hi for char in text)] *)
Definition any_in_block (lo hi : N) (text : str) : bool :=
  existsb (fun char => (lo <=? char) && (char <=? hi))%N text.

Definition is_native_script (text target_lang : str) : bool :=
  if str_eqb target_lang (lit "ta") then any_in_block 0x0B80 0x0BFF text
  else if str_eqb target_lang (lit "hi") then any_in_block 0x0900 0x097F text
  else if str_eqb target_lang (lit "te") then any_in_block 0x0C00 0x0C7F text
  else if str_eqb target_lang (lit "kn") then any_in_block 0x0C80 0x0CFF text
  else if str_eqb target_lang (lit "ml") then any_in_block 0x0D00 0x0D7F text
  else if str_eqb target_lang (lit "bn") then any_in_block 0x0980 0x09FF text
  else if str_eqb target_lang (lit "gu") then any_in_block 0x0A80 0x0AFF text
  else if str_eqb target_lang (lit "pa") then any_in_block 0x0A00 0x0A7F text
  else true.

(** [not m or quality > m["confidence"]] *)
Definition improves (m : option (str * Z)) (quality : Z) : bool :=
  match m with
  | None => true
  | Some (_, confidence) => confidence <? quality
  end.

(** One iteration of [for match in data.get("matches", []):], on the
    pair [(native_script_match, transliterated_match)]. *)
Definition match_step (input_clean target_lang : str)
    (st : option (str * Z) * option (str * Z)) (m : mymemory_match)
  : option (str * Z) * option (str * Z) :=
  let '(native_script_match, transliterated_match) := st in
  let segment := lower (strip (segment m)) in
  let translation := strip (translation m) in
  let quality := quality m in
  if str_eqb segment input_clean && truthy translation
     && negb (str_eqb translation (lit "Test123")) && (75 <=? quality)
  then
    if is_native_script translation target_lang then
      if improves native_script_match quality
      then (Some (translation, quality), transliterated_match)
      else st
    else
      if improves transliterated_match quality
      then (native_script_match, Some (translation, quality))
      else st
  else st.

(** [int(float(raw_match) * 100) if raw_match else 75] *)
Definition confidence_score (raw_match : option pynumber) : Z :=
  match raw_match with
  | Some x => if number_truthy x then percent_of x else 75
  | None => 75
  end.

(** The choice of [best_match]; [None] when [data["responseData"]]
    raises [KeyError]. *)
Definition best_match (text target_lang : str) (data : mymemory_data)
  : option (str * Z) :=
  let input_clean := lower (strip text) in
  let '(native_script_match, transliterated_match) :=
    fold_left (match_step input_clean target_lang) (matches data)
      (None, None) in
  match native_script_match, transliterated_match with
  | Some m, _ => Some m
  | None, Some m => Some m
  | None, None =>
    match responseData data with
    | Some rd => Some (translatedText rd, confidence_score (match_ratio rd))
    | None => None
    end
  end.

Definition mymemory_request (self : service) (text source_lang
    target_lang : str) : http_request :=
  {| url := mymemory_base_url self ++ lit "/get";
     fields :=
       [("q"%string, text);
        ("langpair"%string, source_lang ++ lit "|" ++ target_lang)]
       ++ match mymemory_api_key self with
          | Some key => if truthy key then [("key"%string, key)] else []
          | None => []
          end;
     timeout := request_timeout self |}.

(** The whole body is under [try: ... except Exception: return None]. *)
Definition translate_with_mymemory (self : service)
    (text target_language source_language : str)
  : prog (outcome (option pydict)) :=
  let target_lang := _normalize_language_code target_language in
  let source_lang := _normalize_language_code source_language in
  AwaitMyMemory (mymemory_request self text source_lang target_lang)
    (fun response =>
       match response with
       | Raised _ => Ret (Returned None)
       | Returned data =>
         if bool_decide (responseStatus data = Some 200) then
           match best_match text target_lang data with
           | Some (translated_text, confidence) =>
             Ret (Returned (Some
               (result_dict translated_text source_lang target_lang
                  (lit "mymemory") confidence text)))
           | None => Ret (Returned None)
           end
         else Ret (Returned None)
       end).

(** ** LibreTranslate *)

Definition libretranslate_request (self : service) (text source_lang
    target_lang : str) : http_request :=
  {| url := libretranslate_base_url self ++ lit "/translate";
     fields :=
       [("q"%string, text); ("source"%string, source_lang);
        ("target"%string, target_lang); ("format"%string, lit "text")];
     timeout := request_timeout self |}.

Definition is_supported (lang : str) : bool :=
  existsb (str_eqb lang) supported_languages.

Definition translate_with_libretranslate (self : service)
    (text target_language source_language : str)
  : prog (outcome (option pydict)) :=
  let target_lang := _normalize_language_code target_language in
  if negb (is_supported target_lang) then Ret (Returned None)
  else
    let source_lang :=
      if str_eqb source_language (lit "auto") then lit "en"
      else _normalize_language_code source_language in
    if negb (is_supported source_lang) then Ret (Returned None)
    else if str_eqb source_lang target_lang then
      Ret (Returned (Some
        (result_dict text source_lang target_lang (lit "libretranslate")
           100 text)))
    else
      AwaitLibreTranslate
        (libretranslate_request self text source_lang target_lang)
        (fun response =>
           match response with
           | Raised _ => Ret (Returned None)
           | Returned data =>
             match lt_translatedText data with
             | Some translated =>
               if truthy (strip translated) then
                 Ret (Returned (Some
                   (result_dict translated
                      (match lt_detectedLanguage data with
                       | Some (Some language) => language
                       | _ => source_lang
                       end)
                      target_lang (lit "libretranslate") 80 text)))
               else Ret (Returned None)
             | None => Ret (Returned None)
             end
           end).

(** ** The mock dictionary *)

Definition translate_with_mock (self : service)
    (text target_language : str) : prog (outcome (option pydict)) :=
  if negb (enable_mock_fallback self) then Ret (Returned None)
  else
    let normalized_text := strip (lower text) in
    let target_lang := _normalize_language_code target_language in
    match item (mock_translations self) normalized_text with
    | Some entries =>
      match item entries target_lang with
      | Some translated_text =>
        Ret (Returned (Some
          (result_dict translated_text (lit "auto") target_lang
             (lit "mock_indian") 60 text)))
      | None => Ret (Returned None)
      end
    | None => Ret (Returned None)
    end.

(** ** The cascade *)

(** A provider as [translate] calls it: [text], [target_language],
    [source_language]. *)
Definition provider : Type :=
  str -> str -> str -> prog (outcome (option pydict)).

(** The result [translate] returns when no provider gave one. *)
Definition all_failed (text source_language target_language : str)
  : pydict :=
  <["error" := VStr (lit "All translation services failed")]>
    (result_dict text source_language target_language (lit "none") 0 text).

(** [try: result = await p(...); if result: return result
     except Exception: print(...)], followed by [rest]. *)
Definition try_provider (call : prog (outcome (option pydict)))
    (rest : prog pydict) : prog pydict :=
  r ← call;
  match r with
  | Returned (Some result) =>
    if dict_truthy result then mret result else rest
  | Returned None => rest
  | Raised _ => rest
  end.

(** [translate], over the three providers it calls. *)
Definition translate_with (primary secondary : provider)
    (final : str -> str -> prog (outcome (option pydict)))
    (text source_language target_language : str) : prog pydict :=
  try_provider (primary text target_language source_language)
    (try_provider (secondary text target_language source_language)
       (try_provider (final text target_language)
          (mret (all_failed text source_language target_language)))).

Definition translate (self : service)
    (text source_language target_language : str) : prog pydict :=
  translate_with (translate_with_mymemory self)
    (translate_with_libretranslate self) (translate_with_mock self)
    text source_language target_language.

(** ** Long texts *)



(** ** Batches *)

(** [translate_batch], up to the call of [gather]: the semaphore of
    [max_workers] permits, read from [PARALLEL_WORKERS], and one task per
    text, in the order of [texts]. What it returns is what
    [Asyncio.gathered] gives for the tasks once the loop has run them. *)
Definition translate_batch {W} (self : service) (max_workers : Z)
    (texts : list str) (target_language source_language : str) (w : W)
  : outcome (Asyncio.loop pydict W) :=
  match Asyncio.semaphore max_workers with
  | Raised e => Raised e
  | Returned semaphore =>
    Returned
      {| Asyncio.tasks :=
           map (fun text =>
                  Asyncio.Waiting
                    (translate self text source_language target_language))
             texts;
         Asyncio.permits := semaphore;
         Asyncio.world := w |}
  end.

End TranslationServices.
End TranslationServices.

(* ===================================================================== *)
(** * Objects *)
(* ===================================================================== *)

(** The [dict] objects of the program live in a heap: a name for a [dict]
    is a reference into it, two names may hold the same reference, and an
    assignment [d[k] = v] changes the object for every name. *)
Abbreviation ref := nat.
Abbreviation heap := (list pydict).

Section Heap.
Context `{Interp}.

(** A new object. *)
Definition alloc (h : heap) (d : pydict) : ref * heap :=
  (length h, h ++ [d]).

(** [r[k] = v] *)
Definition dict_setitem (h : heap) (r : ref) (k : string) (v : value) : heap :=
  match h !! r with
  | Some d => <[r := <[k := v]> d]> h
  | None => h
  end.

(** [r.copy()] *)
Definition dict_copy (h : heap) (r : ref) : ref * heap :=
  alloc h (default ∅ (h !! r)).

End Heap.

(* ===================================================================== *)
(** * [cachetools.TTLCache] *)
(* ===================================================================== *)

(** The class the source instantiates for L1, modelled by what the library
    does: a mapping bounded by [maxsize] whose items expire [ttl] after
    they were set. The links are kept in the order in which [popitem]
    takes them: least recently used first. The clock is read once per
    operation and passed as [time]. *)
Module TTLCache.
Section TTLCache.
Context {V : Type}.

Record link := {
  key : str;
  val : V;
  expires : Z;
}.

Record t := {
  maxsize : Z;
  ttl : Z;
  links : list link;
}.

(** [TTLCache(maxsize=..., ttl=...)] *)
Definition new (maxsize ttl : Z) : t :=
  {| maxsize := maxsize; ttl := ttl; links := [] |}.

Definition with_links (c : t) (ls : list link) : t :=
  {| maxsize := maxsize c; ttl := ttl c; links := ls |}.

(** [time < link.expires] *)
Definition live (time : Z) (l : link) : bool := time <? expires l.

(** [expire(time)]: the expired links are removed. *)
Definition expire (time : Z) (c : t) : t :=
  with_links c (List.filter (live time) (links c)).

Definition find_link (ls : list link) (k : str) : option link :=
  List.find (fun l => bool_decide (key l = k)) ls.

Definition without (k : str) (ls : list link) : list link :=
  List.filter (fun l => negb (bool_decide (key l = k))) ls.

(** [key in cache] *)
Definition contains (time : Z) (c : t) (k : str) : bool :=
  match find_link (links c) k with
  | Some l => live time l
  | None => false
  end.

(** [len(cache)]: the items that have not expired. *)
Definition len (time : Z) (c : t) : Z :=
  Z.of_nat (length (links (expire time c))).

(** The truth value of the cache in a condition. The class defines
    [__len__] and no [__bool__], so it is that of a container: an empty
    cache is false. *)
Definition truthy (time : Z) (c : t) : bool := negb (len time c =? 0).

(** [cache[key]]: the value is returned and the link becomes the most
    recently used; a missing or expired key raises. *)
Definition getitem (time : Z) (c : t) (k : str) : outcome (V * t) :=
  match find_link (links c) k with
  | Some l =>
    if live time l
    then Returned (val l, with_links c (without k (links c) ++ [l]))
    else Raised "KeyError"
  | None => Raised "KeyError"
  end.

(** [cache[key] = value]: expired links go first; a cache that cannot hold
    one item refuses the value; for a new key, [popitem] makes room by
    removing links from the least recently used end; the item then expires
    at [time + ttl] and is the most recently used. *)
Definition setitem (time : Z) (c : t) (k : str) (v : V) : outcome t :=
  let ls := links (expire time c) in
  if maxsize c <? 1 then Raised "ValueError: value too large"
  else
    let ls :=
      match find_link ls k with
      | Some _ => ls
      | None => drop (Z.to_nat (Z.of_nat (length ls) + 1 - maxsize c)) ls
      end in
    Returned
      (with_links c
         (without k ls ++ [{| key := k; val := v; expires := time + ttl c |}])).

End TTLCache.
Arguments link : clear implicits.
Arguments t : clear implicits.
End TTLCache.

(* ===================================================================== *)
(** * The Redis server behind [redis_client] *)
(* ===================================================================== *)

(** A key/value store with an expiry per key. A command to a server that
    cannot be reached raises. The value stored under a key is the JSON
    text of a [dict]; it is kept here as the [dict] that [json.loads]
    reads back from it. *)
Module Redis.
Section Redis.
Context `{Interp}.

Record t := {
  reachable : bool;
  db : gmap str (pydict * Z);
}.

(** [client.get(key)] *)
Definition get (time : Z) (r : t) (k : str) : outcome (option pydict) :=
  if reachable r then
    Returned
      match db r !! k with
      | Some (d, expires) => if time <? expires then Some d else None
      | None => None
      end
  else Raised "ConnectionError".

(** [client.setex(key, seconds, value)] *)
Definition setex (time : Z) (r : t) (k : str) (seconds : Z) (d : pydict)
  : outcome t :=
  if reachable r then
    if seconds <? 1 then Raised "ResponseError: invalid expire time"
    else
      Returned {| reachable := true;
                  db := <[k := (d, time + seconds)]> (db r) |}
  else Raised "ConnectionError".

End Redis.
End Redis.

(* ===================================================================== *)
(** * [cache_manager.py] *)
(* ===================================================================== *)

Module CacheManager.
Import PyStr.
Section CacheManager.
Context `{Interp} `{Process}.

Record MultiLevelCache := {
  l1_cache_size : Z;
  l1_cache_ttl : Z;
  l2_cache_ttl : Z;
  enable_l1 : bool;
  enable_l2 : bool;
  l1_cache : option (TTLCache.t ref);
  redis_client : option Redis.t;
}.

(** [__init__], from the values of the environment and the server that
    [REDIS_URL] names, when it is set. [_init_redis] keeps the client only
    when the [ping] went through. *)
Definition init (l1_cache_size l1_cache_ttl l2_cache_ttl : Z)
    (enable_l1 enable_l2 : bool) (redis_url : option Redis.t)
  : MultiLevelCache :=
  {| l1_cache_size := l1_cache_size;
     l1_cache_ttl := l1_cache_ttl;
     l2_cache_ttl := l2_cache_ttl;
     enable_l1 := enable_l1;
     enable_l2 := enable_l2;
     l1_cache :=
       if enable_l1 then Some (TTLCache.new l1_cache_size l1_cache_ttl)
       else None;
     redis_client :=
       if enable_l2 then
         match redis_url with
         | Some server => if Redis.reachable server then Some server else None
         | None => None
         end
       else None |}.

Definition with_l1 (self : MultiLevelCache) (c : TTLCache.t ref)
  : MultiLevelCache :=
  {| l1_cache_size := l1_cache_size self;
     l1_cache_ttl := l1_cache_ttl self;
     l2_cache_ttl := l2_cache_ttl self;
     enable_l1 := enable_l1 self;
     enable_l2 := enable_l2 self;
     l1_cache := Some c;
     redis_client := redis_client self |}.

Definition with_redis (self : MultiLevelCache) (r : Redis.t)
  : MultiLevelCache :=
  {| l1_cache_size := l1_cache_size self;
     l1_cache_ttl := l1_cache_ttl self;
     l2_cache_ttl := l2_cache_ttl self;
     enable_l1 := enable_l1 self;
     enable_l2 := enable_l2 self;
     l1_cache := l1_cache self;
     redis_client := Some r |}.

(** [f"translation:{hash(text.lower().strip())}:{target_language.lower()}"] *)
Definition _generate_cache_key (text target_language : str) : str :=
  lit "translation:" ++ of_int (str_hash (strip (lower text))) ++ lit ":"
  ++ lower target_language.

(** The condition [self.l1_cache] of the [if]s: the attribute is not
    [None] and the cache it holds is true. *)
Definition l1_truthy (time : Z) (self : MultiLevelCache) : bool :=
  match l1_cache self with
  | Some c => TTLCache.truthy time c
  | None => false
  end.

(** The part of [get] under [if self.redis_client:]. A [Redis] client is
    true whenever it is not [None], and the text it returns for a key it
    holds is never empty. *)
Definition get_l2 (self : MultiLevelCache) (time : Z) (h : heap)
    (cache_key : str) : outcome (option ref) * MultiLevelCache * heap :=
  match redis_client self with
  | Some client =>
    match Redis.get time client cache_key with
    | Returned (Some cached_data) =>
      let '(result, h) := alloc h cached_data in
      match l1_cache self with
      | Some c =>
        if TTLCache.truthy time c then
          match TTLCache.setitem time c cache_key result with
          | Returned c' =>
            (Returned (Some result), with_l1 self c',
             dict_setitem h result "cache_level" (VStr (lit "L2")))
          | Raised _ => (Returned None, self, h)
          end
        else
          (Returned (Some result), self,
           dict_setitem h result "cache_level" (VStr (lit "L2")))
      | None =>
        (Returned (Some result), self,
         dict_setitem h result "cache_level" (VStr (lit "L2")))
      end
    | Returned None => (Returned None, self, h)
    | Raised _ => (Returned None, self, h)
    end
  | None => (Returned None, self, h)
  end.

(** [get]: what it returns or raises, the cache after it and the heap
    after it. The clock does not advance during the call: the tests on L1
    and the read that follows them see the same [time]. *)
Definition get (self : MultiLevelCache) (time : Z) (h : heap)
    (text target_language : str)
  : outcome (option ref) * MultiLevelCache * heap :=
  let cache_key := _generate_cache_key text target_language in
  match l1_cache self with
  | Some c =>
    if TTLCache.truthy time c && TTLCache.contains time c cache_key then
      match TTLCache.getitem time c cache_key with
      | Returned (result, c') =>
        (Returned (Some result), with_l1 self c',
         dict_setitem h result "cache_level" (VStr (lit "L1")))
      | Raised e => (Raised e, self, h)
      end
    else get_l2 self time h cache_key
  | None => get_l2 self time h cache_key
  end.

(** The part of [set] under [if self.redis_client:]. *)
Definition set_l2 (self : MultiLevelCache) (time : Z) (h : heap)
    (cache_key : str) (translation_data : ref) : MultiLevelCache :=
  match redis_client self with
  | Some client =>
    match Redis.setex time client cache_key (l2_cache_ttl self)
            (default ∅ (h !! translation_data)) with
    | Returned client' => with_redis self client'
    | Raised _ => self
    end
  | None => self
  end.

(** [set] *)
Definition set (self : MultiLevelCache) (time : Z) (h : heap)
    (text target_language : str) (translation_data : ref)
  : outcome unit * MultiLevelCache * heap :=
  let cache_key := _generate_cache_key text target_language in
  match l1_cache self with
  | Some c =>
    if TTLCache.truthy time c then
      let '(copy, h) := dict_copy h translation_data in
      match TTLCache.setitem time c cache_key copy with
      | Returned c' =>
        (Returned tt, set_l2 (with_l1 self c') time h cache_key
                        translation_data, h)
      | Raised e => (Raised e, self, h)
      end
    else (Returned tt, set_l2 self time h cache_key translation_data, h)
  | None => (Returned tt, set_l2 self time h cache_key translation_data, h)
  end.

(** The [dict] that [get_cache_stats] builds; a key that the function
    may leave out is an optional field. *)
Record cache_stats := {
  l1_enabled : bool;
  l2_enabled : bool;
  l1_size : Z;
  l1_maxsize : Z;
  l2_connected : bool;
  l2_memory_used : option str;
  l2_total_keys : option Z;
}.

(** [get_cache_stats]. What the server answers to [info()], read at
    ["used_memory_human"], and to [dbsize()] are inputs: each call
    returns or raises on its own. A key written before the call that
    raises stays in the [dict]. *)
Definition get_cache_stats (self : MultiLevelCache) (time : Z)
    (info : outcome (option str)) (dbsize : outcome Z) : cache_stats :=
  let stats l2_connected l2_memory_used l2_total_keys :=
    {| l1_enabled := enable_l1 self;
       l2_enabled :=
         enable_l2 self
         && match redis_client self with Some _ => true | None => false end;
       l1_size :=
         match l1_cache self with
         | Some c => if TTLCache.truthy time c then TTLCache.len time c else 0
         | None => 0
         end;
       l1_maxsize := if l1_truthy time self then l1_cache_size self else 0;
       l2_connected := l2_connected;
       l2_memory_used := l2_memory_used;
       l2_total_keys := l2_total_keys |} in
  match redis_client self with
  | Some _ =>
    match info with
    | Returned used_memory_human =>
      let l2_memory_used := default (lit "N/A") used_memory_human in
      match dbsize with
      | Returned total_keys =>
        stats true (Some l2_memory_used) (Some total_keys)
      | Raised _ => stats false (Some l2_memory_used) None
      end
    | Raised _ => stats false None None
    end
  | None => stats false None None
  end.

End CacheManager.
End CacheManager.
(* ===================================================================== *)
(** * [schemas.py]: the request and response models *)
(* ===================================================================== *)

(** What the validators take from the interpreter besides [Interp]:
    [c.isalnum()] for a character outside ASCII is read in the Unicode
    database. *)
Class Unicodedata := {
  unicode_isalnum : N -> bool;
}.

Section Characters.
Context `{Unicodedata}.

(** [c.isalnum()] for one character *)
Definition isalnum (c : N) : bool :=
  if PyStr.is_ascii c then
    ((0x30 <=? c) && (c <=? 0x39) || (0x41 <=? c) && (c <=? 0x5A)
     || (0x61 <=? c) && (c <=? 0x7A))%N
  else unicode_isalnum c.

(** [s.isspace()]: the string is not empty and all its characters are
    white space. *)
Definition str_isspace (s : str) : bool :=
  PyStr.truthy s && forallb PyStr.isspace s.

End Characters.

(** The text of a message built by an f-string from ASCII pieces. *)
Definition message (pieces : list str) : string :=
  string_of_list_ascii (map ascii_of_N (concat pieces)).

(** The validators of the two request models are the methods marked
    [@validator]: each takes the value of the field and returns the
    value to keep or raises [ValueError]. A request after validation is
    a record of the values kept. *)
Module TranslationRequest.
Record t := {
  text : str;
  target_language : str;
  source_language : str;
}.

Section Validators.
Context `{Interp} `{Unicodedata}.

Definition validate_text (v : str) : outcome str :=
  if negb (PyStr.truthy v) || str_isspace v then
    Raised "ValueError: Text cannot be empty or only whitespace"
  else Returned (PyStr.strip v).

Definition validate_language_codes (v : str) : outcome str :=
  if bool_decide (v = PyStr.lit "auto") then Returned v
  else
    let v_clean := PyStr.strip (lower v) in
    if (PyStr.len v_clean <? 2) || (10 <? PyStr.len v_clean) then
      Raised "ValueError: Language code must be between 2-10 characters (ISO 639 format)"
    else if negb (forallb (fun c => isalnum c || (c =? 0x2D)%N) v_clean) then
      Raised "ValueError: Language code must contain only letters, numbers, and hyphens"
    else Returned v_clean.

End Validators.
End TranslationRequest.

Module BatchTranslationRequest.
Record t := {
  texts : list str;
  target_language : str;
  source_language : str;
}.

Section Validators.
Context `{Interp} `{Unicodedata}.

(** The loop [for i, text in enumerate(v):], from index [i] on, with
    [validated_texts] so far. [max_text_length] is the constant
    [MAX_TEXT_LENGTH] of the module. *)
Fixpoint validate_texts_from (max_text_length : Z) (i : Z) (v : list str)
    (validated_texts : list str) : outcome (list str) :=
  match v with
  | [] => Returned validated_texts
  | text :: rest =>
    if negb (PyStr.truthy text) || str_isspace text then
      Raised (message [PyStr.lit "ValueError: Text at index ";
                       PyStr.of_int i;
                       PyStr.lit " cannot be empty or only whitespace"])
    else if max_text_length <? PyStr.len text then
      Raised (message [PyStr.lit "ValueError: Text at index ";
                       PyStr.of_int i;
                       PyStr.lit " exceeds maximum length of ";
                       PyStr.of_int max_text_length;
                       PyStr.lit " characters"])
    else
      validate_texts_from max_text_length (i + 1) rest
        (validated_texts ++ [PyStr.strip text])
  end.

Definition validate_texts (max_text_length : Z) (v : list str)
  : outcome (list str) :=
  match v with
  | [] => Raised "ValueError: Texts list cannot be empty"
  | _ => validate_texts_from max_text_length 0 v []
  end.

(** The same method as in [TranslationRequest]. *)
Definition validate_language_codes (v : str) : outcome str :=
  TranslationRequest.validate_language_codes v.

End Validators.
End BatchTranslationRequest.

Module TranslationResponse.
Section TranslationResponse.
Context `{Interp}.

Record t := {
  translated_text : str;
  source_language : str;
  target_language : str;
  service : str;
  confidence : Z;
  original_text : str;
  cache_level : option str;
  processing_time_ms : option pynumber;
  error : option str;
}.

Definition required_str (d : pydict) (k : string) : outcome str :=
  match d !! k with
  | Some (VStr s) => Returned s
  | _ => Raised "ValidationError"
  end.

Definition optional_str (d : pydict) (k : string) : outcome (option str) :=
  match d !! k with
  | None | Some VNone => Returned None
  | Some (VStr s) => Returned (Some s)
  | _ => Raised "ValidationError"
  end.

Definition optional_float (d : pydict) (k : string)
  : outcome (option pynumber) :=
  match d !! k with
  | None | Some VNone => Returned None
  | Some (VFloat x) => Returned (Some x)
  | _ => Raised "ValidationError"
  end.

(** [confidence: int = Field(ge=0, le=100)] *)
Definition confidence_field (d : pydict) : outcome Z :=
  match d !! "confidence" with
  | Some (VInt z) =>
    if (0 <=? z) && (z <=? 100) then Returned z else Raised "ValidationError"
  | _ => Raised "ValidationError"
  end.

Definition and_then {A B} (o : outcome A) (f : A -> outcome B) : outcome B :=
  match o with
  | Returned a => f a
  | Raised e => Raised e
  end.

(** [TranslationResponse] built from the items of a [dict] [d], as the
    call with [d] unpacked into keyword arguments does, for a [dict]
    whose fields, when present,
    have the declared types; a field of another type is refused here
    (the library would first try to convert it). Keys that are not fields
    of the model are ignored. *)
Definition of_dict (d : pydict) : outcome t :=
  and_then (required_str d "translated_text") (fun translated_text =>
  and_then (required_str d "source_language") (fun source_language =>
  and_then (required_str d "target_language") (fun target_language =>
  and_then (required_str d "service") (fun service =>
  and_then (confidence_field d) (fun confidence =>
  and_then (required_str d "original_text") (fun original_text =>
  and_then (optional_str d "cache_level") (fun cache_level =>
  and_then (optional_float d "processing_time_ms") (fun processing_time_ms =>
  and_then (optional_str d "error") (fun error =>
  Returned
    {| translated_text := translated_text;
       source_language := source_language;
       target_language := target_language;
       service := service;
       confidence := confidence;
       original_text := original_text;
       cache_level := cache_level;
       processing_time_ms := processing_time_ms;
       error := error |}))))))))).

End TranslationResponse.
End TranslationResponse.

Module MinimalTranslationResponse.
Record t := {
  translated_text : str;
  source_language : str;
  target_language : str;
}.
End MinimalTranslationResponse.

(* ===================================================================== *)
(** * [main.py]: the two translation endpoints *)
(* ===================================================================== *)

Module Main.
Import PyStr Await TranslationServices CacheManager.
Section Main.
Context `{Interp} `{Process}.

(** The module-level state the endpoints work on: the global
    [cache_manager], the objects, the global counter, and the tasks handed
    to [background_tasks], each with the text and the result object it
    will read. *)
Record app := {
  cache_manager : MultiLevelCache;
  objects : heap;
  total_translations : Z;
  background_tasks : list (str * ref);
}.

(** The readings of the clocks during the handling of one text: the time
    of the cache at [get] and at [set], and the value of
    [round(processing_time, 2)]. *)
Record timing := {
  at_get : Z;
  at_set : Z;
  elapsed_ms : pynumber;
}.

(** [raise HTTPException(status_code=500, ...)] *)
Definition http_500 {A} : outcome A := Raised "HTTPException 500".

(** Truth value of a name bound to a [dict] object or to [None]. *)
Definition ref_truthy (h : heap) (r : option ref) : bool :=
  match r with
  | Some r => dict_truthy (default ∅ (h !! r))
  | None => false
  end.

(** [TranslationResponse] from the items of the object [result]. *)
Definition response_of (h : heap) (result : ref)
  : outcome TranslationResponse.t :=
  match TranslationResponse.of_dict (default ∅ (h !! result)) with
  | Returned response => Returned response
  | Raised _ => http_500
  end.

(** The part of [translate_text] after a cache miss. *)
Definition translate_text_fresh (svc : service)
    (request : TranslationRequest.t) (clock : timing)
    (cm : MultiLevelCache) (h : heap) (st : app)
  : prog (outcome TranslationResponse.t * app) :=
  translation_result ←
    translate svc (TranslationRequest.text request)
      (TranslationRequest.target_language request)
      (TranslationRequest.source_language request);
  let '(translation_result, h) := alloc h translation_result in
  match set cm (at_set clock) h (TranslationRequest.text request)
          (TranslationRequest.target_language request) translation_result with
  | (Raised _, cm, h) =>
    mret (http_500,
          {| cache_manager := cm; objects := h;
             total_translations := total_translations st;
             background_tasks := background_tasks st |})
  | (Returned _, cm, h) =>
    let tasks :=
      background_tasks st
      ++ [(TranslationRequest.text request, translation_result)] in
    let h :=
      dict_setitem h translation_result "processing_time_ms"
        (VFloat (elapsed_ms clock)) in
    let h := dict_setitem h translation_result "cache_level" VNone in
    mret (response_of h translation_result,
          {| cache_manager := cm; objects := h;
             total_translations := total_translations st + 1;
             background_tasks := tasks |})
  end.

(** [POST /translate] *)
Definition translate_text (svc : service) (request : TranslationRequest.t)
    (clock : timing) (st : app)
  : prog (outcome TranslationResponse.t * app) :=
  match get (cache_manager st) (at_get clock) (objects st)
          (TranslationRequest.text request)
          (TranslationRequest.target_language request) with
  | (Raised _, cm, h) =>
    mret (http_500,
          {| cache_manager := cm; objects := h;
             total_translations := total_translations st;
             background_tasks := background_tasks st |})
  | (Returned cached_result, cm, h) =>
    if ref_truthy h cached_result then
      match cached_result with
      | Some cached_result =>
        let h :=
          dict_setitem h cached_result "processing_time_ms"
            (VFloat (elapsed_ms clock)) in
        mret (response_of h cached_result,
              {| cache_manager := cm; objects := h;
                 total_translations := total_translations st;
                 background_tasks := background_tasks st |})
      | None => mret (http_500, st)
      end
    else translate_text_fresh svc request clock cm h st
  end.

(** The state of the loop of [translate_batch]. *)
Record batch := {
  results : list ref;
  cache_hits : Z;
  api_calls : Z;
  state : app;
}.

(** The part of the loop body after a cache miss. *)
Definition batch_item_fresh (svc : service)
    (request : BatchTranslationRequest.t) (text : str) (clock : timing)
    (cm : MultiLevelCache) (h : heap) (b : batch)
  : prog (outcome unit * batch) :=
  translation_result ←
    translate svc text
      (BatchTranslationRequest.target_language request)
      (BatchTranslationRequest.source_language request);
  let '(translation_result, h) := alloc h translation_result in
  let h :=
    dict_setitem h translation_result "processing_time_ms"
      (VFloat (elapsed_ms clock)) in
  let h :=
    dict_setitem h translation_result "cache_level" (VStr (lit "fresh")) in
  match set cm (at_set clock) h text
          (BatchTranslationRequest.target_language request)
          translation_result with
  | (Raised _, cm, h) =>
    mret (http_500,
          {| results := results b; cache_hits := cache_hits b;
             api_calls := api_calls b;
             state :=
               {| cache_manager := cm; objects := h;
                  total_translations := total_translations (state b);
                  background_tasks := background_tasks (state b) |} |})
  | (Returned _, cm, h) =>
    mret (Returned tt,
          {| results := results b ++ [translation_result];
             cache_hits := cache_hits b;
             api_calls := api_calls b + 1;
             state :=
               {| cache_manager := cm; objects := h;
                  total_translations := total_translations (state b);
                  background_tasks :=
                    background_tasks (state b) ++ [(text, translation_result)]
               |} |})
  end.

(** One iteration of [for text in request.texts:]. *)
Definition batch_item (svc : service) (request : BatchTranslationRequest.t)
    (text : str) (clock : timing) (b : batch)
  : prog (outcome unit * batch) :=
  match get (cache_manager (state b)) (at_get clock) (objects (state b)) text
          (BatchTranslationRequest.target_language request) with
  | (Raised _, cm, h) =>
    mret (http_500,
          {| results := results b; cache_hits := cache_hits b;
             api_calls := api_calls b;
             state :=
               {| cache_manager := cm; objects := h;
                  total_translations := total_translations (state b);
                  background_tasks := background_tasks (state b) |} |})
  | (Returned cached_result, cm, h) =>
    if ref_truthy h cached_result then
      match cached_result with
      | Some cached_result =>
        let h :=
          dict_setitem h cached_result "processing_time_ms"
            (VFloat (elapsed_ms clock)) in
        mret (Returned tt,
              {| results := results b ++ [cached_result];
                 cache_hits := cache_hits b + 1;
                 api_calls := api_calls b;
                 state :=
                   {| cache_manager := cm; objects := h;
                      total_translations := total_translations (state b);
                      background_tasks := background_tasks (state b) |} |})
      | None => mret (http_500, b)
      end
    else batch_item_fresh svc request text clock cm h b
  end.

(** The loop, from the text of index [i] on; [clocks] gives the readings
    of the clocks for the text of each index. *)
Fixpoint batch_loop (svc : service) (request : BatchTranslationRequest.t)
    (texts : list str) (clocks : nat -> timing) (i : nat) (b : batch)
  : prog (outcome unit * batch) :=
  match texts with
  | [] => mret (Returned tt, b)
  | text :: rest =>
    r ← batch_item svc request text (clocks i) b;
    match r with
    | (Returned _, b) => batch_loop svc request rest clocks (S i) b
    | (Raised e, b) => mret (Raised e, b)
    end
  end.

(** The two shapes of the answer of [POST /translate/batch]. *)
Record BatchTranslationResponse := {
  full_results : list TranslationResponse.t;
  total_count : Z;
  successful_count : Z;
  failed_count : Z;
  total_processing_time_ms : pynumber;
  response_cache_hits : Z;
  response_api_calls : Z;
}.

Record MinimalBatchTranslationResponse := {
  minimal_results : list MinimalTranslationResponse.t;
  minimal_total_count : Z;
  minimal_successful_count : Z;
  minimal_failed_count : Z;
}.

(** [not result.get("error")] *)
Definition without_error (h : heap) (result : ref) : bool :=
  negb (value_truthy (dict_get (default ∅ (h !! result)) "error")).

(** The list of the [TranslationResponse]s of [results]. *)
Fixpoint responses_of (h : heap) (results : list ref)
  : outcome (list TranslationResponse.t) :=
  match results with
  | [] => Returned []
  | result :: rest =>
    match response_of h result with
    | Raised e => Raised e
    | Returned response =>
      match responses_of h rest with
      | Raised e => Raised e
      | Returned responses => Returned (response :: responses)
      end
    end
  end.

(** [MinimalTranslationResponse(translated_text=result["translated_text"],
    ...)] *)
Definition minimal_of (h : heap) (result : ref)
  : outcome MinimalTranslationResponse.t :=
  let d := default ∅ (h !! result) in
  match dict_str d "translated_text", dict_str d "source_language",
        dict_str d "target_language" with
  | Some t, Some s, Some g =>
    Returned
      {| MinimalTranslationResponse.translated_text := t;
         MinimalTranslationResponse.source_language := s;
         MinimalTranslationResponse.target_language := g |}
  | _, _, _ => http_500
  end.

Fixpoint minimals_of (h : heap) (results : list ref)
  : outcome (list MinimalTranslationResponse.t) :=
  match results with
  | [] => Returned []
  | result :: rest =>
    match minimal_of h result with
    | Raised e => Raised e
    | Returned response =>
      match minimals_of h rest with
      | Raised e => Raised e
      | Returned responses => Returned (response :: responses)
      end
    end
  end.

(** [POST /translate/batch] *)
Definition translate_batch (svc : service)
    (request : BatchTranslationRequest.t) (minimal : bool)
    (clocks : nat -> timing) (total_elapsed_ms : pynumber) (st : app)
  : prog (outcome (BatchTranslationResponse + MinimalBatchTranslationResponse)
          * app) :=
  r ← batch_loop svc request (BatchTranslationRequest.texts request) clocks
        O {| results := []; cache_hits := 0; api_calls := 0; state := st |};
  match r with
  | (Raised _, b) => mret (http_500, state b)
  | (Returned _, b) =>
    let h := objects (state b) in
    let successful_count :=
      Z.of_nat (length (List.filter (without_error h) (results b))) in
    let failed_count := Z.of_nat (length (results b)) - successful_count in
    let st :=
      {| cache_manager := cache_manager (state b);
         objects := h;
         total_translations :=
           total_translations (state b) + Z.of_nat (length (results b));
         background_tasks := background_tasks (state b) |} in
    if minimal then
      match minimals_of h (List.filter (without_error h) (results b)) with
      | Raised _ => mret (http_500, st)
      | Returned minimal_results =>
        mret (Returned (inr
                {| minimal_results := minimal_results;
                   minimal_total_count := Z.of_nat (length (results b));
                   minimal_successful_count := successful_count;
                   minimal_failed_count := failed_count |}), st)
      end
    else
      match responses_of h (results b) with
      | Raised _ => mret (http_500, st)
      | Returned response_results =>
        mret (Returned (inl
                {| full_results := response_results;
                   total_count := Z.of_nat (length (results b));
                   successful_count := successful_count;
                   failed_count := failed_count;
                   total_processing_time_ms := total_elapsed_ms;
                   response_cache_hits := cache_hits b;
                   response_api_calls := api_calls b |}), st)
      end
  end.

End Main.
End Main.

(* ===================================================================== *)
(** * [hashlib.sha256] and [str.encode] *)
(* ===================================================================== *)

(** SHA-256 on a list of bytes, as [hashlib] computes it (FIPS 180-4):
    the message is padded to whole blocks of 64 bytes, every block is
    compressed into the state of eight words of 32 bits, and the digest
    is the state in hexadecimal. The library is not part of the
    repository; the figures of this model agree with those of the
    library on the inputs used below. *)
Module Sha256.

Definition u32 (x : N) : N := (x mod 2 ^ 32)%N.

Definition rotr (x n : N) : N :=
  N.lor (N.shiftr x n) (u32 (N.shiftl x (32 - n))).

Definition ch (x y z : N) : N :=
  N.lxor (N.land x y) (N.land (N.lxor x 0xffffffff) z).

Definition maj (x y z : N) : N :=
  N.lxor (N.lxor (N.land x y) (N.land x z)) (N.land y z).

Definition big_sigma0 (x : N) : N :=
  N.lxor (N.lxor (rotr x 2) (rotr x 13)) (rotr x 22).

Definition big_sigma1 (x : N) : N :=
  N.lxor (N.lxor (rotr x 6) (rotr x 11)) (rotr x 25).

Definition small_sigma0 (x : N) : N :=
  N.lxor (N.lxor (rotr x 7) (rotr x 18)) (N.shiftr x 3).

Definition small_sigma1 (x : N) : N :=
  N.lxor (N.lxor (rotr x 17) (rotr x 19)) (N.shiftr x 10).

(** The round constants: the first 32 bits of the fractional parts of
    the cube roots of the first 64 primes. *)
Definition prime (n : N) : bool :=
  forallb (fun d => negb (n mod d =? 0)%N)
    (map N.of_nat (seq 2 (N.to_nat n - 2))).

Definition first_primes : list N :=
  List.filter prime (map N.of_nat (seq 2 310)).

(** The greatest [r] with [r ^ 3 <= x], found bit by bit from the top. *)
Fixpoint cube_root_from (bits : nat) (x r : N) : N :=
  match bits with
  | O => r
  | S bits' =>
    let r' := (r + 2 ^ N.of_nat bits')%N in
    cube_root_from bits' x (if (r' * r' * r' <=? x)%N then r' else r)
  end.

Definition cube_root (x : N) : N :=
  cube_root_from (N.to_nat (N.size x)) x 0.

Definition K : list N :=
  Eval vm_compute in
    map (fun p => u32 (cube_root (p * 2 ^ 96))) first_primes.

(** The eight working variables [a .. h]. *)
Record state := {
  sa : N; sb : N; sc : N; sd : N; se : N; sf : N; sg : N; sh : N;
}.

Definition initial : state :=
  {| sa := 0x6a09e667; sb := 0xbb67ae85; sc := 0x3c6ef372; sd := 0xa54ff53a;
     se := 0x510e527f; sf := 0x9b05688c; sg := 0x1f83d9ab; sh := 0x5be0cd19 |}.

(** The padding: the byte [0x80], zero bytes up to 56 modulo 64, and the
    length of the message in bits as eight bytes, the first the most
    significant. *)
Fixpoint be_bytes (n : nat) (x : N) : list N :=
  match n with
  | O => []
  | S n' => be_bytes n' (x / 256)%N ++ [(x mod 256)%N]
  end.

Definition pad (message : list N) : list N :=
  let l := length message in
  let zeros := ((64 - (l + 9) mod 64) mod 64)%nat in
  message ++ [0x80%N] ++ repeat 0%N zeros
  ++ be_bytes 8 (8 * N.of_nat l)%N.

(** A word from four bytes, the first the most significant. *)
Definition be_word (bytes : list N) : N :=
  fold_left (fun w b => (256 * w + b)%N) bytes 0%N.

Fixpoint words (n : nat) (bytes : list N) : list N :=
  match n with
  | O => []
  | S n' => be_word (take 4 bytes) :: words n' (drop 4 bytes)
  end.

(** The message schedule [W_0 .. W_63]: [w] holds the words so far, the
    last one first. *)
Fixpoint schedule (n : nat) (w : list N) : list N :=
  match n with
  | O => rev w
  | S n' =>
    let at_ (i : nat) := nth i w 0%N in
    schedule n'
      (u32 (small_sigma1 (at_ 1%nat) + at_ 6%nat
            + small_sigma0 (at_ 14%nat) + at_ 15%nat)
       :: w)
  end.

Definition round (s : state) (kw : N * N) : state :=
  let t1 :=
    (sh s + big_sigma1 (se s) + ch (se s) (sf s) (sg s) + fst kw + snd kw)%N in
  let t2 := (big_sigma0 (sa s) + maj (sa s) (sb s) (sc s))%N in
  {| sa := u32 (t1 + t2); sb := sa s; sc := sb s; sd := sc s;
     se := u32 (sd s + t1); sf := se s; sg := sf s; sh := sg s |}.

Definition compress (s : state) (block : list N) : state :=
  let w := schedule 48 (rev (words 16 block)) in
  let r := fold_left round (combine K w) s in
  {| sa := u32 (sa s + sa r); sb := u32 (sb s + sb r);
     sc := u32 (sc s + sc r); sd := u32 (sd s + sd r);
     se := u32 (se s + se r); sf := u32 (sf s + sf r);
     sg := u32 (sg s + sg r); sh := u32 (sh s + sh r) |}.

Fixpoint blocks (n : nat) (s : state) (bytes : list N) : state :=
  match n with
  | O => s
  | S n' => blocks n' (compress s (take 64 bytes)) (drop 64 bytes)
  end.

Definition digest (message : list N) : state :=
  let padded := pad message in
  blocks (length padded / 64) initial padded.

(** A hexadecimal digit, in lower case. *)
Definition hex_digit (d : N) : N :=
  if (d <? 10)%N then (0x30 + d)%N else (0x57 + d)%N.

(** The eight digits of a word. *)
Definition hex_word (x : N) : str :=
  map (fun k => hex_digit (N.shiftr x k mod 16)%N)
    [28; 24; 20; 16; 12; 8; 4; 0]%N.

(** [hashlib.sha256(message).hexdigest()] *)
Definition hexdigest (message : list N) : str :=
  let s := digest message in
  hex_word (sa s) ++ hex_word (sb s) ++ hex_word (sc s) ++ hex_word (sd s)
  ++ hex_word (se s) ++ hex_word (sf s) ++ hex_word (sg s) ++ hex_word (sh s).

End Sha256.

(** [s.encode()]: the UTF-8 bytes of a [str]. A surrogate code point has
    no encoding and makes the call raise. *)
Module Utf8.

Definition continuation (c shift : N) : N :=
  N.lor 0x80 (N.land (N.shiftr c shift) 0x3F).

Definition encode_point (c : N) : outcome (list N) :=
  if (c <? 0x80)%N then Returned [c]
  else if (c <? 0x800)%N then
    Returned [N.lor 0xC0 (N.shiftr c 6); continuation c 0]
  else if (c <? 0x10000)%N then
    if ((0xD800 <=? c) && (c <=? 0xDFFF))%N then
      Raised "UnicodeEncodeError: surrogates not allowed"
    else
      Returned [N.lor 0xE0 (N.shiftr c 12); continuation c 6;
                continuation c 0]
  else
    Returned [N.lor 0xF0 (N.shiftr c 18); continuation c 12;
              continuation c 6; continuation c 0].

Fixpoint encode (s : str) : outcome (list N) :=
  match s with
  | [] => Returned []
  | c :: s' =>
    match encode_point c with
    | Raised e => Raised e
    | Returned bytes =>
      match encode s' with
      | Raised e => Raised e
      | Returned rest => Returned (bytes ++ rest)
      end
    end
  end.

End Utf8.

(* ===================================================================== *)
(** * [models.py]: the table [translations] *)
(* ===================================================================== *)

Module Translation.
Import PyStr.
Section Translation.
Context `{Interp}.

(** A [Translation] object, with the columns that
    [store_translation_in_db] sets: the hash and the text are [str], the
    others are the values of the result. The columns the database fills
    in ([id], [created_at], [updated_at]) are not read by the program
    and are left out. *)
Record t := {
  text_hash : str;
  source_text : str;
  target_language : value;
  source_language : value;
  translated_text : value;
  translation_service : value;
  confidence : value;
  is_cached : bool;
}.

(** [f"{text.lower().strip()}:{target_language.lower()}"] *)
Definition combined (text target_language : str) : str :=
  strip (lower text) ++ lit ":" ++ lower target_language.

(** [Translation.generate_hash] *)
Definition generate_hash (text target_language : str) : outcome str :=
  match Utf8.encode (combined text target_language) with
  | Raised e => Raised e
  | Returned bytes => Returned (Sha256.hexdigest bytes)
  end.

End Translation.
End Translation.

(* ===================================================================== *)
(** * The database and its sessions *)
(* ===================================================================== *)

(** The database behind [DATABASE_URL], with the one table of the
    program. A statement sent to a server that cannot be reached raises.
    What the engine lets into the table (the declared [nullable=False],
    the types and lengths it enforces, the values its driver can bind)
    differs between engines and is a property of the database, [admits].
    One client writes at a time. *)
Module Database.
Section Database.
Context `{Interp}.

Record t := {
  reachable : bool;
  admits : Translation.t -> bool;
  translations : list Translation.t;
}.

(** [SELECT ... WHERE text_hash = :hash LIMIT 1] *)
Definition select_first (db : t) (hash : str)
  : outcome (option Translation.t) :=
  if reachable db then
    Returned
      (List.find (fun r => bool_decide (Translation.text_hash r = hash))
         (translations db))
  else Raised "OperationalError".

(** [INSERT] of the objects of a flush and [COMMIT], in one
    transaction: all the rows or none. *)
Definition insert_all (db : t) (objects : list Translation.t) : outcome t :=
  if reachable db then
    if forallb (admits db) objects then
      Returned {| reachable := reachable db; admits := admits db;
                  translations := translations db ++ objects |}
    else Raised "IntegrityError"
  else Raised "OperationalError".

End Database.
End Database.

(** A [sqlalchemy.orm.Session] made by [SessionLocal], with
    [autocommit=False, autoflush=False]: the database it is bound to and
    the objects added and not yet flushed. *)
Module Session.
Section Session.
Context `{Interp}.

Record t := {
  bind : Database.t;
  new : list Translation.t;
}.

(** [SessionLocal()] *)
Definition SessionLocal (db : Database.t) : t := {| bind := db; new := [] |}.

(** [db.query(Translation).filter(Translation.text_hash == hash).first()];
    nothing is flushed before the query. *)
Definition query_first (db : t) (hash : str)
  : outcome (option Translation.t) :=
  Database.select_first (bind db) hash.

(** [db.add(obj)] *)
Definition add (db : t) (obj : Translation.t) : t :=
  {| bind := bind db; new := new db ++ [obj] |}.

(** [db.commit()]: the pending objects are flushed and the transaction
    is committed. With nothing pending there is nothing to write. *)
Definition commit (db : t) : outcome t :=
  match new db with
  | [] => Returned db
  | objects =>
    match Database.insert_all (bind db) objects with
    | Returned database => Returned {| bind := database; new := [] |}
    | Raised e => Raised e
    end
  end.

(** [db.rollback()]: what was added and not committed is dropped. *)
Definition rollback (db : t) : t := {| bind := bind db; new := [] |}.

(** [db.close()], leaving the database as the session made it. *)
Definition close (db : t) : Database.t := bind db.

End Session.
End Session.

(* ===================================================================== *)
(** * [database.py] and the database task of [main.py] *)
(* ===================================================================== *)

Module Storage.
Import PyStr.
Section Storage.
Context `{Interp}.

(** [with get_db_session() as db: body]: the session is committed after
    the body; when the body or that commit raises, the session is rolled
    back and the exception goes on to the caller; the session is closed
    in both cases. *)
Definition get_db_session {A} (database : Database.t)
    (body : Session.t -> outcome A * Session.t) : outcome A * Database.t :=
  let session := Session.SessionLocal database in
  match body session with
  | (Returned a, session) =>
    match Session.commit session with
    | Returned session => (Returned a, Session.close session)
    | Raised e => (Raised e, Session.close (Session.rollback session))
    end
  | (Raised e, session) =>
    (Raised e, Session.close (Session.rollback session))
  end.

(** [d[k]] *)
Definition getitem (d : pydict) (k : string) : outcome value :=
  match d !! k with
  | Some v => Returned v
  | None => Raised "KeyError"
  end.

(** [Translation.generate_hash(text, v)] for a value [v]: only a [str]
    has [lower]. *)
Definition hash_of (text : str) (v : value) : outcome str :=
  match v with
  | VStr target_language => Translation.generate_hash text target_language
  | _ => Raised "AttributeError: lower"
  end.

(** [Translation(text_hash=..., source_text=text, ...)], the keys of the
    result read in the order of the arguments. *)
Definition new_translation (text_hash text : str)
    (translation_result : pydict) : outcome Translation.t :=
  match getitem translation_result "target_language" with
  | Raised e => Raised e
  | Returned target_language =>
  match getitem translation_result "source_language" with
  | Raised e => Raised e
  | Returned source_language =>
  match getitem translation_result "translated_text" with
  | Raised e => Raised e
  | Returned translated_text =>
  match getitem translation_result "service" with
  | Raised e => Raised e
  | Returned service_name =>
  match getitem translation_result "confidence" with
  | Raised e => Raised e
  | Returned confidence =>
    Returned
      {| Translation.text_hash := text_hash;
         Translation.source_text := text;
         Translation.target_language := target_language;
         Translation.source_language := source_language;
         Translation.translated_text := translated_text;
         Translation.translation_service := service_name;
         Translation.confidence := confidence;
         Translation.is_cached := true |}
  end end end end end.

(** The body of the [with] statement of [store_translation_in_db]. An
    object of the class [Translation] is true in a condition. *)
Definition store_in_session (text : str) (translation_result : pydict)
    (db : Session.t) : outcome unit * Session.t :=
  match getitem translation_result "target_language" with
  | Raised e => (Raised e, db)
  | Returned target_language =>
    match hash_of text target_language with
    | Raised e => (Raised e, db)
    | Returned text_hash =>
      match Session.query_first db text_hash with
      | Raised e => (Raised e, db)
      | Returned (Some existing) => (Returned tt, db)
      | Returned None =>
        match new_translation text_hash text translation_result with
        | Raised e => (Raised e, db)
        | Returned db_translation =>
          let db := Session.add db db_translation in
          match Session.commit db with
          | Raised e => (Raised e, db)
          | Returned db => (Returned tt, db)
          end
        end
      end
    end
  end.

(** What the [try] statement of [store_translation_in_db] runs: the
    [with] statement, which returns or raises. *)
Definition store_in_database (text : str) (translation_result : pydict)
    (database : Database.t) : outcome unit * Database.t :=
  get_db_session database (store_in_session text translation_result).

(** [store_translation_in_db]: an exception is printed and goes no
    further; the function returns [None]. *)
Definition store_translation_in_db (text : str) (translation_result : pydict)
    (database : Database.t) : Database.t :=
  snd (store_in_database text translation_result database).

(** The tasks handed to [background_tasks], run in the order in which
    they were added, each on the object it was given. *)
Definition run_background_tasks (objects : heap) (tasks : list (str * ref))
    (database : Database.t) : Database.t :=
  fold_left
    (fun database task =>
       store_translation_in_db (fst task) (default ∅ (objects !! snd task))
         database)
    tasks database.

End Storage.
End Storage.

(* ===================================================================== *)
(** * [main.py]: the health check *)
(* ===================================================================== *)

(** [round(x, ndigits)] on a [float], which the interpreter computes
    from the decimal expansion of [x]. *)
Class Builtins := {
  round_ndigits : PrimFloat.float -> Z -> PrimFloat.float;
}.

(** [GET /health]. What the outside answers to the checks, and the
    readings of the clock, are inputs; a [float] is a binary64 number
    and the arithmetic on it is that of the processor. *)
Module Health.
Import PyStr TranslationServices CacheManager.
Import PrimFloat.
Section Health.
Context `{Interp} `{Process} `{Builtins}.

(** What a call to the outside gives: a value, or an exception [e] with
    the text of [str(e)]. *)
Inductive reply (A : Type) : Type :=
| Replied (a : A)
| Failed (message : str).
Arguments Replied {A} a.
Arguments Failed {A} message.

(** The answers of the outside during one check: the status codes of
    the two [GET] requests, the value of [ping()], and what [info()] and
    [dbsize()] give to [get_cache_stats]. *)
Record outside := {
  database : Database.t;
  mymemory_get : reply Z;
  libretranslate_get : reply Z;
  redis_ping : reply bool;
  redis_info : outcome (option str);
  redis_dbsize : outcome Z;
}.

(** The readings of [time.time()], in the order of the calls, and the
    time of the L1 cache when its size is read. *)
Record readings := {
  at_timestamp : float;
  at_uptime : float;
  mymemory_start : float;
  mymemory_end : float;
  libretranslate_start : float;
  libretranslate_end : float;
  redis_start : float;
  redis_end : float;
  at_stats : Z;
}.

(** An [int] as a [float], for the [int]s of this function, which are
    small. *)
Definition float_of_int (z : Z) : float := of_uint63 (Uint63.of_Z z).

(** [round((time.time() * 1000) - start_test, 2)] with
    [start_test = time.time() * 1000] *)
Definition elapsed_ms (start_reading end_reading : float) : float :=
  round_ndigits (end_reading * 1000 - start_reading * 1000)%float 2.

(** [str(e)[:100]] *)
Definition first_100 (message : str) : str := slice message 0 100.

(** ** 1. The database *)

(** [db.execute(text("SELECT 1")).fetchone()]: the row of the one
    value. *)
Definition select_1 (db : Session.t) : outcome (option (list Z)) :=
  if Database.reachable (Session.bind db) then Returned (Some [1])
  else Raised "OperationalError".

(** The first [try] statement: whether the database answered 1. The
    flag [database_connected] and the check get the same value. *)
Definition database_check (database : Database.t) : bool :=
  match
    Storage.get_db_session database
      (fun db =>
         match select_1 db with
         | Raised e => (Raised e, db)
         | Returned result =>
           (Returned
              match result with
              | Some (first :: _) => first =? 1
              | _ => false
              end, db)
         end)
  with
  | (Returned connected, _) => connected
  | (Raised _, _) => false
  end.

(** ** 2. MyMemory *)

Record mymemory_status := {
  configured : bool;
  mymemory_reachable : bool;
  mymemory_response_time_ms : option float;
  mymemory_error : option str;
}.

(** Truth value of [translation_service.mymemory_api_key]. *)
Definition api_key_truthy (self : service) : bool :=
  match mymemory_api_key self with
  | Some key => truthy key
  | None => false
  end.

Definition mymemory_check (self : service) (env : outside) (clock : readings)
  : mymemory_status * bool :=
  if api_key_truthy self then
    match mymemory_get env with
    | Replied status_code =>
      if status_code =? 200 then
        ({| configured := true; mymemory_reachable := true;
            mymemory_response_time_ms :=
              Some (elapsed_ms (mymemory_start clock) (mymemory_end clock));
            mymemory_error := None |}, true)
      else
        ({| configured := true; mymemory_reachable := false;
            mymemory_response_time_ms := None;
            mymemory_error := Some (lit "HTTP " ++ of_int status_code) |},
         false)
    | Failed message =>
      ({| configured := true; mymemory_reachable := false;
          mymemory_response_time_ms := None;
          mymemory_error := Some (first_100 message) |}, false)
    end
  else
    ({| configured := false; mymemory_reachable := false;
        mymemory_response_time_ms := None; mymemory_error := None |}, false).

(** ** 3. LibreTranslate *)

Record libretranslate_status := {
  libretranslate_reachable : bool;
  libretranslate_response_time_ms : option float;
  libretranslate_error : option str;
}.

Definition libretranslate_check (env : outside) (clock : readings)
  : libretranslate_status * bool :=
  match libretranslate_get env with
  | Replied status_code =>
    if status_code =? 200 then
      ({| libretranslate_reachable := true;
          libretranslate_response_time_ms :=
            Some (elapsed_ms (libretranslate_start clock)
                    (libretranslate_end clock));
          libretranslate_error := None |}, true)
    else
      ({| libretranslate_reachable := false;
          libretranslate_response_time_ms := None;
          libretranslate_error := Some (lit "HTTP " ++ of_int status_code) |},
       false)
  | Failed message =>
    ({| libretranslate_reachable := false;
        libretranslate_response_time_ms := None;
        libretranslate_error := Some (first_100 message) |}, false)
  end.

(** ** 4. Redis *)

Record redis_status := {
  connected : bool;
  redis_response_time_ms : option float;
  redis_error : option str;
}.

(** A [Redis] client is true whenever it is not [None]. *)
Definition redis_check (cache_manager : MultiLevelCache) (env : outside)
    (clock : readings) : redis_status * bool :=
  match redis_client cache_manager with
  | Some _ =>
    match redis_ping env with
    | Replied ping_result =>
      if ping_result then
        ({| connected := true;
            redis_response_time_ms :=
              Some (elapsed_ms (redis_start clock) (redis_end clock));
            redis_error := None |}, true)
      else
        ({| connected := false; redis_response_time_ms := None;
            redis_error := Some (lit "Ping failed") |}, false)
    | Failed message =>
      ({| connected := false; redis_response_time_ms := None;
          redis_error := Some (first_100 message) |}, false)
    end
  | None =>
    ({| connected := false; redis_response_time_ms := None;
        redis_error := Some (lit "Redis client not initialized") |}, false)
  end.

(** ** 5. The mock dictionary *)

Record mock_status := {
  enabled : bool;
  dictionary_size : Z;
}.

(** [len(translation_service.mock_translations)]: the keys of the
    [dict], each counted once. *)
Definition mock_check (self : service) : mock_status * list bool :=
  ({| enabled := enable_mock_fallback self;
      dictionary_size :=
        if enable_mock_fallback self
        then Z.of_nat (length (remove_dups (map fst (mock_translations self))))
        else 0 |},
   if enable_mock_fallback self then [true] else []).

(** ** 7. The status *)

(** [sum(service_checks)] *)
Definition sum (service_checks : list bool) : Z :=
  fold_left (fun n (check : bool) => n + (if check then 1 else 0))
    service_checks 0.

(** [healthy_services >= total_services * 0.8], the product a [float] *)
#[warnings="-inexact-float"]
Definition enough (healthy_services total_services : Z) : bool :=
  (float_of_int total_services * 0.8 <=? float_of_int healthy_services)%float.

Definition status_of (service_checks : list bool) : str :=
  let critical_services := take 2 service_checks in
  let total_services := Z.of_nat (length service_checks) in
  let healthy_services := sum service_checks in
  if forallb id critical_services && enough healthy_services total_services
  then lit "healthy"
  else if existsb id critical_services then lit "degraded"
  else lit "unhealthy".

(** An [int] or a [float]. *)
Inductive number : Type :=
| Int (z : Z)
| Float (x : float).

Record service_summary := {
  total_services : Z;
  healthy_services : Z;
  health_percentage : number;
}.

Definition summary_of (service_checks : list bool) : service_summary :=
  let total_services := Z.of_nat (length service_checks) in
  let healthy_services := sum service_checks in
  {| total_services := total_services;
     healthy_services := healthy_services;
     health_percentage :=
       if 0 <? total_services then
         Float
           (round_ndigits
              (float_of_int healthy_services / float_of_int total_services
               * 100)%float 1)
       else Int 0 |}.

(** ** The answer *)

Record services_status := {
  mymemory : mymemory_status;
  libretranslate : libretranslate_status;
  redis : redis_status;
  mock_fallback : mock_status;
}.

Record health_results := {
  status : str;
  version : str;
  timestamp : float;
  services : services_status;
  cache_stats : CacheManager.cache_stats;
  database_connected : bool;
  uptime_seconds : float;
  total_translations : Z;
  max_text_length : Z;
  supported_methods : list str;
  summary : service_summary;
}.

(** [health_check], from the globals of the module ([start_time],
    [total_translations], [translation_service], [cache_manager]), the
    answers of the outside and the clock. No statement of the outer
    [try] raises past the handlers inside it, so that the answer always
    has a status of step 7 and a ["service_summary"]. *)
Definition health_check (start_time : float) (total_translations : Z)
    (translation_service : service) (cache_manager : MultiLevelCache)
    (env : outside) (clock : readings) : health_results :=
  let database_connected := database_check (database env) in
  let '(mymemory_status, mymemory_ok) :=
    mymemory_check translation_service env clock in
  let '(libretranslate_status, libretranslate_ok) :=
    libretranslate_check env clock in
  let '(redis_status, redis_ok) := redis_check cache_manager env clock in
  let '(mock_status, mock_checks) := mock_check translation_service in
  let service_checks :=
    [database_connected; mymemory_ok; libretranslate_ok; redis_ok]
    ++ mock_checks in
  {| status := status_of service_checks;
     version := lit "1.0.0";
     timestamp := at_timestamp clock;
     services :=
       {| mymemory := mymemory_status;
          libretranslate := libretranslate_status;
          redis := redis_status;
          mock_fallback := mock_status |};
     cache_stats :=
       get_cache_stats cache_manager (at_stats clock) (redis_info env)
         (redis_dbsize env);
     database_connected := database_connected;
     uptime_seconds := round_ndigits (at_uptime clock - start_time)%float 2;
     total_translations := total_translations;
     max_text_length := 1000;
     supported_methods := [lit "POST"];
     summary := summary_of service_checks |}.

End Health.
Arguments Replied {A} a.
Arguments Failed {A} message.
End Health.

(* ===================================================================== *)
(** * Properties of the chunker *)
(* ===================================================================== *)

Module ChunkerFacts.
Import PyStr Chunker.





(** The sentences of a text, as the chunker sees them. *)
Definition sentences_of (text : str) : list str := split_dot_space text.

(** The sentences carried by a list of fragments: each fragment is cut
    at the delimiter again, and the full stop the chunker put at the end
    of a sentence is taken off. *)
Definition drop_final_stop (s : str) : str :=
  match rev s with
  | 0x2E%N :: r => rev r
  | _ => s
  end.

Definition sentences_in (fragments : list str) : list str :=
  flat_map (fun fragment => map drop_final_stop (split_dot_space fragment))
    fragments.

Definition three_sentences : str := lit "aaaaaaaa. bbbbbbbb. cc".

(** C4, at an input of three sentences and a limit of 10: the second and
    the third sentence come out twice. The branch that starts a new
    chunk appends the new sentence to [chunks] at once and also keeps it
    as [current_chunk], which is appended again later. *)
Theorem chunk_text_duplicates_sentences :
  _chunk_text three_sentences 10
  = Returned [lit "aaaaaaaa."; lit "bbbbbbbb."; lit "bbbbbbbb.";
              lit "cc."; lit "cc."]
  /\ sentences_of three_sentences = [lit "aaaaaaaa"; lit "bbbbbbbb"; lit "cc"]
  /\ option_map sentences_in (returned (_chunk_text three_sentences 10))
     = Some [lit "aaaaaaaa"; lit "bbbbbbbb"; lit "bbbbbbbb"; lit "cc";
             lit "cc"].
Proof. repeat split; vm_compute; reflexivity. Qed.

(** The same at the default limit of 450, for three sentences of 300
    letters each. *)
Definition long_sentence (c : N) : str := repeat c 300.

Definition three_long_sentences : str :=
  long_sentence 0x61 ++ dot_space ++ long_sentence 0x62 ++ dot_space
  ++ long_sentence 0x63.

Lemma chunk_text_duplicates_at_default_limit :
  _chunk_text three_long_sentences default_max_length
  = Returned [long_sentence 0x61 ++ [0x2E%N];
              long_sentence 0x62 ++ [0x2E%N];
              long_sentence 0x62 ++ [0x2E%N];
              long_sentence 0x63 ++ [0x2E%N];
              long_sentence 0x63 ++ [0x2E%N]].
Proof. vm_compute. reflexivity. Qed.

End ChunkerFacts.

(* ===================================================================== *)
(** * Properties of the cascade *)
(* ===================================================================== *)

(** An interpreter for the examples: the numbers are integers, the texts
    outside ASCII have no upper case, and [langcodes] keeps the code it is
    given. *)
Definition example_interp : Interp :=
  {| pynumber := Z;
     number_truthy := fun x => negb (x =? 0);
     percent_of := fun x => x * 100;
     unicode_lower := fun s => s;
     langcodes_language := fun code => Returned code |}.

(** A process started with [PYTHONHASHSEED=seed]. *)
Definition process_with_seed (seed : Z) : Process :=
  {| str_hash := PyHash.str_hash (PyHash.secret_of_seed seed) |}.

Module CascadeFacts.
Import PyStr Await TranslationServices.

Section Run.
Context `{Interp} {W : Type} (srv : services W).

Lemma run_bind {A B} (p : prog A) (f : A -> prog B) (w : W) :
  run srv (p ≫= f) w = let '(a, w') := run srv p w in run srv (f a) w'.
Proof.
  unfold mbind, prog_bind. revert w.
  induction p as [a|rq k IH|rq k IH]; intros w; simpl.
  - reflexivity.
  - destruct (mymemory_server srv rq w) as [x w']. apply IH.
  - destruct (libretranslate_server srv rq w) as [x w']. apply IH.
Qed.

(** The result a provider call counts as a success: it returned, and
    what it returned is true in [if result:]. *)
Definition succeeded (o : outcome (option pydict)) : option pydict :=
  match o with
  | Returned (Some result) => if dict_truthy result then Some result else None
  | _ => None
  end.

Lemma run_try_provider call rest (w : W) :
  run srv (try_provider call rest) w
  = let '(o, w1) := run srv call w in
    match succeeded o with
    | Some result => (result, w1)
    | None => run srv rest w1
    end.
Proof.
  unfold try_provider. rewrite run_bind.
  destruct (run srv call w) as [o w1].
  destruct o as [[result|]|e]; simpl; try reflexivity.
  destruct (dict_truthy result); reflexivity.
Qed.

(** The run of the cascade, provider by provider. *)
Lemma run_translate_with (primary secondary : provider)
    (final : str -> str -> prog (outcome (option pydict)))
    (text source_language target_language : str) (w : W) :
  run srv (translate_with primary secondary final
             text source_language target_language) w
  = let '(o1, w1) :=
      run srv (primary text target_language source_language) w in
    match succeeded o1 with
    | Some result => (result, w1)
    | None =>
      let '(o2, w2) :=
        run srv (secondary text target_language source_language) w1 in
      match succeeded o2 with
      | Some result => (result, w2)
      | None =>
        let '(o3, w3) := run srv (final text target_language) w2 in
        (default (all_failed text source_language target_language)
           (succeeded o3), w3)
      end
    end.
Proof.
  unfold translate_with. rewrite run_try_provider.
  destruct (run srv (primary _ _ _) w) as [o1 w1].
  destruct (succeeded o1) as [r1|]; [reflexivity|].
  rewrite run_try_provider.
  destruct (run srv (secondary _ _ _) w1) as [o2 w2].
  destruct (succeeded o2) as [r2|]; [reflexivity|].
  rewrite run_try_provider.
  destruct (run srv (final _ _) w2) as [o3 w3].
  destruct (succeeded o3) as [r3|]; reflexivity.
Qed.

(** C1. [translate] is the cascade of MyMemory, LibreTranslate and the
    mock dictionary, in this order, and for any three providers put in
    these places: when the first succeeds, the result and the state of
    the outside world are those of its call alone; the second is run,
    from the state the first left, only when the first failed, and the
    third only when both failed. Nothing a later provider would do to
    the world happens once an earlier one has succeeded. *)
Theorem translate_returns_first_success
    (self : service) (primary secondary : provider)
    (final : str -> str -> prog (outcome (option pydict)))
    (text source_language target_language : str) (w : W) :
  translate self
  = translate_with (translate_with_mymemory self)
      (translate_with_libretranslate self) (translate_with_mock self)
  /\ forall o1 w1,
      run srv (primary text target_language source_language) w = (o1, w1) ->
      match succeeded o1 with
      | Some result =>
        run srv (translate_with primary secondary final
                   text source_language target_language) w = (result, w1)
      | None =>
        forall o2 w2,
          run srv (secondary text target_language source_language) w1
          = (o2, w2) ->
          match succeeded o2 with
          | Some result =>
            run srv (translate_with primary secondary final
                       text source_language target_language) w
            = (result, w2)
          | None =>
            forall o3 w3,
              run srv (final text target_language) w2 = (o3, w3) ->
              run srv (translate_with primary secondary final
                         text source_language target_language) w
              = (default (all_failed text source_language target_language)
                   (succeeded o3), w3)
          end
      end.
Proof.
  split; [reflexivity|].
  intros o1 w1 H1. rewrite run_translate_with, H1.
  destruct (succeeded o1) as [r1|]; [reflexivity|].
  intros o2 w2 H2. rewrite H2.
  destruct (succeeded o2) as [r2|]; [reflexivity|].
  intros o3 w3 H3. rewrite H3. reflexivity.
Qed.

(** ** The results of the three providers of the source *)

Lemma result_dict_no_error t s g n c o :
  result_dict t s g n c o !! "error" = None.
Proof. reflexivity. Qed.

Lemma result_dict_truthy t s g n c o :
  dict_truthy (result_dict t s g n c o) = true.
Proof.
  unfold dict_truthy. rewrite bool_decide_eq_false_2; [reflexivity|].
  intros E. apply (f_equal (fun d : pydict => d !! "service")) in E.
  discriminate E.
Qed.

(** What a provider of the source returns when it returns a result. *)
Definition well_formed_result (o : outcome (option pydict)) : Prop :=
  match o with
  | Returned None => True
  | Returned (Some result) =>
    dict_truthy result = true /\ result !! "error" = None
  | Raised _ => False
  end.

Lemma mymemory_well_formed self text target_language source_language w :
  well_formed_result
    (run srv (translate_with_mymemory self text target_language
                source_language) w).1.
Proof.
  unfold translate_with_mymemory. simpl.
  destruct (mymemory_server srv _ w) as [[data|e] w']; simpl; [|exact I].
  case_bool_decide; simpl; [|exact I].
  destruct (best_match _ _ data) as [[t c]|]; simpl; [|exact I].
  split; [apply result_dict_truthy | apply result_dict_no_error].
Qed.

Lemma libretranslate_well_formed self text target_language
    source_language w :
  well_formed_result
    (run srv (translate_with_libretranslate self text target_language
                source_language) w).1.
Proof.
  unfold translate_with_libretranslate.
  destruct (negb (is_supported _)); simpl; [exact I|].
  destruct (negb (is_supported _)); simpl; [exact I|].
  destruct (str_eqb _ _); simpl.
  { split; [apply result_dict_truthy | apply result_dict_no_error]. }
  destruct (libretranslate_server srv _ w) as [[data|e] w']; simpl;
    [|exact I].
  destruct (lt_translatedText data) as [translated|]; simpl; [|exact I].
  destruct (truthy (strip translated)); simpl; [|exact I].
  split; [apply result_dict_truthy | apply result_dict_no_error].
Qed.

Lemma mock_well_formed self text target_language w :
  well_formed_result
    (run srv (translate_with_mock self text target_language) w).1.
Proof.
  unfold translate_with_mock.
  destruct (negb (enable_mock_fallback self)); simpl; [exact I|].
  destruct (item (mock_translations self) _) as [entries|]; simpl;
    [|exact I].
  destruct (item entries _) as [t|]; simpl; [|exact I].
  split; [apply result_dict_truthy | apply result_dict_no_error].
Qed.

Lemma well_formed_succeeded o result :
  well_formed_result o -> succeeded o = Some result ->
  result !! "error" = None.
Proof.
  destruct o as [[d|]|e]; simpl; try discriminate.
  intros [-> Hne] [= <-]. exact Hne.
Qed.

(** Every provider of the chain fails on this input, each run from the
    state the one before it left. *)
Definition all_providers_fail (self : service)
    (text source_language target_language : str) (w : W) : Prop :=
  let '(o1, w1) :=
    run srv (translate_with_mymemory self text target_language
               source_language) w in
  let '(o2, w2) :=
    run srv (translate_with_libretranslate self text target_language
               source_language) w1 in
  let '(o3, _) :=
    run srv (translate_with_mock self text target_language) w2 in
  succeeded o1 = None /\ succeeded o2 = None /\ succeeded o3 = None.

(** C2. [translate] always returns a result (the model has no way for
    it to raise: every [except] of the source is a branch here). When
    every provider fails the result carries the input text as
    [translated_text], the service ["none"], the confidence [0] and a
    non-empty ["error"]; when some provider succeeds the result has no
    ["error"] key at all. *)
Theorem translate_error_iff_all_providers_fail
    (self : service) (text source_language target_language : str) (w : W) :
  let result :=
    (run srv (translate self text source_language target_language) w).1 in
  (all_providers_fail self text source_language target_language w ->
   dict_str result "translated_text" = Some text
   /\ dict_str result "service" = Some (lit "none")
   /\ dict_int result "confidence" = Some 0
   /\ (exists cause, dict_str result "error" = Some cause /\ cause <> []))
  /\ (~ all_providers_fail self text source_language target_language w ->
      result !! "error" = None).
Proof.
  intros result. subst result.
  pose proof (run_translate_with (translate_with_mymemory self)
                (translate_with_libretranslate self)
                (translate_with_mock self)
                text source_language target_language w) as Hcascade.
  unfold all_providers_fail, translate.
  pose proof (mymemory_well_formed self text target_language
                source_language w) as WF1.
  destruct (run srv (translate_with_mymemory _ _ _ _) w) as [o1 w1] eqn:E1.
  pose proof (libretranslate_well_formed self text target_language
                source_language w1) as WF2.
  destruct (run srv (translate_with_libretranslate _ _ _ _) w1)
    as [o2 w2] eqn:E2.
  pose proof (mock_well_formed self text target_language w2) as WF3.
  destruct (run srv (translate_with_mock _ _ _) w2) as [o3 w3] eqn:E3.
  simpl in WF1, WF2, WF3. rewrite Hcascade. clear Hcascade.
  destruct (succeeded o1) as [r1|] eqn:S1.
  { simpl. split.
    - intros (? & _); discriminate.
    - intros _. apply (well_formed_succeeded o1 r1); assumption. }
  destruct (succeeded o2) as [r2|] eqn:S2.
  { simpl. split.
    - intros (_ & ? & _); discriminate.
    - intros _. apply (well_formed_succeeded o2 r2); assumption. }
  destruct (succeeded o3) as [r3|] eqn:S3; simpl.
  { split.
    - intros (_ & _ & ?); discriminate.
    - intros _. apply (well_formed_succeeded o3 r3); assumption. }
  split.
  - intros _. repeat split.
    exists (lit "All translation services failed").
    split; [reflexivity | vm_compute; discriminate].
  - intros Hn. exfalso. apply Hn. repeat split.
Qed.

(** When every provider fails, [translate] returns the degraded result. *)
Lemma translate_all_fail_run
    (self : service) (text source_language target_language : str) (w : W) :
  all_providers_fail self text source_language target_language w ->
  (run srv (translate self text source_language target_language) w).1
  = all_failed text source_language target_language.
Proof.
  unfold all_providers_fail, translate. rewrite run_translate_with.
  destruct (run srv (translate_with_mymemory _ _ _ _) w) as [o1 w1].
  destruct (run srv (translate_with_libretranslate _ _ _ _) w1) as [o2 w2].
  destruct (run srv (translate_with_mock _ _ _) w2) as [o3 w3].
  intros (-> & -> & ->). reflexivity.
Qed.

(** ** The fallback to the mock dictionary *)

(** The entry of a phrase table for a phrase and a language. *)
Definition mock_entry (table : list (str * list (str * str)))
    (phrase language : str) : option str :=
  match item table phrase with
  | Some entries => item entries language
  | None => None
  end.

Lemma translate_with_mock_enabled self text target_language :
  enable_mock_fallback self = true ->
  translate_with_mock self text target_language
  = Ret (Returned
      (option_map
         (fun translated_text =>
            result_dict translated_text (lit "auto")
              (_normalize_language_code target_language)
              (lit "mock_indian") 60 text)
         (mock_entry (mock_translations self) (strip (lower text))
            (_normalize_language_code target_language)))).
Proof.
  intros En. unfold translate_with_mock, mock_entry. rewrite En. simpl.
  destruct (item (mock_translations self) _) as [entries|]; [|reflexivity].
  destruct (item entries _); reflexivity.
Qed.

Lemma hello_normalized : strip (lower (lit "hello")) = lit "hello".
Proof. vm_compute. reflexivity. Qed.

Lemma tamil_entry_for_hello :
  mock_entry mock_translations_literal (lit "hello") (lit "ta")
  = Some (lit "வணக்கம்").
Proof. vm_compute. reflexivity. Qed.

(** C7. With the mock fallback enabled over the dictionary of the source,
    and [langcodes] leaving the code ["ta"] as it is: when MyMemory and
    LibreTranslate both fail on ["hello"], from ["auto"] to ["ta"],
    [translate] returns the result of the mock dictionary, whose service
    is ["mock_indian"], whose confidence is 60 and whose text is the Tamil
    entry of the dictionary for ["hello"]. *)
Theorem translate_hello_to_tamil_uses_mock
    (self : service) (w : W) o1 w1 o2 w2 :
  enable_mock_fallback self = true ->
  mock_translations self = mock_translations_literal ->
  _normalize_language_code (lit "ta") = lit "ta" ->
  run srv (translate_with_mymemory self (lit "hello") (lit "ta") (lit "auto"))
    w = (o1, w1) ->
  succeeded o1 = None ->
  run srv (translate_with_libretranslate self (lit "hello") (lit "ta")
             (lit "auto")) w1 = (o2, w2) ->
  succeeded o2 = None ->
  exists result,
    run srv (translate self (lit "hello") (lit "auto") (lit "ta")) w
    = (result, w2)
    /\ dict_str result "service" = Some (lit "mock_indian")
    /\ dict_int result "confidence" = Some 60
    /\ dict_str result "translated_text"
       = mock_entry mock_translations_literal (lit "hello") (lit "ta")
    /\ dict_str result "translated_text" = Some (lit "வணக்கம்").
Proof.
  intros En Tab Norm R1 S1 R2 S2.
  unfold translate. rewrite run_translate_with, R1, S1, R2, S2.
  rewrite (translate_with_mock_enabled self _ _ En).
  rewrite Tab, Norm, hello_normalized, tamil_entry_for_hello.
  cbn [run option_map]. unfold succeeded.
  rewrite result_dict_truthy. cbn [default].
  eexists. split; [reflexivity|]. repeat split.
Qed.

End Run.
End CascadeFacts.

(** ** The cascade at concrete inputs *)

Module CascadeExamples.
Import PyStr Await TranslationServices CascadeFacts.

#[local] Existing Instance example_interp.

(** An outside world that records every request it receives and answers
    none. *)
Definition recording_services : services (list http_request) :=
  Build_services
    (fun rq log => (Raised "ConnectError", log ++ [rq]))
    (fun rq log => (Raised "ConnectError", log ++ [rq])).

Definition example_service : service :=
  {| mymemory_api_key := None;
     mymemory_base_url := lit "https://api.mymemory.translated.net";
     libretranslate_base_url := lit "https://libretranslate.de";
     request_timeout := 30;
     enable_mock_fallback := true;
     mock_translations := mock_translations_literal |}.

(** A stub that always succeeds, without any request. *)
Definition primary_stub : provider :=
  fun text target_language source_language =>
    Ret (Returned (Some
      (result_dict (lit "one") source_language target_language
         (lit "primary") 90 text))).

(** A stub that sends a request, so that its invocation shows in the
    record, and then succeeds. *)
Definition secondary_stub : provider :=
  fun text target_language source_language =>
    AwaitLibreTranslate
      {| url := lit "secondary"; fields := []; timeout := 1 |}
      (fun _ =>
         Ret (Returned (Some
           (result_dict (lit "two") source_language target_language
              (lit "secondary") 80 text)))).

Definition primary_result : pydict :=
  result_dict (lit "one") (lit "auto") (lit "ta") (lit "primary") 90
    (lit "hello").

Lemma primary_stub_run :
  run recording_services (primary_stub (lit "hello") (lit "ta") (lit "auto"))
    []
  = (Returned (Some primary_result), []).
Proof. reflexivity. Qed.

Lemma primary_stub_succeeded :
  succeeded (Returned (Some primary_result)) = Some primary_result.
Proof.
  unfold succeeded, primary_result. rewrite result_dict_truthy. reflexivity.
Qed.

Lemma translate_returns_first_success_witness :
  run recording_services
    (translate_with primary_stub secondary_stub
       (translate_with_mock example_service)
       (lit "hello") (lit "auto") (lit "ta")) []
  = (primary_result, []).
Proof.
  pose proof (proj2 (translate_returns_first_success recording_services
                       example_service primary_stub secondary_stub
                       (translate_with_mock example_service)
                       (lit "hello") (lit "auto") (lit "ta") [])
                _ _ primary_stub_run) as Hw.
  rewrite primary_stub_succeeded in Hw. exact Hw.
Defined.

Lemma all_fail_bonjour :
  all_providers_fail recording_services example_service
    (lit "bonjour") (lit "fr") (lit "en") [].
Proof.
  unfold all_providers_fail.
  replace (run recording_services
             (translate_with_mymemory example_service (lit "bonjour")
                (lit "en") (lit "fr")) [])
    with (@Returned (option pydict) None,
          [mymemory_request example_service (lit "bonjour") (lit "fr")
             (lit "en")])
    by (vm_compute; reflexivity).
  replace (run recording_services
             (translate_with_libretranslate example_service (lit "bonjour")
                (lit "en") (lit "fr")) _)
    with (@Returned (option pydict) None,
          [mymemory_request example_service (lit "bonjour") (lit "fr")
             (lit "en");
           libretranslate_request example_service (lit "bonjour")
             (lit "fr") (lit "en")])
    by (vm_compute; reflexivity).
  replace (run recording_services
             (translate_with_mock example_service (lit "bonjour")
                (lit "en")) _)
    with (@Returned (option pydict) None,
          [mymemory_request example_service (lit "bonjour") (lit "fr")
             (lit "en");
           libretranslate_request example_service (lit "bonjour")
             (lit "fr") (lit "en")])
    by (vm_compute; reflexivity).
  repeat split.
Qed.

Lemma mock_succeeds_hello :
  forall w,
    (run recording_services
       (translate_with_mock example_service (lit "hello") (lit "ta")) w).1
    = Returned (Some (result_dict (lit "வணக்கம்") (lit "auto") (lit "ta")
                        (lit "mock_indian") 60 (lit "hello"))).
Proof.
  intros w.
  rewrite (translate_with_mock_enabled example_service _ _ eq_refl).
  assert (E : mock_entry (mock_translations example_service)
                 (strip (lower (lit "hello")))
                 (_normalize_language_code (lit "ta"))
               = Some (lit "வணக்கம்")) by (vm_compute; reflexivity).
  rewrite E. reflexivity.
Qed.

Lemma not_all_fail_hello :
  ~ all_providers_fail recording_services example_service
      (lit "hello") (lit "auto") (lit "ta") [].
Proof.
  unfold all_providers_fail.
  destruct (run recording_services (translate_with_mymemory _ _ _ _) [])
    as [o1 w1].
  destruct (run recording_services
              (translate_with_libretranslate _ _ _ _) w1) as [o2 w2].
  pose proof (mock_succeeds_hello w2) as Hm.
  destruct (run recording_services (translate_with_mock _ _ _) w2)
    as [o3 w3].
  simpl in Hm. subst o3.
  intros (_ & _ & Hs).
  unfold succeeded in Hs. rewrite result_dict_truthy in Hs. discriminate Hs.
Qed.

Lemma translate_error_iff_all_providers_fail_witness :
  all_providers_fail recording_services example_service
    (lit "bonjour") (lit "fr") (lit "en") []
  /\ (exists cause,
        dict_str
          (run recording_services
             (translate example_service (lit "bonjour") (lit "fr")
                (lit "en")) []).1 "error" = Some cause
        /\ cause <> [])
  /\ ~ all_providers_fail recording_services example_service
         (lit "hello") (lit "auto") (lit "ta") []
  /\ (run recording_services
        (translate example_service (lit "hello") (lit "auto") (lit "ta"))
        []).1 !! "error" = None.
Proof.
  split; [exact all_fail_bonjour|].
  split.
  - exact (proj2 (proj2 (proj2
             (proj1 (translate_error_iff_all_providers_fail
                       recording_services example_service
                       (lit "bonjour") (lit "fr") (lit "en") [])
                all_fail_bonjour)))).
  - split; [exact not_all_fail_hello|].
    exact (proj2 (translate_error_iff_all_providers_fail
                    recording_services example_service
                    (lit "hello") (lit "auto") (lit "ta") [])
             not_all_fail_hello).
Defined.

Lemma mymemory_fails_hello :
  run recording_services
    (translate_with_mymemory example_service (lit "hello") (lit "ta")
       (lit "auto")) []
  = (Returned None,
     [mymemory_request example_service (lit "hello") (lit "auto") (lit "ta")]).
Proof. vm_compute. reflexivity. Qed.

Lemma libretranslate_fails_hello :
  forall w,
    run recording_services
      (translate_with_libretranslate example_service (lit "hello") (lit "ta")
         (lit "auto")) w
    = (Returned None, w).
Proof. intros w. vm_compute. reflexivity. Qed.

Lemma translate_hello_to_tamil_uses_mock_witness :
  exists result,
    run recording_services
      (translate example_service (lit "hello") (lit "auto") (lit "ta")) []
    = (result,
       [mymemory_request example_service (lit "hello") (lit "auto")
          (lit "ta")])
    /\ dict_str result "service" = Some (lit "mock_indian")
    /\ dict_int result "confidence" = Some 60
    /\ dict_str result "translated_text"
       = mock_entry mock_translations_literal (lit "hello") (lit "ta")
    /\ dict_str result "translated_text" = Some (lit "வணக்கம்").
Proof.
  exact (translate_hello_to_tamil_uses_mock recording_services
           example_service [] _ _ _ _
           eq_refl eq_refl eq_refl
           mymemory_fails_hello eq_refl
           (libretranslate_fails_hello _) eq_refl).
Defined.

End CascadeExamples.

(* ===================================================================== *)
(** * Properties of the cache *)
(* ===================================================================== *)

Module TTLCacheFacts.
Import TTLCache.
Section TTLCacheFacts.
Context {V : Type}.
Implicit Types (c : TTLCache.t V) (ls : list (TTLCache.link V)) (k : str).

Lemma find_link_app ls1 ls2 k :
  find_link (ls1 ++ ls2) k
  = match find_link ls1 k with
    | Some l => Some l
    | None => find_link ls2 k
    end.
Proof.
  unfold find_link. induction ls1 as [|l ls1 IH]; simpl; [reflexivity|].
  destruct (bool_decide (key l = k)); [reflexivity | exact IH].
Qed.

Lemma find_link_without ls k : find_link (without k ls) k = None.
Proof.
  unfold find_link, without. induction ls as [|l ls IH]; simpl; [reflexivity|].
  destruct (bool_decide (key l = k)) eqn:E; simpl; [exact IH|].
  rewrite E. exact IH.
Qed.

Lemma find_link_key ls k l : find_link ls k = Some l -> key l = k.
Proof.
  unfold find_link. intros Hf. apply find_some in Hf as [_ Hk].
  apply bool_decide_eq_true in Hk. exact Hk.
Qed.

Lemma find_link_in ls k l : find_link ls k = Some l -> In l ls.
Proof.
  unfold find_link. intros Hf. apply find_some in Hf as [Hin _]. exact Hin.
Qed.

(** A cache that holds a live link is true. *)
Lemma truthy_of_live_link time c k l :
  find_link (links c) k = Some l -> live time l = true ->
  truthy time c = true.
Proof.
  intros Hf Hl. apply find_link_in in Hf.
  unfold truthy, len, expire. simpl.
  assert (Hin : In l (List.filter (live time) (links c)))
    by (apply filter_In; split; assumption).
  destruct (List.filter (live time) (links c)) as [|l' ls']; [destruct Hin|].
  reflexivity.
Qed.

(** A new cache is false, whatever its bounds. *)
Lemma new_falsy time maxsize ttl :
  truthy time (new maxsize ttl : TTLCache.t V) = false.
Proof. reflexivity. Qed.

End TTLCacheFacts.
End TTLCacheFacts.

Module CacheFacts.
Import PyStr CacheManager TTLCacheFacts.

Section CacheFacts.
Context `{Interp} `{Process}.

(** ** The key *)

(** Within one process the key is a function of the text after
    [lower().strip()] and of the language after [lower()]. *)
Lemma cache_key_of_normal_form (t1 t2 l1 l2 : str) :
  strip (lower t1) = strip (lower t2) -> lower l1 = lower l2 ->
  _generate_cache_key t1 l1 = _generate_cache_key t2 l2.
Proof. unfold _generate_cache_key. intros -> ->. reflexivity. Qed.

(** Two texts that differ by the case of their letters and by the white
    space around them only: each is a core between two margins of white
    space, and the cores are the same letter by letter once in lower
    case. *)
Definition blank (s : str) : Prop := forallb isspace s = true.

Definition same_but_case_and_margins (t1 t2 : str) : Prop :=
  exists left1 core1 right1 left2 core2 right2,
    t1 = left1 ++ core1 ++ right1
    /\ t2 = left2 ++ core2 ++ right2
    /\ blank left1 /\ blank right1 /\ blank left2 /\ blank right2
    /\ map ascii_lower core1 = map ascii_lower core2.

Lemma lstrip_blank_app (margin s : str) :
  blank margin -> lstrip (margin ++ s) = lstrip s.
Proof.
  unfold blank. induction margin as [|c margin IH]; simpl; [reflexivity|].
  destruct (isspace c); [exact IH | discriminate].
Qed.

Lemma lstrip_blank (margin : str) : blank margin -> lstrip margin = [].
Proof.
  intros Hb. rewrite <- (app_nil_r margin).
  rewrite lstrip_blank_app by exact Hb.
  reflexivity.
Qed.

Lemma blank_rev (margin : str) : blank margin -> blank (rev margin).
Proof.
  unfold blank. rewrite !forallb_forall. intros Hb c Hin.
  apply Hb. apply in_rev. exact Hin.
Qed.

Lemma rstrip_app_blank (s margin : str) :
  blank margin -> rstrip (s ++ margin) = rstrip s.
Proof.
  intros Hb. unfold rstrip. rewrite rev_app_distr.
  rewrite lstrip_blank_app by (apply blank_rev; exact Hb). reflexivity.
Qed.

Lemma strip_margins (left_ core right_ : str) :
  blank left_ -> blank right_ ->
  strip (left_ ++ core ++ right_) = strip core.
Proof.
  intros Hl Hr. unfold strip. rewrite lstrip_blank_app by exact Hl.
  induction core as [|c core IH]; simpl.
  - rewrite lstrip_blank by exact Hr. reflexivity.
  - destruct (isspace c); [exact IH|].
    apply (rstrip_app_blank (c :: core)). exact Hr.
Qed.

Lemma isspace_ascii_lower c : isspace (ascii_lower c) = isspace c.
Proof.
  unfold ascii_lower.
  destruct ((0x41 <=? c)%N && (c <=? 0x5A)%N) eqn:E; [|reflexivity].
  apply andb_true_iff in E as [E1 E2].
  apply N.leb_le in E1, E2. unfold isspace.
  repeat match goal with
         | |- context [(?a <=? ?b)%N] =>
           destruct (N.leb_spec a b); try lia
         | |- context [(?a =? ?b)%N] =>
           destruct (N.eqb_spec a b); try lia
         end; reflexivity.
Qed.

Lemma blank_lower (margin : str) :
  blank margin -> blank (map ascii_lower margin).
Proof.
  unfold blank. rewrite !forallb_forall. intros Hb c Hin.
  apply in_map_iff in Hin as (c0 & <- & Hin0).
  rewrite isspace_ascii_lower. apply Hb. exact Hin0.
Qed.

Lemma lower_ascii (s : str) :
  forallb is_ascii s = true -> lower s = map ascii_lower s.
Proof. unfold lower. intros ->. reflexivity. Qed.

(** The first half of C3, within one process and for ASCII texts (on other
    texts [lower] is the interpreter's): two texts that differ by case
    and by the white space around them have the same key. *)
Lemma cache_key_same_but_case_and_margins (t1 t2 target_language : str) :
  forallb is_ascii t1 = true -> forallb is_ascii t2 = true ->
  same_but_case_and_margins t1 t2 ->
  _generate_cache_key t1 target_language
  = _generate_cache_key t2 target_language.
Proof.
  intros A1 A2 (left1 & core1 & right1 & left2 & core2 & right2
                & -> & -> & Hl1 & Hr1 & Hl2 & Hr2 & Hcore).
  apply cache_key_of_normal_form; [|reflexivity].
  rewrite (lower_ascii _ A1), (lower_ascii _ A2), !map_app.
  rewrite !strip_margins by (apply blank_lower; assumption).
  rewrite Hcore. reflexivity.
Qed.

(** ** A cache whose L1 is empty *)

Definition l1_empty (self : MultiLevelCache) : Prop :=
  match l1_cache self with
  | Some c => TTLCache.links c = []
  | None => True
  end.

Lemma l1_empty_falsy self time : l1_empty self -> l1_truthy time self = false.
Proof.
  unfold l1_empty, l1_truthy. destruct (l1_cache self) as [c|]; [|reflexivity].
  intros E. unfold TTLCache.truthy, TTLCache.len, TTLCache.expire. simpl.
  rewrite E. reflexivity.
Qed.

Lemma truthy_empty_links time (c : TTLCache.t ref) :
  TTLCache.links c = [] -> TTLCache.truthy time c = false.
Proof.
  intros E. unfold TTLCache.truthy, TTLCache.len, TTLCache.expire. simpl.
  rewrite E. reflexivity.
Qed.

Lemma init_l1_empty s t t2 e1 e2 server : l1_empty (init s t t2 e1 e2 server).
Proof. unfold l1_empty, init. simpl. destruct e1; reflexivity. Qed.

Lemma set_l2_l1_cache self time h k r :
  l1_cache (set_l2 self time h k r) = l1_cache self.
Proof.
  unfold set_l2. destruct (redis_client self) as [client|]; [|reflexivity].
  destruct (Redis.setex _ _ _ _ _); reflexivity.
Qed.

(** [set] on an empty L1 writes nothing into it and allocates nothing: the
    test [if self.l1_cache:] is false for a cache without items. *)
Lemma set_on_empty_l1 self time h text target_language translation_data :
  l1_empty self ->
  set self time h text target_language translation_data
  = (Returned tt,
     set_l2 self time h (_generate_cache_key text target_language)
       translation_data,
     h).
Proof.
  unfold l1_empty, set. destruct (l1_cache self) as [c|]; [|reflexivity].
  intros E. rewrite (truthy_empty_links time c E). reflexivity.
Qed.

Lemma get_on_empty_l1 self time h text target_language :
  l1_empty self ->
  get self time h text target_language
  = get_l2 self time h (_generate_cache_key text target_language).
Proof.
  unfold l1_empty, get. destruct (l1_cache self) as [c|]; [|reflexivity].
  intros E. rewrite (truthy_empty_links time c E). reflexivity.
Qed.

Lemma get_l2_on_empty_l1 self time h k :
  l1_empty self ->
  get_l2 self time h k
  = match redis_client self with
    | Some client =>
      match Redis.get time client k with
      | Returned (Some cached_data) =>
        (Returned (Some (length h)), self,
         dict_setitem (h ++ [cached_data]) (length h) "cache_level"
           (VStr (lit "L2")))
      | _ => (Returned None, self, h)
      end
    | None => (Returned None, self, h)
    end.
Proof.
  unfold l1_empty, get_l2. intros E.
  destruct (redis_client self) as [client|]; [|reflexivity].
  destruct (Redis.get time client k) as [[d|]|e]; try reflexivity.
  simpl. destruct (l1_cache self) as [c|]; [|reflexivity].
  rewrite (truthy_empty_links time c E). reflexivity.
Qed.

(** The L1 of a cache that starts empty stays empty under [set] and
    [get]. *)
Lemma l1_stays_empty self time h text target_language :
  l1_empty self ->
  (forall r, l1_empty (set self time h text target_language r).1.2)
  /\ l1_empty (get self time h text target_language).1.2.
Proof.
  intros E. split.
  - intros r. rewrite set_on_empty_l1 by exact E. simpl.
    unfold l1_empty. rewrite set_l2_l1_cache. exact E.
  - rewrite get_on_empty_l1, get_l2_on_empty_l1 by exact E.
    destruct (redis_client self) as [client|]; [|exact E].
    destruct (Redis.get time client _) as [[d|]|e]; exact E.
Qed.

Lemma dict_setitem_lookup_new (h : heap) (d : pydict) k v :
  dict_setitem (h ++ [d]) (length h) k v !! length h = Some (<[k := v]> d).
Proof.
  unfold dict_setitem.
  assert (E : (h ++ [d]) !! length h = Some d).
  { rewrite lookup_app_r by lia. rewrite Nat.sub_diag. reflexivity. }
  rewrite E. apply list_lookup_insert_eq. rewrite length_app. simpl. lia.
Qed.

(** C6, on the code. From [__init__] with L1 enabled, [set] followed by
    [get] of the same text and language never answers from L1: [set]
    leaves L1 as empty as it was and the heap as it was, and [get] returns
    either nothing or an entry read back from L2 and tagged ["L2"]. The
    cache created by [__init__] holds no item, a cache without items is
    false, and both writes into L1 are under [if self.l1_cache:]. *)
Theorem set_then_get_does_not_answer_from_l1
    (size ttl l2_ttl : Z) (enable_l2 : bool) (server : option Redis.t)
    (text target_language : str) (h : heap) (entry : ref) (time time' : Z) :
  let self := init size ttl l2_ttl true enable_l2 server in
  let after_set := set self time h text target_language entry in
  let after_get := get after_set.1.2 time' after_set.2 text target_language in
  after_set.1.1 = Returned tt
  /\ l1_cache after_set.1.2 = Some (TTLCache.new size ttl)
  /\ after_set.2 = h
  /\ l1_cache after_get.1.2 = Some (TTLCache.new size ttl)
  /\ (after_get.1.1 = Returned None
      \/ exists result d,
           after_get.1.1 = Returned (Some result)
           /\ after_get.2 !! result = Some d
           /\ dict_get d "cache_level" = VStr (lit "L2")).
Proof.
  intros self after_set after_get.
  assert (E0 : l1_empty self) by apply init_l1_empty.
  assert (Eset : after_set
                 = (Returned tt,
                    set_l2 self time h
                      (_generate_cache_key text target_language) entry, h))
    by (apply set_on_empty_l1; exact E0).
  assert (L1 : l1_cache after_set.1.2 = Some (TTLCache.new size ttl)).
  { rewrite Eset. simpl. rewrite set_l2_l1_cache. reflexivity. }
  assert (E1 : l1_empty after_set.1.2).
  { unfold l1_empty. rewrite L1. reflexivity. }
  split; [rewrite Eset; reflexivity|].
  split; [exact L1|].
  split; [rewrite Eset; reflexivity|].
  subst after_get.
  rewrite get_on_empty_l1, get_l2_on_empty_l1 by exact E1.
  destruct (redis_client after_set.1.2) as [client|];
    [|split; [exact L1|]; left; reflexivity].
  destruct (Redis.get time' client _) as [[d|]|e];
    (split; [exact L1|]); try (left; reflexivity).
  right. exists (length after_set.2), (<["cache_level" := VStr (lit "L2")]> d).
  simpl. split; [reflexivity|]. split.
  - apply dict_setitem_lookup_new.
  - unfold dict_get. rewrite lookup_insert_eq. reflexivity.
Qed.

(** ** Writing into an object *)

Lemma dict_setitem_lookup_other (h : heap) r r' k v :
  r' <> r -> dict_setitem h r k v !! r' = h !! r'.
Proof.
  intros Hne. unfold dict_setitem. destruct (h !! r); [|reflexivity].
  apply list_lookup_insert_ne. congruence.
Qed.

Lemma dict_setitem_lookup (h : heap) r k v d :
  h !! r = Some d -> dict_setitem h r k v !! r = Some (<[k := v]> d).
Proof.
  intros E. unfold dict_setitem. rewrite E.
  apply list_lookup_insert_eq. apply lookup_lt_Some in E. exact E.
Qed.

End CacheFacts.
End CacheFacts.

(** ** The cache at concrete inputs *)

Module CacheExamples.
Import PyStr TranslationServices CacheManager CacheFacts.

#[local] Existing Instance example_interp.

(** The key of the same text and language in two processes, one started
    with [PYTHONHASHSEED=1] and one with [PYTHONHASHSEED=2]. *)
Definition key_in_process (seed : Z) : str :=
  @_generate_cache_key example_interp (process_with_seed seed)
    (lit "hello") (lit "ta").

(** C3, on the code: two processes give two different keys to the same
    text and language, because the builtin [hash] of a [str] is keyed by
    the secret of the process. *)
Theorem cache_key_differs_between_processes :
  key_in_process 1 = lit "translation:-1712148659304476210:ta"
  /\ key_in_process 2 = lit "translation:-2276782357261739453:ta"
  /\ key_in_process 1 <> key_in_process 2.
Proof.
  assert (E1 : key_in_process 1 = lit "translation:-1712148659304476210:ta")
    by (vm_compute; reflexivity).
  assert (E2 : key_in_process 2 = lit "translation:-2276782357261739453:ta")
    by (vm_compute; reflexivity).
  split; [exact E1|]. split; [exact E2|].
  rewrite E1, E2. vm_compute. discriminate.
Qed.

#[local] Instance example_process : Process := process_with_seed 0.

(** The entry, as the batch endpoint hands it to [set]. *)
Definition hello_entry : pydict :=
  <["cache_level" := VStr (lit "fresh")]>
    (result_dict (lit "வணக்கம்") (lit "auto") (lit "ta") (lit "mock_indian")
       60 (lit "hello")).

Definition warm_heap : heap := [hello_entry].

(** C6 at a concrete input: a cache as [__init__] builds it with the
    defaults and no [REDIS_URL]; the entry written by [set] is not there
    for [get]. *)
Definition new_cache : MultiLevelCache := init 1000 300 3600 true true None.

Lemma set_then_get_misses :
  let after_set := set new_cache 0 warm_heap (lit "hello") (lit "ta") 0%nat in
  after_set = (Returned tt, new_cache, warm_heap)
  /\ (get after_set.1.2 1 after_set.2 (lit "hello") (lit "ta")).1.1
     = Returned None.
Proof.
  split; [reflexivity | vm_compute; reflexivity].
Qed.

End CacheExamples.

(* ===================================================================== *)
(** * Properties of the batch *)
(* ===================================================================== *)

Module BatchFacts.
Import PyStr Await Asyncio TranslationServices CascadeFacts.

Section BatchFacts.
Context `{Interp} {W : Type} (srv : services W).

(** [answers p a]: the program [p] returns [a] when each of its calls
    receives an answer that the services give to that call in some state
    of the outside world. *)
Inductive answers {A : Type} : prog A -> A -> Prop :=
| answers_ret a : answers (Ret a) a
| answers_mymemory rq k w x w' a :
    mymemory_server srv rq w = (x, w') ->
    answers (k x) a -> answers (AwaitMyMemory rq k) a
| answers_libretranslate rq k w x w' a :
    libretranslate_server srv rq w = (x, w') ->
    answers (k x) a -> answers (AwaitLibreTranslate rq k) a.

Lemma answers_run {A} (p : prog A) (w : W) : answers p (run srv p w).1.
Proof.
  revert w. induction p as [a|rq k IH|rq k IH]; intros w; simpl.
  - constructor.
  - destruct (mymemory_server srv rq w) as [x w'] eqn:E.
    eapply answers_mymemory; [exact E | apply IH].
  - destruct (libretranslate_server srv rq w) as [x w'] eqn:E.
    eapply answers_libretranslate; [exact E | apply IH].
Qed.

Lemma answers_bind {A B} (p : prog A) (f : A -> prog B) (b : B) :
  answers (p ≫= f) b -> exists a, answers p a /\ answers (f a) b.
Proof.
  unfold mbind, prog_bind.
  induction p as [a|rq k IH|rq k IH]; simpl; intros Hb.
  - exists a. split; [constructor | exact Hb].
  - inversion Hb as [|rq' k' w x w' b' Hs Hk|]; subst.
    destruct (IH x Hk) as (a & Ha & Hf).
    exists a. split; [eapply answers_mymemory; eassumption | exact Hf].
  - inversion Hb as [| |rq' k' w x w' b' Hs Hk]; subst.
    destruct (IH x Hk) as (a & Ha & Hf).
    exists a. split; [eapply answers_libretranslate; eassumption | exact Hf].
Qed.

(** ** The tasks of a batch, under any schedule *)

Section Tasks.
Context {A : Type}.

(** A task that stands for the program [p0]: whatever it will return is
    an answer of [p0]. *)
Definition task_of (p0 : prog A) (t : task A) : Prop :=
  match t with
  | Waiting p | Running p => forall a, answers p a -> answers p0 a
  | Done a => answers p0 a
  end.

Lemma Forall2_task_insert (ps : list (prog A)) (ts : list (task A)) i t t' :
  Forall2 task_of ps ts ->
  ts !! i = Some t ->
  (forall p0, task_of p0 t -> task_of p0 t') ->
  Forall2 task_of ps (<[i := t']> ts).
Proof.
  intros HF. revert i. induction HF as [|p0 t0 ps ts Hp HF IH]; intros i.
  - discriminate.
  - destruct i as [|i]; simpl.
    + intros [= ->] Himp. constructor; [apply Himp; exact Hp | exact HF].
    + intros Hi Himp. constructor; [exact Hp | apply IH; assumption].
Qed.

Lemma step_task_of (ps : list (prog A)) (l : loop A W) i :
  Forall2 task_of ps (tasks l) -> Forall2 task_of ps (tasks (step srv i l)).
Proof.
  intros HF. unfold step.
  destruct (tasks l !! i) as [t|] eqn:Ei; [|exact HF].
  destruct t as [p|p|a]; [| |exact HF].
  - destruct (0 <? permits l); [|exact HF]. simpl.
    eapply Forall2_task_insert; [exact HF | exact Ei |].
    intros p0 Hp. exact Hp.
  - destruct p as [a|rq k|rq k]; simpl.
    + eapply Forall2_task_insert; [exact HF | exact Ei |].
      intros p0 Hp. simpl in *. apply Hp. constructor.
    + destruct (mymemory_server srv rq (world l)) as [x w] eqn:Es. simpl.
      eapply Forall2_task_insert; [exact HF | exact Ei |].
      intros p0 Hp a Ha. simpl in *. apply Hp.
      eapply answers_mymemory; eassumption.
    + destruct (libretranslate_server srv rq (world l)) as [x w] eqn:Es. simpl.
      eapply Forall2_task_insert; [exact HF | exact Ei |].
      intros p0 Hp a Ha. simpl in *. apply Hp.
      eapply answers_libretranslate; eassumption.
Qed.

Lemma run_schedule_task_of (ps : list (prog A)) schedule (l : loop A W) :
  Forall2 task_of ps (tasks l) ->
  Forall2 task_of ps (tasks (run_schedule srv schedule l)).
Proof.
  unfold run_schedule. revert l.
  induction schedule as [|i schedule IH]; intros l HF; simpl; [exact HF|].
  apply IH, step_task_of, HF.
Qed.

Lemma gathered_answers (ps : list (prog A)) (ts : list (task A)) rs :
  Forall2 task_of ps ts -> gathered ts = Some rs -> Forall2 answers ps rs.
Proof.
  intros HF. revert rs. induction HF as [|p0 t ps ts Hp HF IH]; intros rs.
  - intros [= <-]. constructor.
  - simpl. destruct t as [p|p|a]; try discriminate.
    destruct (gathered ts) as [rs'|]; [|discriminate].
    intros [= <-]. constructor; [exact Hp | apply IH; reflexivity].
Qed.

(** ** One task run to its end *)

(** The number of calls [p] awaits when it runs alone from [w]. *)
Fixpoint awaits (p : prog A) (w : W) : nat :=
  match p with
  | Ret _ => O
  | AwaitMyMemory rq k =>
    let '(x, w') := mymemory_server srv rq w in S (awaits (k x) w')
  | AwaitLibreTranslate rq k =>
    let '(x, w') := libretranslate_server srv rq w in S (awaits (k x) w')
  end.

Lemma insert_middle (before after : list (task A)) t t' :
  <[length before := t']> (before ++ t :: after) = before ++ t' :: after.
Proof.
  rewrite (insert_app_r_alt before) by lia.
  rewrite Nat.sub_diag. reflexivity.
Qed.

Lemma step_waiting before after (p : prog A) (n : Z) (w : W) :
  0 < n ->
  step srv (length before)
    {| tasks := before ++ Waiting p :: after; permits := n; world := w |}
  = {| tasks := before ++ Running p :: after; permits := n - 1; world := w |}.
Proof.
  intros Hn. unfold step. cbn [tasks permits world].
  rewrite (list_lookup_middle before after (Waiting p) (length before)
             eq_refl).
  destruct (Z.ltb_spec 0 n) as [_|?]; [|lia].
  rewrite insert_middle. reflexivity.
Qed.

Lemma step_returning before after (a : A) (n : Z) (w : W) :
  step srv (length before)
    {| tasks := before ++ Running (Ret a) :: after; permits := n;
       world := w |}
  = {| tasks := before ++ Done a :: after; permits := n + 1; world := w |}.
Proof.
  unfold step. cbn [tasks permits world].
  rewrite (list_lookup_middle before after (Running (Ret a)) (length before)
             eq_refl).
  rewrite insert_middle. reflexivity.
Qed.

Lemma step_mymemory before after rq (k : _ -> prog A) (n : Z) (w w' : W) x :
  mymemory_server srv rq w = (x, w') ->
  step srv (length before)
    {| tasks := before ++ Running (AwaitMyMemory rq k) :: after;
       permits := n; world := w |}
  = {| tasks := before ++ Running (k x) :: after; permits := n;
       world := w' |}.
Proof.
  intros Es. unfold step. cbn [tasks permits world].
  rewrite (list_lookup_middle before after (Running (AwaitMyMemory rq k))
             (length before) eq_refl).
  rewrite Es, insert_middle. reflexivity.
Qed.

Lemma step_libretranslate before after rq (k : _ -> prog A) (n : Z)
    (w w' : W) x :
  libretranslate_server srv rq w = (x, w') ->
  step srv (length before)
    {| tasks := before ++ Running (AwaitLibreTranslate rq k) :: after;
       permits := n; world := w |}
  = {| tasks := before ++ Running (k x) :: after; permits := n;
       world := w' |}.
Proof.
  intros Es. unfold step. cbn [tasks permits world].
  rewrite (list_lookup_middle before after
             (Running (AwaitLibreTranslate rq k)) (length before) eq_refl).
  rewrite Es, insert_middle. reflexivity.
Qed.

Lemma run_schedule_cons i schedule (l : loop A W) :
  run_schedule srv (i :: schedule) l = run_schedule srv schedule (step srv i l).
Proof. reflexivity. Qed.

Lemma run_running_task (p : prog A) :
  forall (w : W) (before after : list (task A)) (n : Z),
    run_schedule srv (repeat (length before) (S (awaits p w)))
      {| tasks := before ++ Running p :: after; permits := n; world := w |}
    = {| tasks := before ++ Done (run srv p w).1 :: after;
         permits := n + 1;
         world := (run srv p w).2 |}.
Proof.
  induction p as [a|rq k IH|rq k IH]; intros w before after n.
  - cbn [awaits run repeat]. rewrite run_schedule_cons, step_returning.
    reflexivity.
  - cbn [awaits run]. destruct (mymemory_server srv rq w) as [x w'] eqn:Es.
    change (repeat (length before) (S (S (awaits (k x) w'))))
      with (length before :: repeat (length before) (S (awaits (k x) w'))).
    rewrite run_schedule_cons, (step_mymemory _ _ _ _ _ _ _ _ Es).
    apply IH.
  - cbn [awaits run].
    destruct (libretranslate_server srv rq w) as [x w'] eqn:Es.
    change (repeat (length before) (S (S (awaits (k x) w'))))
      with (length before :: repeat (length before) (S (awaits (k x) w'))).
    rewrite run_schedule_cons, (step_libretranslate _ _ _ _ _ _ _ _ Es).
    apply IH.
Qed.

Lemma run_waiting_task (p : prog A) (w : W) (before after : list (task A))
    (n : Z) :
  0 < n ->
  run_schedule srv (repeat (length before) (S (S (awaits p w))))
    {| tasks := before ++ Waiting p :: after; permits := n; world := w |}
  = {| tasks := before ++ Done (run srv p w).1 :: after;
       permits := n;
       world := (run srv p w).2 |}.
Proof.
  intros Hn.
  change (repeat (length before) (S (S (awaits p w))))
    with (length before :: repeat (length before) (S (awaits p w))).
  rewrite run_schedule_cons, step_waiting by exact Hn.
  rewrite run_running_task. f_equal. lia.
Qed.

Lemma gathered_done (before : list (task A)) (rs : list A) :
  gathered before = Some rs ->
  forall rs', gathered (before ++ map Done rs') = Some (rs ++ rs').
Proof.
  revert rs. induction before as [|t before IH]; intros rs.
  - intros [= <-] rs'. simpl. induction rs' as [|r rs' IH']; simpl;
      [reflexivity | rewrite IH'; reflexivity].
  - simpl. destruct t as [p|p|a]; try discriminate.
    destruct (gathered before) as [rs0|]; [|discriminate].
    intros [= <-] rs'. rewrite (IH rs0 eq_refl rs'). reflexivity.
Qed.

(** ** No schedule leads to a dead end *)

Definition running (t : task A) : bool :=
  match t with Running _ => true | _ => false end.

(** The tasks inside the semaphore. *)
Definition count_running (ts : list (task A)) : nat :=
  length (List.filter running ts).

Definition one_if (b : bool) : Z := if b then 1 else 0.

Lemma count_running_cons t ts :
  Z.of_nat (count_running (t :: ts))
  = one_if (running t) + Z.of_nat (count_running ts).
Proof.
  unfold count_running. simpl. destruct (running t); simpl; lia.
Qed.

Lemma count_running_insert (ts : list (task A)) i t t' :
  ts !! i = Some t ->
  Z.of_nat (count_running (<[i := t']> ts))
  = Z.of_nat (count_running ts) - one_if (running t) + one_if (running t').
Proof.
  revert i. induction ts as [|t0 ts IH]; intros i Hi; [discriminate|].
  destruct i as [|i]; simpl in Hi.
  - injection Hi as ->. simpl insert. rewrite !count_running_cons. lia.
  - simpl insert. rewrite !count_running_cons, (IH i Hi). lia.
Qed.

(** The permits that are free and the tasks inside the semaphore always
    add up to the same number. *)
Lemma step_permits i (l : loop A W) :
  permits (step srv i l) + Z.of_nat (count_running (tasks (step srv i l)))
  = permits l + Z.of_nat (count_running (tasks l)).
Proof.
  unfold step. destruct (tasks l !! i) as [t|] eqn:Ei; [|reflexivity].
  destruct t as [p|p|a]; [| |reflexivity].
  - destruct (0 <? permits l); [|reflexivity]. simpl.
    rewrite (count_running_insert _ _ _ _ Ei). simpl. lia.
  - destruct p as [a|rq k|rq k]; simpl.
    + rewrite (count_running_insert _ _ _ _ Ei). simpl. lia.
    + destruct (mymemory_server srv rq (world l)) as [x w]. simpl.
      rewrite (count_running_insert _ _ _ _ Ei). simpl. lia.
    + destruct (libretranslate_server srv rq (world l)) as [x w]. simpl.
      rewrite (count_running_insert _ _ _ _ Ei). simpl. lia.
Qed.

Lemma run_schedule_permits schedule (l : loop A W) :
  permits (run_schedule srv schedule l)
  + Z.of_nat (count_running (tasks (run_schedule srv schedule l)))
  = permits l + Z.of_nat (count_running (tasks l)).
Proof.
  unfold run_schedule. revert l.
  induction schedule as [|i schedule IH]; intros l; simpl; [reflexivity|].
  rewrite IH. apply step_permits.
Qed.

Lemma run_schedule_app schedule1 schedule2 (l : loop A W) :
  run_schedule srv (schedule1 ++ schedule2) l
  = run_schedule srv schedule2 (run_schedule srv schedule1 l).
Proof. apply fold_left_app. Qed.

(** First the tasks inside the semaphore are brought to their end... *)
Lemma finish_running (after : list (task A)) :
  forall (before : list (task A)) (n : Z) (w : W),
  exists schedule after' w',
    run_schedule srv schedule
      {| tasks := before ++ after; permits := n; world := w |}
    = {| tasks := before ++ after';
         permits := n + Z.of_nat (count_running after);
         world := w' |}
    /\ count_running after' = O.
Proof.
  induction after as [|t after IH]; intros before n w.
  - exists [], [], w. simpl. rewrite Z.add_0_r. split; reflexivity.
  - destruct t as [p|p|a].
    + destruct (IH (before ++ [Waiting p]) n w)
        as (schedule & after' & w' & Hrun & Hcount).
      rewrite <- !app_assoc in Hrun. simpl in Hrun.
      exists schedule, (Waiting p :: after'), w'.
      rewrite count_running_cons. simpl one_if.
      split; [exact Hrun | exact Hcount].
    + destruct (IH (before ++ [Done (run srv p w).1]) (n + 1)
                  (run srv p w).2)
        as (schedule & after' & w' & Hrun & Hcount).
      rewrite <- !app_assoc in Hrun. simpl in Hrun.
      exists (repeat (length before) (S (awaits p w)) ++ schedule),
        (Done (run srv p w).1 :: after'), w'.
      rewrite run_schedule_app, run_running_task, Hrun.
      rewrite count_running_cons. simpl one_if.
      split; [f_equal; lia | exact Hcount].
    + destruct (IH (before ++ [Done a]) n w)
        as (schedule & after' & w' & Hrun & Hcount).
      rewrite <- !app_assoc in Hrun. simpl in Hrun.
      exists schedule, (Done a :: after'), w'.
      rewrite count_running_cons. simpl one_if.
      split; [exact Hrun | exact Hcount].
Qed.

(** ... then, with a permit free, the waiting ones, one after the other. *)
Lemma finish_waiting (after : list (task A)) :
  forall (before : list (task A)) (n : Z) (w : W),
    0 < n -> count_running after = O ->
    exists schedule results w',
      run_schedule srv schedule
        {| tasks := before ++ after; permits := n; world := w |}
      = {| tasks := before ++ map Done results; permits := n; world := w' |}.
Proof.
  induction after as [|t after IH]; intros before n w Hn Hcount.
  - exists [], [], w. reflexivity.
  - assert (Hrest : count_running after = O).
    { pose proof (count_running_cons t after) as Hc.
      rewrite Hcount in Hc. destruct (running t); simpl in Hc; lia. }
    destruct t as [p|p|a].
    + destruct (IH (before ++ [Done (run srv p w).1]) n (run srv p w).2
                  Hn Hrest)
        as (schedule & results & w' & Hrun).
      rewrite <- !app_assoc in Hrun. simpl in Hrun.
      exists (repeat (length before) (S (S (awaits p w))) ++ schedule),
        ((run srv p w).1 :: results), w'.
      rewrite run_schedule_app, run_waiting_task by exact Hn.
      exact Hrun.
    + pose proof (count_running_cons (Running p) after) as Hc.
      rewrite Hcount in Hc. simpl in Hc. lia.
    + destruct (IH (before ++ [Done a]) n w Hn Hrest)
        as (schedule & results & w' & Hrun).
      rewrite <- !app_assoc in Hrun. simpl in Hrun.
      exists schedule, (a :: results), w'. exact Hrun.
Qed.

Lemma gathered_map_Done (results : list A) :
  gathered (map Done results) = Some results.
Proof. apply (gathered_done [] [] eq_refl). Qed.

(** A loop in which a permit is free or some task holds one can be
    brought to the end of all its tasks. *)
Lemma can_finish (l : loop A W) :
  0 < permits l + Z.of_nat (count_running (tasks l)) ->
  exists schedule results,
    gathered (tasks (run_schedule srv schedule l)) = Some results.
Proof.
  destruct l as [ts n w]. simpl. intros Hn.
  destruct (finish_running ts [] n w)
    as (schedule1 & ts1 & w1 & Hrun1 & Hcount1).
  simpl in Hrun1.
  destruct (finish_waiting ts1 [] (n + Z.of_nat (count_running ts)) w1
              Hn Hcount1)
    as (schedule2 & results & w2 & Hrun2).
  simpl in Hrun2.
  exists (schedule1 ++ schedule2), results.
  rewrite run_schedule_app, Hrun1, Hrun2. simpl.
  apply gathered_map_Done.
Qed.

Lemma count_running_waiting (ps : list (prog A)) :
  count_running (map Waiting ps) = O.
Proof. induction ps as [|p ps IH]; [reflexivity | exact IH]. Qed.

End Tasks.

(** ** The results of [translate] are about the text it was given *)

Definition about (text : str) (o : outcome (option pydict)) : Prop :=
  match o with
  | Returned (Some result) => dict_str result "original_text" = Some text
  | _ => True
  end.

Lemma answers_ret_inv {A} (a b : A) : answers (Ret a) b -> b = a.
Proof. intros Hb. inversion Hb. reflexivity. Qed.

Lemma mymemory_about self text target_language source_language o :
  answers (translate_with_mymemory self text target_language source_language)
    o ->
  about text o.
Proof.
  unfold translate_with_mymemory. intros Ho.
  inversion Ho as [|rq k w x w' o' Hs Hk|]; subst. clear Ho.
  destruct x as [data|e]; [|apply answers_ret_inv in Hk; subst; exact I].
  destruct (bool_decide _);
    [|apply answers_ret_inv in Hk; subst; exact I].
  destruct (best_match _ _ data) as [[t c]|];
    apply answers_ret_inv in Hk; subst; [reflexivity | exact I].
Qed.

Lemma libretranslate_about self text target_language source_language o :
  answers
    (translate_with_libretranslate self text target_language source_language)
    o ->
  about text o.
Proof.
  unfold translate_with_libretranslate.
  destruct (negb (is_supported _));
    [intros Ho; apply answers_ret_inv in Ho; subst; exact I|].
  destruct (negb (is_supported _));
    [intros Ho; apply answers_ret_inv in Ho; subst; exact I|].
  destruct (str_eqb _ _);
    [intros Ho; apply answers_ret_inv in Ho; subst; reflexivity|].
  intros Ho. inversion Ho as [| |rq k w x w' o' Hs Hk]; subst. clear Ho.
  destruct x as [data|e]; [|apply answers_ret_inv in Hk; subst; exact I].
  destruct (lt_translatedText data) as [translated|];
    [|apply answers_ret_inv in Hk; subst; exact I].
  destruct (truthy (strip translated));
    apply answers_ret_inv in Hk; subst; [reflexivity | exact I].
Qed.

Lemma mock_about self text target_language o :
  answers (translate_with_mock self text target_language) o -> about text o.
Proof.
  unfold translate_with_mock.
  destruct (negb (enable_mock_fallback self));
    [intros Ho; apply answers_ret_inv in Ho; subst; exact I|].
  destruct (item (mock_translations self) _) as [entries|];
    [|intros Ho; apply answers_ret_inv in Ho; subst; exact I].
  destruct (item entries _) as [t|];
    intros Ho; apply answers_ret_inv in Ho; subst; [reflexivity | exact I].
Qed.

Lemma try_provider_about text call rest result :
  (forall o, answers call o -> about text o) ->
  (forall r, answers rest r -> dict_str r "original_text" = Some text) ->
  answers (try_provider call rest) result ->
  dict_str result "original_text" = Some text.
Proof.
  intros Hcall Hrest Hr. unfold try_provider in Hr.
  apply answers_bind in Hr as (o & Ho & Hr).
  specialize (Hcall o Ho).
  destruct o as [[r|]|e]; try (apply Hrest; exact Hr).
  destruct (dict_truthy r); [|apply Hrest; exact Hr].
  apply answers_ret_inv in Hr. subst. exact Hcall.
Qed.

Lemma translate_about self text source_language target_language result :
  answers (translate self text source_language target_language) result ->
  dict_str result "original_text" = Some text.
Proof.
  unfold translate, translate_with.
  apply try_provider_about; [apply mymemory_about|].
  intros r. apply try_provider_about; [apply libretranslate_about|].
  intros r'. apply try_provider_about; [apply mock_about|].
  intros r'' Hr. apply answers_ret_inv in Hr. subst. reflexivity.
Qed.

Lemma lookup_map {A B} (f : A -> B) (l : list A) (i : nat) :
  map f l !! i = f <$> (l !! i).
Proof. apply (list_lookup_fmap f l i). Qed.

(** The loop that [translate_batch] sets up. *)
Definition batch_loop_of (self : service) (max_workers : Z)
    (texts : list str) (target_language source_language : str) (w : W)
  : loop pydict W :=
  {| tasks :=
       map (fun text =>
              Waiting (translate self text source_language target_language))
         texts;
     permits := max_workers;
     world := w |}.

(** Under every schedule, what [gather] returns is, index by index, an
    answer of [translate] for the text of that index. *)
Lemma gathered_in_order self max_workers texts target_language
    source_language w schedule results :
  gathered
    (tasks (run_schedule srv schedule
              (batch_loop_of self max_workers texts target_language
                 source_language w)))
  = Some results ->
  Forall2 answers
    (map (fun text => translate self text source_language target_language)
       texts)
    results.
Proof.
  intros Hg. eapply gathered_answers; [|exact Hg].
  apply run_schedule_task_of. simpl. clear.
  induction texts as [|text texts IH]; constructor; [|exact IH].
  intros a Ha. exact Ha.
Qed.

(** Services whose answer to a request does not depend on the state of
    the outside world. *)
Definition stateless : Prop :=
  forall rq w w',
    (mymemory_server srv rq w).1 = (mymemory_server srv rq w').1
    /\ (libretranslate_server srv rq w).1
       = (libretranslate_server srv rq w').1.

Lemma answers_stateless {A} (p : prog A) (a : A) :
  stateless -> answers p a -> forall w, a = (run srv p w).1.
Proof.
  intros Hst Ha. induction Ha as [a|rq k w0 x w0' a Hs Ha IH
                                  |rq k w0 x w0' a Hs Ha IH]; intros w.
  - reflexivity.
  - simpl. destruct (mymemory_server srv rq w) as [x' w'] eqn:E.
    destruct (Hst rq w0 w) as [Hx _]. rewrite Hs, E in Hx. simpl in Hx.
    subst x'. apply IH.
  - simpl. destruct (libretranslate_server srv rq w) as [x' w'] eqn:E.
    destruct (Hst rq w0 w) as [_ Hx]. rewrite Hs, E in Hx. simpl in Hx.
    subst x'. apply IH.
Qed.

(** With such services the batch returns, under every schedule, exactly
    the list of the results of [translate] on the texts, in their
    order. *)
Lemma gathered_stateless self max_workers texts target_language
    source_language w schedule results :
  stateless ->
  gathered
    (tasks (run_schedule srv schedule
              (batch_loop_of self max_workers texts target_language
                 source_language w)))
  = Some results ->
  results
  = map (fun text =>
           (run srv (translate self text source_language target_language)
              w).1)
      texts.
Proof.
  intros Hst Hg. apply gathered_in_order in Hg.
  revert results Hg. induction texts as [|text texts IH]; intros results HF.
  - inversion HF. reflexivity.
  - inversion HF as [|p r ps rs Ha HF']; subst. cbn [map]. f_equal.
    + apply answers_stateless; assumption.
    + apply IH. exact HF'.
Qed.

(** C8. With at least one worker, [translate_batch] sets the loop up, and
    - whatever the loop has done so far, it can go on to the end of every
      task, so that [gather] has a result to return: no schedule leads to
      a dead end;
    - under every schedule that brings every task to its end, whatever the
      order in which the tasks were resumed and finished, the list that
      [gather] returns has the length of [texts], and its element at each
      index is a result of [translate] for the text at that index: an
      answer of that program to the services, with that text as its
      ["original_text"]. *)
Theorem translate_batch_keeps_input_order
    (self : service) (max_workers : Z) (texts : list str)
    (target_language source_language : str) (w : W) :
  0 < max_workers ->
  exists l0,
    translate_batch self max_workers texts target_language source_language w
    = Returned l0
    /\ (forall schedule,
        exists rest results,
          gathered (tasks (run_schedule srv (schedule ++ rest) l0))
          = Some results)
    /\ (forall schedule results,
          gathered (tasks (run_schedule srv schedule l0)) = Some results ->
          length results = length texts
          /\ forall i text,
               texts !! i = Some text ->
               exists result,
                 results !! i = Some result
                 /\ answers
                      (translate self text source_language target_language)
                      result
                 /\ dict_str result "original_text" = Some text).
Proof.
  intros Hw. unfold translate_batch, semaphore.
  destruct (Z.ltb_spec max_workers 0) as [?|_]; [lia|].
  eexists. split; [reflexivity|].
  fold (batch_loop_of self max_workers texts target_language source_language
          w).
  split.
  - intros schedule.
    destruct (can_finish
                (run_schedule srv schedule
                   (batch_loop_of self max_workers texts target_language
                      source_language w)))
      as (rest & results & Hg).
    + rewrite run_schedule_permits. unfold batch_loop_of. simpl.
      rewrite <- (map_map
                    (fun text =>
                       translate self text source_language target_language)
                    Waiting).
      rewrite count_running_waiting. lia.
    + exists rest, results. rewrite run_schedule_app. exact Hg.
  - intros schedule results Hg.
    pose proof (gathered_in_order _ _ _ _ _ _ _ _ Hg) as HF.
    split.
    + apply Forall2_length in HF. rewrite <- HF. apply length_map.
    + intros i text Hi.
      assert (Hp : map (fun text =>
                          translate self text source_language target_language)
                     texts !! i
                   = Some (translate self text source_language
                             target_language)).
      { rewrite lookup_map, Hi. reflexivity. }
      destruct (Forall2_lookup_l _ _ _ _ _ HF Hp) as (result & Hr & Ha).
      exists result. split; [exact Hr|]. split; [exact Ha|].
      eapply translate_about. exact Ha.
Qed.

End BatchFacts.
End BatchFacts.

(* ===================================================================== *)
(** * Which objects the cache names, and which it leaves alone *)
(* ===================================================================== *)

Module FrameFacts.
Import PyStr CacheManager TTLCacheFacts CacheFacts.

Section Links.
Context {V : Type}.
Implicit Types (c : TTLCache.t V) (ls : list (TTLCache.link V)).

Definition vals ls : list V := map TTLCache.val ls.

Lemma In_drop {A} (x : A) n (l : list A) : In x (drop n l) -> In x l.
Proof.
  intros Hin. rewrite <- (take_drop n l). apply in_or_app. right. exact Hin.
Qed.

Lemma vals_filter f ls v : In v (vals (List.filter f ls)) -> In v (vals ls).
Proof.
  unfold vals. rewrite !in_map_iff. intros (l & E & Hin).
  apply filter_In in Hin as [Hin _]. eauto.
Qed.

Lemma vals_without k ls v :
  In v (vals (TTLCache.without k ls)) -> In v (vals ls).
Proof. apply vals_filter. Qed.

Lemma vals_drop n ls v : In v (vals (drop n ls)) -> In v (vals ls).
Proof.
  unfold vals. rewrite !in_map_iff. intros (l & E & Hin).
  apply In_drop in Hin. eauto.
Qed.

Lemma vals_app ls1 ls2 v :
  In v (vals (ls1 ++ ls2)) <-> In v (vals ls1) \/ In v (vals ls2).
Proof. unfold vals. rewrite map_app. apply in_app_iff. Qed.

(** After [cache[key] = value] the cache names the value and objects it
    named before. *)
Lemma setitem_vals time c k v c' r :
  TTLCache.setitem time c k v = Returned c' ->
  In r (vals (TTLCache.links c')) -> r = v \/ In r (vals (TTLCache.links c)).
Proof.
  unfold TTLCache.setitem.
  destruct (TTLCache.maxsize c <? 1); [discriminate|].
  intros [= <-]. simpl. rewrite vals_app. intros [Hin|Hin].
  - right. apply vals_without in Hin.
    destruct (TTLCache.find_link _ k).
    + apply vals_filter in Hin. exact Hin.
    + apply vals_drop, vals_filter in Hin. exact Hin.
  - left. simpl in Hin. destruct Hin as [<-|[]]. reflexivity.
Qed.

(** [cache[key]] returns an object the cache names, and names no new
    one. *)
Lemma getitem_vals time c k v c' :
  TTLCache.getitem time c k = Returned (v, c') ->
  In v (vals (TTLCache.links c))
  /\ forall r,
       In r (vals (TTLCache.links c')) -> In r (vals (TTLCache.links c)).
Proof.
  unfold TTLCache.getitem.
  destruct (TTLCache.find_link (TTLCache.links c) k) as [l|] eqn:Hf;
    [|discriminate].
  destruct (TTLCache.live time l); [|discriminate].
  intros [= <- <-]. apply find_link_in in Hf.
  assert (Hl : In (TTLCache.val l) (vals (TTLCache.links c)))
    by (apply in_map; exact Hf).
  split; [exact Hl|].
  intros r. simpl. rewrite vals_app. intros [Hin|Hin].
  - apply vals_without in Hin. exact Hin.
  - simpl in Hin. destruct Hin as [<-|[]]. exact Hl.
Qed.

End Links.

Section Frame.
Context `{Interp} `{Process}.

(** The objects that L1 names. *)
Definition l1_refs (cm : MultiLevelCache) : list ref :=
  match l1_cache cm with
  | Some c => vals (TTLCache.links c)
  | None => []
  end.

Lemma dict_setitem_length (h : heap) r k v :
  length (dict_setitem h r k v) = length h.
Proof.
  unfold dict_setitem. destruct (h !! r); [apply length_insert | reflexivity].
Qed.

Lemma set_l2_refs cm time h k r : l1_refs (set_l2 cm time h k r) = l1_refs cm.
Proof. unfold l1_refs. rewrite set_l2_l1_cache. reflexivity. Qed.

(** What one call changes: the heap grows by at most new objects, L1
    names objects it named before or new ones, and an object that was
    there and that L1 did not name is as it was. *)
Definition frames (cm : MultiLevelCache) (h : heap) (cm' : MultiLevelCache)
    (h' : heap) : Prop :=
  (length h <= length h')%nat
  /\ (forall r, In r (l1_refs cm') ->
        In r (l1_refs cm) \/ (length h <= r < length h')%nat)
  /\ (forall r, (r < length h)%nat -> ~ In r (l1_refs cm) -> h' !! r = h !! r).

Lemma frames_refl cm h : frames cm h cm h.
Proof. repeat split; auto. Qed.

Lemma get_l2_frames cm time h k o cm' h' :
  get_l2 cm time h k = (o, cm', h') -> frames cm h cm' h'.
Proof.
  unfold get_l2.
  destruct (redis_client cm) as [client|];
    [|intros [= <- <- <-]; apply frames_refl].
  destruct (Redis.get time client k) as [[d|]|e];
    try (intros [= <- <- <-]; apply frames_refl).
  unfold alloc.
  assert (Hgrow : forall r, (r < length h)%nat ->
                    dict_setitem (h ++ [d]) (length h) "cache_level"
                      (VStr (lit "L2")) !! r = h !! r).
  { intros r Hr. rewrite dict_setitem_lookup_other by lia.
    apply lookup_app_l. exact Hr. }
  assert (Hlen : length (dict_setitem (h ++ [d]) (length h) "cache_level"
                           (VStr (lit "L2"))) = S (length h)).
  { rewrite dict_setitem_length, length_app. simpl. lia. }
  destruct (l1_cache cm) as [c|] eqn:L1.
  - destruct (TTLCache.truthy time c).
    + destruct (TTLCache.setitem time c k (length h)) as [c'|e] eqn:Es.
      * intros [= <- <- <-]. split; [lia|]. split; [|auto].
        intros r. unfold l1_refs. rewrite L1. simpl. intros Hin.
        destruct (setitem_vals _ _ _ _ _ _ Es Hin) as [->|Hold];
          [right; lia | left; exact Hold].
      * intros [= <- <- <-]. split; [rewrite length_app; simpl; lia|].
        split; [auto|]. intros r Hr _. apply lookup_app_l. exact Hr.
    + intros [= <- <- <-]. split; [lia|]. split; auto.
  - intros [= <- <- <-]. split; [lia|]. split; auto.
Qed.

Lemma get_frames cm time h text target_language o cm' h' :
  get cm time h text target_language = (o, cm', h') -> frames cm h cm' h'.
Proof.
  unfold get. remember (_generate_cache_key text target_language) as k.
  destruct (l1_cache cm) as [c|] eqn:L1; [|apply get_l2_frames].
  destruct (TTLCache.truthy time c && TTLCache.contains time c k);
    [|apply get_l2_frames].
  destruct (TTLCache.getitem time c k) as [[r c']|e] eqn:Eg;
    [|intros [= <- <- <-]; apply frames_refl].
  intros [= <- <- <-].
  destruct (getitem_vals _ _ _ _ _ Eg) as [Hr Hsub].
  split; [rewrite dict_setitem_length; lia|]. split.
  - intros r'. unfold l1_refs. rewrite L1. simpl. intros Hin.
    left. apply Hsub. exact Hin.
  - intros r' Hr' Hnot. apply dict_setitem_lookup_other.
    unfold l1_refs in Hnot. rewrite L1 in Hnot. congruence.
Qed.

Lemma set_frames cm time h text target_language r o cm' h' :
  set cm time h text target_language r = (o, cm', h') -> frames cm h cm' h'.
Proof.
  unfold set. remember (_generate_cache_key text target_language) as k.
  assert (Hskip : frames cm h (set_l2 cm time h k r) h).
  { split; [lia|]. split; [|auto].
    intros r'. rewrite set_l2_refs. auto. }
  destruct (l1_cache cm) as [c|] eqn:L1;
    [|intros [= <- <- <-]; exact Hskip].
  destruct (TTLCache.truthy time c); [|intros [= <- <- <-]; exact Hskip].
  unfold dict_copy, alloc.
  destruct (TTLCache.setitem time c k (length h)) as [c'|e] eqn:Es;
    intros [= <- <- <-].
  - split; [rewrite length_app; simpl; lia|]. split.
    + intros r'. rewrite set_l2_refs. unfold l1_refs. rewrite L1. simpl.
      intros Hin. destruct (setitem_vals _ _ _ _ _ _ Es Hin) as [->|Hold];
        [right; rewrite length_app; simpl; lia | left; exact Hold].
    + intros r' Hr' _. apply lookup_app_l. exact Hr'.
  - split; [rewrite length_app; simpl; lia|]. split; [auto|].
    intros r' Hr' _. apply lookup_app_l. exact Hr'.
Qed.

(** L1 names objects of the heap only. *)
Definition no_dangling (cm : MultiLevelCache) (h : heap) : Prop :=
  forall r, In r (l1_refs cm) -> (r < length h)%nat.

(** An object of the heap that L1 does not name. *)
Definition apart (cm : MultiLevelCache) (h : heap) (r : ref) : Prop :=
  (r < length h)%nat /\ ~ In r (l1_refs cm).

Lemma frames_no_dangling cm h cm' h' :
  frames cm h cm' h' -> no_dangling cm h -> no_dangling cm' h'.
Proof.
  intros (Hlen & Hrefs & _) Hd r Hin.
  destruct (Hrefs r Hin) as [Hold|Hnew]; [|lia].
  specialize (Hd r Hold). lia.
Qed.

Lemma frames_apart cm h cm' h' r :
  frames cm h cm' h' -> apart cm h r -> apart cm' h' r /\ h' !! r = h !! r.
Proof.
  intros (Hlen & Hrefs & Hkeep) [Hr Hnot]. split; [split; [lia|]|auto].
  intros Hin. destruct (Hrefs r Hin) as [Hold|Hnew]; [auto | lia].
Qed.

Lemma frames_trans cm h cm1 h1 cm2 h2 :
  frames cm h cm1 h1 -> frames cm1 h1 cm2 h2 -> frames cm h cm2 h2.
Proof.
  intros (Hlen & Hrefs & Hkeep) (Hlen' & Hrefs' & Hkeep').
  split; [lia|]. split.
  - intros r Hin. destruct (Hrefs' r Hin) as [Hmid|Hnew]; [|right; lia].
    destruct (Hrefs r Hmid) as [Hold|Hnew]; [left; exact Hold | right; lia].
  - intros r Hr Hnot. rewrite Hkeep' ; [apply Hkeep; assumption | lia |].
    intros Hin. destruct (Hrefs r Hin) as [Hold|Hnew]; [auto | lia].
Qed.

Lemma frames_setitem cm h cm1 h1 res k v :
  frames cm h cm1 h1 ->
  In res (l1_refs cm) \/ (length h <= res)%nat ->
  frames cm h cm1 (dict_setitem h1 res k v).
Proof.
  intros (Hlen & Hrefs & Hkeep) Hres.
  split; [rewrite dict_setitem_length; exact Hlen|].
  split; [intros r Hin; rewrite dict_setitem_length; auto|].
  intros r Hr Hnot. rewrite dict_setitem_lookup_other; [auto|].
  destruct Hres as [Hin|Hge]; [congruence | lia].
Qed.

Lemma frames_alloc cm h cm1 h1 d :
  frames cm h cm1 h1 -> frames cm h cm1 (h1 ++ [d]).
Proof.
  intros (Hlen & Hrefs & Hkeep).
  split; [rewrite length_app; simpl; lia|]. split.
  - intros r Hin. rewrite length_app. simpl.
    destruct (Hrefs r Hin) as [Hold|Hnew]; [left; exact Hold | right; lia].
  - intros r Hr Hnot. rewrite lookup_app_l by lia. auto.
Qed.

(** The object [get] returns is one that L1 named or a new one. *)
Lemma get_l2_result cm time h k res cm' h' :
  get_l2 cm time h k = (Returned (Some res), cm', h') ->
  (length h <= res < length h')%nat.
Proof.
  unfold get_l2. destruct (redis_client cm) as [client|]; [|discriminate].
  destruct (Redis.get time client k) as [[d|]|e]; try discriminate.
  unfold alloc.
  assert (Hlen : length (dict_setitem (h ++ [d]) (length h) "cache_level"
                           (VStr (lit "L2"))) = S (length h)).
  { rewrite dict_setitem_length, length_app. simpl. lia. }
  destruct (l1_cache cm) as [c|].
  - destruct (TTLCache.truthy time c).
    + destruct (TTLCache.setitem time c k (length h)); [|discriminate].
      intros [= <- <- <-]. lia.
    + intros [= <- <- <-]. lia.
  - intros [= <- <- <-]. lia.
Qed.

Lemma get_result cm time h text target_language res cm' h' :
  get cm time h text target_language = (Returned (Some res), cm', h') ->
  In res (l1_refs cm) \/ (length h <= res)%nat.
Proof.
  unfold get. remember (_generate_cache_key text target_language) as k.
  assert (Hl2 : get_l2 cm time h k = (Returned (Some res), cm', h') ->
                In res (l1_refs cm) \/ (length h <= res)%nat).
  { intros Hg. apply get_l2_result in Hg. right. lia. }
  destruct (l1_cache cm) as [c|] eqn:L1; [|exact Hl2].
  destruct (TTLCache.truthy time c && TTLCache.contains time c k);
    [|exact Hl2].
  destruct (TTLCache.getitem time c k) as [[r c']|e] eqn:Eg; [|discriminate].
  intros [= <- <- <-]. left. unfold l1_refs. rewrite L1.
  exact (proj1 (getitem_vals _ _ _ _ _ Eg)).
Qed.

(** ** A cache that can hold what it holds *)

(** An L1 with items has room for at least one. *)
Definition l1_sound (cm : MultiLevelCache) : Prop :=
  match l1_cache cm with
  | Some c => TTLCache.links c <> [] -> 1 <= TTLCache.maxsize c
  | None => True
  end.

Lemma init_sound s t t2 e1 e2 server : l1_sound (init s t t2 e1 e2 server).
Proof.
  unfold l1_sound, init. simpl. destruct e1; [|exact I].
  simpl. intros Hne. destruct Hne. reflexivity.
Qed.

Lemma setitem_sound time (c c' : TTLCache.t ref) k v :
  TTLCache.setitem time c k v = Returned c' -> 1 <= TTLCache.maxsize c'.
Proof.
  unfold TTLCache.setitem.
  destruct (Z.ltb_spec (TTLCache.maxsize c) 1) as [?|Hm]; [discriminate|].
  intros [= <-]. exact Hm.
Qed.

Lemma set_l2_sound cm time h k r :
  l1_sound cm -> l1_sound (set_l2 cm time h k r).
Proof. unfold l1_sound. rewrite set_l2_l1_cache. auto. Qed.

Lemma get_l2_sound cm time h k o cm' h' :
  get_l2 cm time h k = (o, cm', h') -> l1_sound cm -> l1_sound cm'.
Proof.
  unfold get_l2. destruct (redis_client cm) as [client|];
    [|intros [= <- <- <-]; auto].
  destruct (Redis.get time client k) as [[d|]|e];
    try (intros [= <- <- <-]; auto).
  unfold alloc. destruct (l1_cache cm) as [c|] eqn:L1.
  - destruct (TTLCache.truthy time c).
    + destruct (TTLCache.setitem time c k (length h)) as [c'|e] eqn:Es;
        intros [= <- <- <-]; [|auto].
      intros _. unfold l1_sound. simpl. intros _.
      apply (setitem_sound _ _ _ _ _ Es).
    + intros [= <- <- <-]. auto.
  - intros [= <- <- <-]. auto.
Qed.

Lemma get_sound cm time h text target_language o cm' h' :
  get cm time h text target_language = (o, cm', h') ->
  l1_sound cm -> l1_sound cm'.
Proof.
  unfold get. remember (_generate_cache_key text target_language) as k.
  destruct (l1_cache cm) as [c|] eqn:L1; [|apply get_l2_sound].
  destruct (TTLCache.truthy time c && TTLCache.contains time c k);
    [|apply get_l2_sound].
  unfold TTLCache.getitem.
  destruct (TTLCache.find_link (TTLCache.links c) k) as [l|] eqn:Hf;
    [|intros [= <- <- <-]; auto].
  destruct (TTLCache.live time l); intros [= <- <- <-]; [|auto].
  unfold l1_sound. rewrite L1. simpl. intros Hs _. apply Hs.
  apply find_link_in in Hf. intros E. rewrite E in Hf. destruct Hf.
Qed.

Lemma set_sound cm time h text target_language r o cm' h' :
  set cm time h text target_language r = (o, cm', h') ->
  l1_sound cm -> l1_sound cm'.
Proof.
  unfold set. remember (_generate_cache_key text target_language) as k.
  destruct (l1_cache cm) as [c|] eqn:L1;
    [|intros [= <- <- <-]; apply set_l2_sound].
  destruct (TTLCache.truthy time c);
    [|intros [= <- <- <-]; apply set_l2_sound].
  unfold dict_copy, alloc.
  destruct (TTLCache.setitem time c k (length h)) as [c'|e] eqn:Es;
    intros [= <- <- <-]; [|auto].
  intros _. apply set_l2_sound. unfold l1_sound. simpl. intros _.
  apply (setitem_sound _ _ _ _ _ Es).
Qed.

(** [set] only adds objects. *)
Lemma set_keeps cm time h text target_language r o cm' h' :
  set cm time h text target_language r = (o, cm', h') ->
  forall r', (r' < length h)%nat -> h' !! r' = h !! r'.
Proof.
  unfold set. remember (_generate_cache_key text target_language) as k.
  destruct (l1_cache cm) as [c|]; [|intros [= <- <- <-]; auto].
  destruct (TTLCache.truthy time c); [|intros [= <- <- <-]; auto].
  unfold dict_copy, alloc.
  destruct (TTLCache.setitem time c k (length h));
    intros [= <- <- <-] r' Hr'; apply lookup_app_l; exact Hr'.
Qed.

(** A sound cache accepts every [set]. *)
Lemma set_returns cm time h text target_language r :
  l1_sound cm ->
  exists cm' h',
    set cm time h text target_language r = (Returned tt, cm', h').
Proof.
  unfold l1_sound, set.
  remember (_generate_cache_key text target_language) as k.
  destruct (l1_cache cm) as [c|]; [|intros _; eauto].
  intros Hs. destruct (TTLCache.truthy time c) eqn:Ht; [|eauto].
  assert (Hm : 1 <= TTLCache.maxsize c).
  { apply Hs. intros E. rewrite (truthy_empty_links time c E) in Ht.
    discriminate Ht. }
  unfold dict_copy, alloc, TTLCache.setitem.
  destruct (Z.ltb_spec (TTLCache.maxsize c) 1) as [?|_]; [lia|].
  eauto.
Qed.

End Frame.
End FrameFacts.

(* ===================================================================== *)
(** * Properties of the endpoints *)
(* ===================================================================== *)

Module MainFacts.
Import PyStr Await TranslationServices CacheManager Main CascadeFacts
  TTLCacheFacts CacheFacts FrameFacts.

Section MainFacts.
Context `{Interp} `{Process} {W : Type} (srv : services W).

(** ** What [get] and [set] do to the cache and to the heap *)

(** A miss leaves the cache as it was. *)
Lemma get_l2_miss self time h k cm h' :
  get_l2 self time h k = (Returned None, cm, h') -> cm = self.
Proof.
  unfold get_l2. destruct (redis_client self) as [client|]; [|congruence].
  destruct (Redis.get time client k) as [[d|]|e]; try congruence.
  simpl. destruct (l1_cache self) as [c|]; [|congruence].
  destruct (TTLCache.truthy time c); [|congruence].
  destruct (TTLCache.setitem time c k (length h)); congruence.
Qed.

Lemma get_miss self time h text target_language cm h' :
  get self time h text target_language = (Returned None, cm, h') -> cm = self.
Proof.
  unfold get. remember (_generate_cache_key text target_language) as k.
  destruct (l1_cache self) as [c|]; [|apply get_l2_miss].
  destruct (TTLCache.truthy time c && TTLCache.contains time c k);
    [|apply get_l2_miss].
  destruct (TTLCache.getitem time c k) as [[r c']|e]; congruence.
Qed.

(** ** The degraded result as a response *)

Lemma response_of_all_failed (h : heap) (r : ref) (x : pynumber)
    (level : value) (level' : option str) text source_language
    target_language :
  TranslationResponse.optional_str {[ "cache_level" := level ]} "cache_level"
  = Returned level' ->
  h !! r
  = Some (<["cache_level" := level]>
            (<["processing_time_ms" := VFloat x]>
               (all_failed text source_language target_language))) ->
  response_of h r
  = Returned
      {| TranslationResponse.translated_text := text;
         TranslationResponse.source_language := source_language;
         TranslationResponse.target_language := target_language;
         TranslationResponse.service := lit "none";
         TranslationResponse.confidence := 0;
         TranslationResponse.original_text := text;
         TranslationResponse.cache_level := level';
         TranslationResponse.processing_time_ms := Some x;
         TranslationResponse.error :=
           Some (lit "All translation services failed") |}.
Proof.
  intros Hl Hr. unfold response_of. rewrite Hr. simpl default.
  unfold TranslationResponse.of_dict, TranslationResponse.required_str,
    TranslationResponse.confidence_field, TranslationResponse.optional_float,
    all_failed, result_dict.
  unfold TranslationResponse.optional_str in *.
  rewrite lookup_singleton_eq in Hl.
  repeat (rewrite lookup_insert_ne by discriminate).
  rewrite !lookup_insert_eq. simpl.
  repeat (rewrite lookup_insert_ne by discriminate).
  rewrite !lookup_insert_eq. simpl.
  repeat first [rewrite lookup_insert_eq
               | rewrite lookup_insert_ne by discriminate
               | rewrite lookup_singleton_eq]; simpl.
  destruct level; inversion Hl; subst; reflexivity.
Qed.

Lemma alloc_lookup (h : heap) (d : pydict) : (h ++ [d]) !! length h = Some d.
Proof. rewrite lookup_app_r by lia. rewrite Nat.sub_diag. reflexivity. Qed.

(** The response of the degraded result, as both endpoints build it. *)
Definition degraded_response (text source_language target_language : str)
    (level : option str) (x : pynumber) : TranslationResponse.t :=
  {| TranslationResponse.translated_text := text;
     TranslationResponse.source_language := source_language;
     TranslationResponse.target_language := target_language;
     TranslationResponse.service := lit "none";
     TranslationResponse.confidence := 0;
     TranslationResponse.original_text := text;
     TranslationResponse.cache_level := level;
     TranslationResponse.processing_time_ms := Some x;
     TranslationResponse.error :=
       Some (lit "All translation services failed") |}.

(** ** [POST /translate] after a miss, when every provider fails *)

Lemma translate_text_fresh_all_fail svc request clock cm h st (w : W) :
  l1_sound cm ->
  all_providers_fail srv svc (TranslationRequest.text request)
    (TranslationRequest.target_language request)
    (TranslationRequest.source_language request) w ->
  exists st',
    (run srv (translate_text_fresh svc request clock cm h st) w).1
    = (Returned
         (degraded_response (TranslationRequest.text request)
            (TranslationRequest.target_language request)
            (TranslationRequest.source_language request)
            None (elapsed_ms clock)),
       st').
Proof.
  intros Hs Hfail. unfold translate_text_fresh. rewrite run_bind.
  pose proof (translate_all_fail_run srv svc _ _ _ w Hfail) as Hres.
  destruct (run srv (translate svc _ _ _) w) as [d w'].
  simpl in Hres. subst d. unfold alloc.
  set (d := all_failed (TranslationRequest.text request)
              (TranslationRequest.target_language request)
              (TranslationRequest.source_language request)).
  destruct (set_returns cm (at_set clock) (h ++ [d])
              (TranslationRequest.text request)
              (TranslationRequest.target_language request) (length h) Hs)
    as (cm' & h' & Hset).
  rewrite Hset. simpl. eexists. f_equal.
  apply (response_of_all_failed _ _ _ VNone None); [reflexivity|].
  assert (Hr : h' !! length h = Some d).
  { rewrite (set_keeps _ _ _ _ _ _ _ _ _ Hset)
      by (rewrite length_app; simpl; lia).
    apply alloc_lookup. }
  erewrite dict_setitem_lookup; [reflexivity|].
  erewrite dict_setitem_lookup; [reflexivity|]. exact Hr.
Qed.

(** ** The loop of [POST /translate/batch] *)

(** What the handling of texts changes in the state of the application. *)
Definition changes (st st' : app) : Prop :=
  frames (cache_manager st) (objects st) (cache_manager st') (objects st').

Lemma ref_truthy_None (h : heap) : ref_truthy h None = false.
Proof. reflexivity. Qed.

(** One text, after a miss, when every provider fails: the object appended
    to the results is new, no object of L1, and gives the response of the
    degraded result. *)
Lemma batch_item_fresh_all_fail svc request text clock cm h b (w : W) :
  l1_sound cm ->
  no_dangling cm h ->
  all_providers_fail srv svc text
    (BatchTranslationRequest.target_language request)
    (BatchTranslationRequest.source_language request) w ->
  exists b',
    (run srv (batch_item_fresh svc request text clock cm h b) w).1
    = (Returned tt, b')
    /\ results b' = results b ++ [length h]
    /\ apart (cache_manager (state b')) (objects (state b')) (length h)
    /\ response_of (objects (state b')) (length h)
       = Returned
           (degraded_response text
              (BatchTranslationRequest.target_language request)
              (BatchTranslationRequest.source_language request)
              (Some (lit "fresh")) (elapsed_ms clock)).
Proof.
  intros Hs Hd Hfail. unfold batch_item_fresh. rewrite run_bind.
  pose proof (translate_all_fail_run srv svc _ _ _ w Hfail) as Hres.
  destruct (run srv (translate svc _ _ _) w) as [d w'].
  simpl in Hres. subst d. unfold alloc.
  set (d := all_failed text
              (BatchTranslationRequest.target_language request)
              (BatchTranslationRequest.source_language request)).
  set (h2 := dict_setitem
               (dict_setitem (h ++ [d]) (length h) "processing_time_ms"
                  (VFloat (elapsed_ms clock)))
               (length h) "cache_level" (VStr (lit "fresh"))).
  assert (Hr : h2 !! length h
               = Some (<["cache_level" := VStr (lit "fresh")]>
                         (<["processing_time_ms" := VFloat (elapsed_ms clock)]>
                            d))).
  { subst h2. erewrite dict_setitem_lookup; [reflexivity|].
    erewrite dict_setitem_lookup; [reflexivity|]. apply alloc_lookup. }
  assert (Hlen : length h2 = S (length h)).
  { subst h2. rewrite !dict_setitem_length, length_app. simpl. lia. }
  assert (Ha : apart cm h2 (length h)).
  { split; [lia|]. intros Hin. specialize (Hd _ Hin). lia. }
  destruct (set_returns cm (at_set clock) h2 text
              (BatchTranslationRequest.target_language request)
              (length h) Hs)
    as (cm' & h' & Hset).
  rewrite Hset.
  destruct (frames_apart _ _ _ _ _ (set_frames _ _ _ _ _ _ _ _ _ Hset) Ha)
    as [Ha' Hkeep].
  simpl. eexists. split; [reflexivity|]. split; [reflexivity|]. simpl.
  split; [exact Ha'|].
  apply (response_of_all_failed _ _ _ (VStr (lit "fresh"))
           (Some (lit "fresh"))); [reflexivity|].
  rewrite Hkeep. exact Hr.
Qed.

(** One text, in general. *)
Lemma batch_item_changes svc request text clock b (w : W) o b' w' :
  run srv (batch_item svc request text clock b) w = ((o, b'), w') ->
  changes (state b) (state b')
  /\ (l1_sound (cache_manager (state b)) ->
      l1_sound (cache_manager (state b')))
  /\ (o = Returned tt -> exists new, results b' = results b ++ [new]).
Proof.
  unfold batch_item, changes.
  destruct (get (cache_manager (state b)) (at_get clock) (objects (state b))
              text (BatchTranslationRequest.target_language request))
    as [[og cm1] h1] eqn:Eg.
  pose proof (get_frames _ _ _ _ _ _ _ _ Eg) as Fg.
  pose proof (get_sound _ _ _ _ _ _ _ _ Eg) as Sg.
  destruct og as [cached|e].
  - destruct (ref_truthy h1 cached) eqn:Et.
    + destruct cached as [res|]; [|rewrite ref_truthy_None in Et; discriminate].
      simpl. intros [= <- <- <-]. simpl.
      split; [|split; [exact Sg | eauto]].
      apply frames_setitem; [exact Fg|].
      apply (get_result _ _ _ _ _ _ _ _ Eg).
    + unfold batch_item_fresh. rewrite run_bind.
      destruct (run srv (translate svc _ _ _) w) as [d w1].
      unfold alloc.
      set (h2 := dict_setitem
                   (dict_setitem (h1 ++ [d]) (length h1) "processing_time_ms"
                      (VFloat (elapsed_ms clock)))
                   (length h1) "cache_level" (VStr (lit "fresh"))).
      assert (F2 : frames (cache_manager (state b)) (objects (state b)) cm1 h2).
      { pose proof (proj1 Fg) as Hlen. subst h2.
        apply frames_setitem; [|right; exact Hlen].
        apply frames_setitem; [|right; exact Hlen].
        apply frames_alloc. exact Fg. }
      destruct (set cm1 (at_set clock) h2 text
                  (BatchTranslationRequest.target_language request)
                  (length h1)) as [[os cm2] h3] eqn:Es.
      pose proof (set_frames _ _ _ _ _ _ _ _ _ Es) as Fs.
      pose proof (set_sound _ _ _ _ _ _ _ _ _ Es) as Ss.
      destruct os as [[]|e]; simpl; intros [= <- <- <-]; simpl.
      * split; [eapply frames_trans; eassumption|].
        split; [auto | eauto].
      * split; [eapply frames_trans; eassumption|].
        split; [auto | discriminate].
  - simpl. intros [= <- <- <-]. simpl.
    split; [exact Fg|]. split; [exact Sg | discriminate].
Qed.

(** The loop, in general. *)
Lemma batch_loop_changes svc request texts clocks :
  forall i b (w : W) o b' w',
    run srv (batch_loop svc request texts clocks i b) w = ((o, b'), w') ->
    changes (state b) (state b')
    /\ (l1_sound (cache_manager (state b)) ->
        l1_sound (cache_manager (state b')))
    /\ (o = Returned tt ->
        exists news,
          results b' = results b ++ news /\ length news = length texts).
Proof.
  induction texts as [|text rest IH]; intros i b w o b' w'.
  - simpl. intros [= <- <- <-].
    split; [apply frames_refl|]. split; [auto|].
    intros _. exists []. rewrite app_nil_r. split; reflexivity.
  - cbn [batch_loop]. rewrite run_bind.
    destruct (run srv (batch_item svc request text (clocks i) b) w)
      as [[o1 b1] w1] eqn:E1.
    destruct (batch_item_changes _ _ _ _ _ _ _ _ _ E1) as (F1 & S1 & R1).
    destruct o1 as [[]|e].
    + intros Hrest.
      destruct (IH _ _ _ _ _ _ Hrest) as (F2 & S2 & R2).
      split; [eapply frames_trans; eassumption|].
      split; [auto|]. intros Ho.
      destruct (R1 eq_refl) as (new & Hnew).
      destruct (R2 Ho) as (news & Hnews & Hlen).
      exists (new :: news). rewrite Hnews, Hnew, <- app_assoc.
      split; [reflexivity | simpl; lia].
    + simpl. intros [= <- <- <-].
      split; [exact F1|]. split; [exact S1 | discriminate].
Qed.

(** The loop over two lists in a row. *)
Lemma batch_loop_app svc request texts1 texts2 clocks :
  forall i b (w : W),
    run srv (batch_loop svc request (texts1 ++ texts2) clocks i b) w
    = match run srv (batch_loop svc request texts1 clocks i b) w with
      | ((Returned _, b1), w1) =>
        run srv (batch_loop svc request texts2 clocks (i + length texts1)%nat
                   b1) w1
      | ((Raised e, b1), w1) => ((Raised e, b1), w1)
      end.
Proof.
  induction texts1 as [|text rest IH]; intros i b w.
  - simpl. rewrite Nat.add_0_r. reflexivity.
  - cbn [batch_loop Datatypes.app]. rewrite !run_bind.
    destruct (run srv (batch_item svc request text (clocks i) b) w)
      as [[o1 b1] w1].
    destruct o1 as [[]|e]; [|reflexivity].
    rewrite IH. simpl length. rewrite Nat.add_succ_r. reflexivity.
Qed.

Lemma response_of_same (h h' : heap) r :
  h' !! r = h !! r -> response_of h' r = response_of h r.
Proof. unfold response_of. intros ->. reflexivity. Qed.

Lemma responses_of_lookup (h : heap) results responses :
  responses_of h results = Returned responses ->
  forall i r,
    results !! i = Some r ->
    exists response,
      responses !! i = Some response /\ response_of h r = Returned response.
Proof.
  revert responses.
  induction results as [|r0 results IH]; intros responses.
  - intros _ i r Hi. destruct i; discriminate Hi.
  - simpl. destruct (response_of h r0) as [response0|e] eqn:E0;
      [|discriminate].
    destruct (responses_of h results) as [responses'|e]; [|discriminate].
    intros [= <-] i r Hi. destruct i as [|i].
    + injection Hi as <-. exists response0. split; [reflexivity | exact E0].
    + apply (IH responses' eq_refl i r Hi).
Qed.

(** The state of the application is well formed: L1 has room for what it
    holds and names objects of the heap. Every state that the endpoints
    reach from [__init__] is. *)
Definition well_formed (st : app) : Prop :=
  l1_sound (cache_manager st)
  /\ no_dangling (cache_manager st) (objects st).

(** The loop before the first text. *)
Definition batch_start (st : app) : batch :=
  {| results := []; cache_hits := 0; api_calls := 0; state := st |}.

(** The text of index [i] of a batch, after a miss, when every provider
    fails: the response at index [i] of the answer of the endpoint. *)
Lemma translate_batch_all_fail_at svc request clocks total st (w : W)
    i text b_i w_i h answer st' :
  well_formed st ->
  BatchTranslationRequest.texts request !! i = Some text ->
  run srv (batch_loop svc request
             (take i (BatchTranslationRequest.texts request)) clocks O
             (batch_start st)) w
  = ((Returned tt, b_i), w_i) ->
  get (cache_manager (state b_i)) (at_get (clocks i)) (objects (state b_i))
    text (BatchTranslationRequest.target_language request)
  = (Returned None, cache_manager (state b_i), h) ->
  all_providers_fail srv svc text
    (BatchTranslationRequest.target_language request)
    (BatchTranslationRequest.source_language request) w_i ->
  (run srv (translate_batch svc request false clocks total st) w).1
  = (Returned (inl answer), st') ->
  full_results answer !! i
  = Some (degraded_response text
            (BatchTranslationRequest.target_language request)
            (BatchTranslationRequest.source_language request)
            (Some (lit "fresh")) (elapsed_ms (clocks i))).
Proof.
  intros [Hsound Hdang] Hi Hpre Hmiss Hfail Hrun.
  set (texts := BatchTranslationRequest.texts request) in *.
  assert (Hlt : (i < length texts)%nat)
    by (apply lookup_lt_Some in Hi; exact Hi).
  (* the state before the text of index i *)
  destruct (batch_loop_changes _ _ _ _ _ _ _ _ _ _ Hpre)
    as (Fpre & Spre & Rpre).
  destruct (Rpre eq_refl) as (before & Hbefore & Hlen_before).
  simpl in Hbefore. rewrite length_take_le in Hlen_before by lia.
  assert (Hd_i : no_dangling (cache_manager (state b_i)) h).
  { eapply frames_no_dangling; [exact (get_frames _ _ _ _ _ _ _ _ Hmiss)|].
    eapply frames_no_dangling; [exact Fpre | exact Hdang]. }
  (* the text of index i *)
  destruct (batch_item_fresh_all_fail svc request text (clocks i)
              (cache_manager (state b_i)) h b_i w_i (Spre Hsound) Hd_i Hfail)
    as (b1 & Hitem & Hres1 & Hapart & Hresp).
  assert (Eitem : batch_item svc request text (clocks i) b_i
                  = batch_item_fresh svc request text (clocks i)
                      (cache_manager (state b_i)) h b_i).
  { unfold batch_item. rewrite Hmiss. reflexivity. }
  (* the whole loop *)
  unfold translate_batch in Hrun. rewrite run_bind in Hrun.
  fold texts in Hrun. fold (batch_start st) in Hrun.
  rewrite <- (take_drop_middle texts i text Hi) in Hrun.
  rewrite batch_loop_app, Hpre in Hrun.
  rewrite length_take_le in Hrun by lia. simpl Nat.add in Hrun.
  cbn [batch_loop] in Hrun. rewrite run_bind, Eitem in Hrun.
  destruct (run srv (batch_item_fresh svc request text (clocks i)
                       (cache_manager (state b_i)) h b_i) w_i)
    as [[o1 b1'] w1].
  simpl in Hitem. injection Hitem as -> ->.
  destruct (run srv (batch_loop svc request (drop (S i) texts) clocks (S i)
                       b1) w1) as [[o2 b2] w2] eqn:Hpost.
  destruct (batch_loop_changes _ _ _ _ _ _ _ _ _ _ Hpost)
    as (Fpost & _ & Rpost).
  destruct o2 as [[]|e]; [|discriminate Hrun].
  destruct (Rpost eq_refl) as (after & Hafter & _).
  destruct (frames_apart _ _ _ _ _ Fpost Hapart) as [_ Hkeep].
  cbn [run] in Hrun.
  destruct (responses_of (objects (state b2)) (results b2))
    as [responses|e] eqn:Hresponses; [|discriminate Hrun].
  simpl in Hrun. injection Hrun as <- _. simpl.
  assert (Hat : results b2 !! i = Some (length h)).
  { rewrite Hafter, Hres1, Hbefore, <- app_assoc.
    apply list_lookup_middle. symmetry. exact Hlen_before. }
  destruct (responses_of_lookup _ _ _ Hresponses i _ Hat)
    as (response & Hlookup & Hof).
  rewrite Hlookup. f_equal.
  rewrite (response_of_same _ _ _ Hkeep), Hresp in Hof.
  injection Hof as <-. reflexivity.
Qed.

(** C10. Both endpoints call [translate] with the [target_language] of the
    request in the place of its parameter [source_language] and the
    [source_language] of the request in the place of its parameter
    [target_language]: after a cache miss, the handler of [POST /translate]
    and the body of the loop of [POST /translate/batch] are that call
    followed by the rest. Hence, when every provider fails on that call,
    the response of [POST /translate], and the response at the index of
    the text in the answer of [POST /translate/batch], carry the source
    language of the request as their [target_language] and the target
    language of the request as their [source_language]. *)
Theorem endpoints_swap_the_languages (svc : service) (st : app) (w : W) :
  well_formed st ->
  (forall request clock h,
     get (cache_manager st) (at_get clock) (objects st)
       (TranslationRequest.text request)
       (TranslationRequest.target_language request)
     = (Returned None, cache_manager st, h) ->
     (exists rest,
        translate_text svc request clock st
        = translate svc (TranslationRequest.text request)
            (TranslationRequest.target_language request)
            (TranslationRequest.source_language request) ≫= rest)
     /\ (all_providers_fail srv svc (TranslationRequest.text request)
           (TranslationRequest.target_language request)
           (TranslationRequest.source_language request) w ->
         exists response st',
           (run srv (translate_text svc request clock st) w).1
           = (Returned response, st')
           /\ TranslationResponse.target_language response
              = TranslationRequest.source_language request
           /\ TranslationResponse.source_language response
              = TranslationRequest.target_language request
           /\ TranslationResponse.error response
              = Some (lit "All translation services failed")))
  /\ (forall request clocks total i text b_i w_i h,
        BatchTranslationRequest.texts request !! i = Some text ->
        run srv (batch_loop svc request
                   (take i (BatchTranslationRequest.texts request)) clocks O
                   (batch_start st)) w
        = ((Returned tt, b_i), w_i) ->
        get (cache_manager (state b_i)) (at_get (clocks i))
          (objects (state b_i)) text
          (BatchTranslationRequest.target_language request)
        = (Returned None, cache_manager (state b_i), h) ->
        (exists rest,
           batch_item svc request text (clocks i) b_i
           = translate svc text
               (BatchTranslationRequest.target_language request)
               (BatchTranslationRequest.source_language request) ≫= rest)
        /\ (all_providers_fail srv svc text
              (BatchTranslationRequest.target_language request)
              (BatchTranslationRequest.source_language request) w_i ->
            forall answer st',
              (run srv (translate_batch svc request false clocks total st)
                 w).1
              = (Returned (inl answer), st') ->
              exists response,
                full_results answer !! i = Some response
                /\ TranslationResponse.target_language response
                   = BatchTranslationRequest.source_language request
                /\ TranslationResponse.source_language response
                   = BatchTranslationRequest.target_language request
                /\ TranslationResponse.error response
                   = Some (lit "All translation services failed"))).
Proof.
  intros Hwf. split.
  - intros request clock h Hget.
    assert (E : translate_text svc request clock st
                = translate_text_fresh svc request clock (cache_manager st)
                    h st).
    { unfold translate_text. rewrite Hget. reflexivity. }
    rewrite E. split.
    + unfold translate_text_fresh. eexists. reflexivity.
    + intros Hfail.
      destruct (translate_text_fresh_all_fail svc request clock
                  (cache_manager st) h st w (proj1 Hwf) Hfail)
        as (st' & Hrun).
      eexists _, st'. split; [exact Hrun|]. repeat split.
  - intros request clocks total i text b_i w_i h Hi Hpre Hmiss. split.
    + unfold batch_item. rewrite Hmiss. simpl.
      unfold batch_item_fresh. eexists. reflexivity.
    + intros Hfail answer st' Hrun.
      eexists. split.
      * exact (translate_batch_all_fail_at svc request clocks total st w
                 i text b_i w_i h answer st' Hwf Hi Hpre Hmiss Hfail Hrun).
      * repeat split.
Qed.

End MainFacts.
End MainFacts.

(** ** The batch and the endpoints at concrete inputs *)

Module BatchExamples.
Import PyStr Await Asyncio TranslationServices CacheManager Main
  CascadeFacts CascadeExamples BatchFacts CacheExamples FrameFacts MainFacts.

#[local] Existing Instance example_interp.
#[local] Existing Instance example_process.

Definition two_texts : list str := [lit "hello"; lit "food"].

Lemma translate_batch_keeps_input_order_witness :
  0 < 10
  /\ exists l0,
       TranslationServices.translate_batch example_service 10 two_texts
         (lit "ta") (lit "auto") []
       = Returned l0
       /\ (forall schedule,
           exists rest results,
             gathered
               (tasks (run_schedule recording_services (schedule ++ rest) l0))
             = Some results)
       /\ (forall schedule results,
             gathered (tasks (run_schedule recording_services schedule l0))
             = Some results ->
             length results = length two_texts
             /\ forall i text,
                  two_texts !! i = Some text ->
                  exists result,
                    results !! i = Some result
                    /\ answers recording_services
                         (translate example_service text (lit "auto")
                            (lit "ta")) result
                    /\ dict_str result "original_text" = Some text).
Proof.
  split; [lia|].
  apply (translate_batch_keeps_input_order recording_services
           example_service 10 two_texts (lit "ta") (lit "auto") []).
  lia.
Defined.

(** A schedule in which the second task is resumed first and finishes
    first: the results still come in the order of the texts. *)
Lemma second_task_first :
  match TranslationServices.translate_batch example_service 10 two_texts
          (lit "ta") (lit "auto") [] with
  | Returned l0 =>
    option_map (map (fun result => dict_str result "original_text"))
      (gathered
         (tasks
            (run_schedule recording_services
               [1; 0; 1; 1; 0; 0]%nat l0)))
  | Raised _ => None
  end
  = Some [Some (lit "hello"); Some (lit "food")].
Proof. vm_compute. reflexivity. Qed.

Definition new_app : app :=
  {| cache_manager := new_cache; objects := []; total_translations := 0;
     background_tasks := [] |}.

Definition example_clock : timing :=
  {| at_get := 0; at_set := 1; elapsed_ms := 5 |}.

Definition bonjour_request : TranslationRequest.t :=
  {| TranslationRequest.text := lit "bonjour";
     TranslationRequest.target_language := lit "fr";
     TranslationRequest.source_language := lit "en" |}.

Definition bonjour_batch : BatchTranslationRequest.t :=
  {| BatchTranslationRequest.texts := [lit "bonjour"];
     BatchTranslationRequest.target_language := lit "fr";
     BatchTranslationRequest.source_language := lit "en" |}.

Definition empty_batch : batch :=
  {| results := []; cache_hits := 0; api_calls := 0; state := new_app |}.

Lemma new_cache_misses :
  get new_cache 0 [] (lit "bonjour") (lit "fr")
  = (Returned None, new_cache, []).
Proof. vm_compute. reflexivity. Qed.

Lemma new_app_well_formed : well_formed new_app.
Proof.
  split.
  - apply init_sound.
  - intros r Hin. destruct Hin.
Qed.

Definition example_clocks : nat -> timing := fun _ => example_clock.

Lemma bonjour_batch_answer :
  exists answer st',
    (run recording_services
       (Main.translate_batch example_service bonjour_batch false
          example_clocks 7 new_app) []).1
    = (Returned (inl answer), st').
Proof.
  eexists _, _. vm_compute. reflexivity.
Qed.

Lemma endpoints_swap_the_languages_witness :
  well_formed new_app
  /\ (exists response st',
        (run recording_services
           (translate_text example_service bonjour_request example_clock
              new_app) []).1
        = (Returned response, st')
        /\ TranslationResponse.target_language response = lit "en"
        /\ TranslationResponse.source_language response = lit "fr"
        /\ TranslationResponse.error response
           = Some (lit "All translation services failed"))
  /\ (exists answer st' response,
        (run recording_services
           (Main.translate_batch example_service bonjour_batch false
              example_clocks 7 new_app) []).1
        = (Returned (inl answer), st')
        /\ full_results answer !! 0%nat = Some response
        /\ TranslationResponse.target_language response = lit "en"
        /\ TranslationResponse.source_language response = lit "fr"
        /\ TranslationResponse.error response
           = Some (lit "All translation services failed")).
Proof.
  pose proof (endpoints_swap_the_languages recording_services
                example_service new_app [] new_app_well_formed)
    as [Hone Hbatch].
  split; [exact new_app_well_formed|]. split.
  - exact (proj2 (Hone bonjour_request example_clock [] new_cache_misses)
             all_fail_bonjour).
  - destruct bonjour_batch_answer as (answer & st' & Hrun).
    destruct (proj2 (Hbatch bonjour_batch example_clocks 7 0%nat
                       (lit "bonjour") (batch_start new_app) [] []
                       eq_refl eq_refl new_cache_misses)
                all_fail_bonjour answer st' Hrun)
      as (response & Hresponse).
    exists answer, st', response. split; [exact Hrun | exact Hresponse].
Defined.

End BatchExamples.
(* ===================================================================== *)
(** * The chunker: what its two loops keep, and its limits *)
(* ===================================================================== *)

Module ChunkerShape.
Import PyStr Chunker.

(** Cutting a list into [n] consecutive pieces of [m] elements and
    putting the pieces together again gives the list, when [n] pieces
    are enough to cover it. *)
Lemma pieces_concat (m : nat) :
  forall (n : nat) (l : str),
    (length l <= n * m)%nat ->
    concat (map (fun k => take m (drop (k * m) l)) (seq 0 n)) = l.
Proof.
  induction n as [|n IH]; intros l Hl.
  - destruct l; [reflexivity | simpl in Hl; lia].
  - rewrite <- cons_seq, <- seq_shift, map_cons, map_map.
    cbn [concat]. rewrite Nat.mul_0_l, drop_0.
    rewrite <- (take_drop m l) at 2. f_equal.
    rewrite <- (IH (drop m l)) by (rewrite length_drop; lia).
    f_equal. apply map_ext. intros k.
    rewrite drop_drop. reflexivity.
Qed.

(** The number of pieces [range(0, len(chunk), max_length)] gives. *)
Definition pieces_count (chunk : str) (max_length : Z) : nat :=
  Z.to_nat ((len chunk + max_length - 1) / max_length).

Lemma hard_split_pieces (max_length : Z) (chunk : str) :
  0 < max_length ->
  hard_split max_length chunk
  = Returned
      (map (fun k => take (Z.to_nat max_length)
                       (drop (k * Z.to_nat max_length) chunk))
         (seq 0 (pieces_count chunk max_length))).
Proof.
  intros Hm. unfold hard_split, range0.
  destruct (Z.eqb_spec max_length 0) as [->|_]; [lia|].
  destruct (Z.ltb_spec max_length 0) as [?|_]; [lia|].
  f_equal. rewrite map_map. apply map_ext. intros k. unfold slice.
  f_equal; [f_equal; lia|]. f_equal.
  rewrite Z2Nat.inj_mul, Nat2Z.id; lia.
Qed.

Lemma pieces_cover (max_length : Z) (chunk : str) :
  0 < max_length ->
  (length chunk <= pieces_count chunk max_length * Z.to_nat max_length)%nat.
Proof.
  intros Hm. unfold pieces_count, len.
  set (n := Z.of_nat (length chunk)).
  assert (Hn : 0 <= n) by lia.
  pose proof (Z.div_mod (n + max_length - 1) max_length ltac:(lia)) as Hd.
  pose proof (Z.mod_pos_bound (n + max_length - 1) max_length Hm) as Hb.
  assert (Hq : 0 <= (n + max_length - 1) / max_length)
    by (apply Z.div_pos; lia).
  apply Nat2Z.inj_le. rewrite Nat2Z.inj_mul, !Z2Nat.id by lia.
  fold n. nia.
Qed.

Lemma hard_split_concat (max_length : Z) (chunk : str) :
  0 < max_length ->
  exists pieces,
    hard_split max_length chunk = Returned pieces /\ concat pieces = chunk.
Proof.
  intros Hm. eexists. split; [apply hard_split_pieces, Hm|].
  apply pieces_concat, pieces_cover, Hm.
Qed.

Lemma final_loop_concat (max_length : Z) (chunks : list str) :
  0 < max_length ->
  forall final_chunks,
    exists fragments,
      final_loop max_length chunks final_chunks = Returned fragments
      /\ concat fragments = concat final_chunks ++ concat chunks.
Proof.
  intros Hm. induction chunks as [|chunk rest IH]; intros acc; simpl.
  - exists acc. rewrite app_nil_r. auto.
  - destruct (len chunk <=? max_length).
    + destruct (IH (acc ++ [chunk])) as (fragments & -> & Hc).
      exists fragments. split; [reflexivity|].
      rewrite Hc, concat_app. simpl. rewrite app_nil_r, <- app_assoc.
      reflexivity.
    + destruct (hard_split_concat max_length chunk Hm) as (pieces & -> & Hp).
      destruct (IH (acc ++ pieces)) as (fragments & -> & Hc).
      exists fragments. split; [reflexivity|].
      rewrite Hc, concat_app, Hp, <- app_assoc. reflexivity.
Qed.

(** X1. For a positive [max_length], the cut by character count loses
    nothing and keeps the order: the fragments [_chunk_text] returns,
    put end to end, are the text itself when it fits, and otherwise the
    chunks of the sentence pass put end to end. *)
Theorem chunk_text_cut_keeps_every_character (text : str) (max_length : Z) :
  0 < max_length ->
  exists fragments,
    _chunk_text text max_length = Returned fragments
    /\ concat fragments
       = if len text <=? max_length then text
         else concat (sentence_chunks max_length text).
Proof.
  intros Hm. unfold _chunk_text.
  destruct (len text <=? max_length).
  - exists [text]. split; [reflexivity|]. simpl. apply app_nil_r.
  - destruct (final_loop_concat max_length
                (sentence_chunks max_length text) Hm [])
      as (fragments & -> & Hc).
    exists fragments. split; [reflexivity | exact Hc].
Qed.

Lemma chunk_text_cut_keeps_every_character_witness :
  0 < 10
  /\ exists fragments,
       _chunk_text (lit "aaaaaaaaaaaaaaaaaaaaaaaa. bb") 10 = Returned fragments
       /\ concat fragments
          = if len (lit "aaaaaaaaaaaaaaaaaaaaaaaa. bb") <=? 10
            then lit "aaaaaaaaaaaaaaaaaaaaaaaa. bb"
            else concat
                   (sentence_chunks 10 (lit "aaaaaaaaaaaaaaaaaaaaaaaa. bb")).
Proof.
  split; [lia|].
  apply (chunk_text_cut_keeps_every_character
           (lit "aaaaaaaaaaaaaaaaaaaaaaaa. bb") 10).
  lia.
Defined.

(** ** The cut by character count *)

(** A chunk cut by character count: consecutive pieces of [max_length]
    characters, as many as are needed to cover it. *)
Definition cut (max_length : Z) (chunk : str) : list str :=
  map (fun k => take (Z.to_nat max_length)
                  (drop (k * Z.to_nat max_length) chunk))
    (seq 0 (pieces_count chunk max_length)).

(** What becomes of one unit: it is kept whole when it fits and cut by
    character count when it does not. *)
Definition fitted (max_length : Z) (unit : str) : list str :=
  if len unit <=? max_length then [unit] else cut max_length unit.

(** The units [_chunk_text] works on: the text when it fits, and else
    the chunks of the sentence pass. *)
Definition units (max_length : Z) (text : str) : list str :=
  if len text <=? max_length then [text]
  else sentence_chunks max_length text.





(** A sentence of 24 letters and a limit of 10: the unit is cut into
    two slices of 10 characters and one of 5 (the last four letters and
    the full stop). The sentence pass gives every unit twice here. *)
Lemma long_sentence_is_cut :
  units 10 (lit "aaaaaaaaaaaaaaaaaaaaaaaa. bb")
  = [lit "aaaaaaaaaaaaaaaaaaaaaaaa."; lit "aaaaaaaaaaaaaaaaaaaaaaaa.";
     lit "bb."; lit "bb."]
  /\ fitted 10 (lit "aaaaaaaaaaaaaaaaaaaaaaaa.")
     = [lit "aaaaaaaaaa"; lit "aaaaaaaaaa"; lit "aaaa."]
  /\ fitted 10 (lit "bb.") = [lit "bb."].
Proof. vm_compute. repeat split. Qed.


(** ** The chunks of the sentence pass *)

(** What [strip] leaves of a chunk that ends with the delimiter: the
    full stop stays. *)
Lemma lstrip_dot_space (x : str) :
  exists y, lstrip (x ++ dot_space) = y ++ dot_space.
Proof.
  induction x as [|c x IH]; simpl.
  - exists []. reflexivity.
  - destruct (isspace c); [exact IH|].
    exists (c :: x). reflexivity.
Qed.

Lemma strip_dot_space (x : str) :
  exists y, strip (x ++ dot_space) = y ++ [0x2E%N].
Proof.
  unfold strip, rstrip.
  destruct (lstrip_dot_space x) as (y & ->).
  exists y. unfold dot_space. rewrite rev_app_distr. simpl.
  rewrite rev_involutive. reflexivity.
Qed.

Definition open_chunk (current_chunk : str) : Prop :=
  current_chunk = [] \/ exists x, current_chunk = x ++ dot_space.

Lemma append_if_truthy_not_empty chunks current_chunk :
  Forall (fun chunk => chunk <> []) chunks ->
  open_chunk current_chunk ->
  Forall (fun chunk => chunk <> []) (append_if_truthy chunks current_chunk).
Proof.
  intros Hc [->|(x & ->)]; unfold append_if_truthy.
  - exact Hc.
  - destruct (truthy (x ++ dot_space)); [|exact Hc].
    apply Forall_app. split; [exact Hc|].
    constructor; [|constructor].
    destruct (strip_dot_space x) as (y & ->). destruct y; discriminate.
Qed.

Lemma open_chunk_sentence (current_chunk sentence : str) :
  open_chunk (current_chunk ++ sentence ++ dot_space).
Proof. right. exists (current_chunk ++ sentence). apply app_assoc. Qed.

Lemma sentence_step_not_empty max_length chunks current_chunk sentence :
  Forall (fun chunk => chunk <> []) chunks ->
  open_chunk current_chunk ->
  Forall (fun chunk => chunk <> [])
    (sentence_step max_length (chunks, current_chunk) sentence).1
  /\ open_chunk (sentence_step max_length (chunks, current_chunk) sentence).2.
Proof.
  intros Hc Ho. unfold sentence_step.
  destruct (len (current_chunk ++ sentence ++ dot_space) <=? max_length);
    simpl.
  - split; [exact Hc | apply open_chunk_sentence].
  - split; [|apply (open_chunk_sentence [])].
    apply append_if_truthy_not_empty; [|apply (open_chunk_sentence [])].
    apply append_if_truthy_not_empty; assumption.
Qed.

Lemma sentences_fold_not_empty max_length sentences :
  forall chunks current_chunk,
    Forall (fun chunk => chunk <> []) chunks ->
    open_chunk current_chunk ->
    let st :=
      fold_left (sentence_step max_length) sentences
        (chunks, current_chunk) in
    Forall (fun chunk => chunk <> []) st.1 /\ open_chunk st.2.
Proof.
  induction sentences as [|sentence rest IH]; intros chunks current Hc Ho.
  - simpl. auto.
  - cbn [fold_left].
    destruct (sentence_step_not_empty max_length chunks current sentence
                Hc Ho) as [Hc' Ho'].
    destruct (sentence_step max_length (chunks, current) sentence)
      as [chunks' current'].
    apply IH; assumption.
Qed.

Lemma sentence_chunks_not_empty max_length text :
  Forall (fun chunk => chunk <> []) (sentence_chunks max_length text).
Proof.
  unfold sentence_chunks.
  pose proof (sentences_fold_not_empty max_length (split_dot_space text)
                [] [] (List.Forall_nil _) (or_introl eq_refl)) as [Hc Ho].
  destruct (fold_left _ _ _) as [chunks current].
  apply append_if_truthy_not_empty; assumption.
Qed.

Lemma pieces_not_empty (max_length : Z) (chunk : str) :
  0 < max_length ->
  Forall (fun piece => piece <> [])
    (map (fun k => take (Z.to_nat max_length)
                     (drop (k * Z.to_nat max_length) chunk))
       (seq 0 (pieces_count chunk max_length))).
Proof.
  intros Hm. apply Forall_forall. intros piece Hin.
  apply list_elem_of_In, in_map_iff in Hin as (k & <- & Hk).
  apply in_seq in Hk. unfold pieces_count, len in Hk.
  set (n := Z.of_nat (length chunk)) in *.
  pose proof (Z.mul_div_le (n + max_length - 1) max_length Hm) as Hd.
  assert (Hlt : (k * Z.to_nat max_length < length chunk)%nat).
  { apply Nat2Z.inj_lt. rewrite Nat2Z.inj_mul, Z2Nat.id by lia. fold n.
    assert (Z.of_nat k + 1 <= (n + max_length - 1) / max_length) by lia.
    nia. }
  intros Hp. apply (f_equal (@length N)) in Hp.
  rewrite length_take, length_drop in Hp. simpl in Hp. lia.
Qed.

Lemma final_loop_not_empty (max_length : Z) (chunks : list str) :
  0 < max_length ->
  Forall (fun chunk => chunk <> []) chunks ->
  forall final_chunks,
    Forall (fun chunk => chunk <> []) final_chunks ->
    exists fragments,
      final_loop max_length chunks final_chunks = Returned fragments
      /\ Forall (fun fragment => fragment <> []) fragments.
Proof.
  intros Hm. induction chunks as [|chunk rest IH]; intros Hc acc Hacc; simpl.
  - eauto.
  - apply Forall_cons in Hc as [Hchunk Hrest].
    destruct (len chunk <=? max_length).
    + apply (IH Hrest), Forall_app. split; [exact Hacc|].
      constructor; [exact Hchunk | constructor].
    + rewrite (hard_split_pieces max_length chunk Hm).
      apply (IH Hrest), Forall_app. split; [exact Hacc|].
      apply pieces_not_empty, Hm.
Qed.

(** X2. For a text that is not empty and a positive [max_length], no
    fragment [_chunk_text] returns is empty: a chunk of the sentence
    pass keeps at least its full stop, and the cut by character count
    makes no empty piece. *)
Theorem chunk_text_fragments_not_empty (text : str) (max_length : Z) :
  text <> [] -> 0 < max_length ->
  exists fragments,
    _chunk_text text max_length = Returned fragments
    /\ Forall (fun fragment => fragment <> []) fragments.
Proof.
  intros Ht Hm. unfold _chunk_text.
  destruct (len text <=? max_length).
  - exists [text]. split; [reflexivity|]. constructor; [exact Ht|constructor].
  - apply (final_loop_not_empty max_length _ Hm
             (sentence_chunks_not_empty max_length text) []).
    constructor.
Qed.

Lemma chunk_text_fragments_not_empty_witness :
  exists fragments,
    _chunk_text (lit "aaaaaaaa. bbbbbbbb. cc") 10 = Returned fragments
    /\ Forall (fun fragment => fragment <> []) fragments.
Proof.
  apply (chunk_text_fragments_not_empty (lit "aaaaaaaa. bbbbbbbb. cc") 10).
  - discriminate.
  - lia.
Defined.

(** ** A limit that leaves no room *)

Lemma split_dot_space_from_cons acc s :
  exists sentence rest, split_dot_space_from acc s = sentence :: rest.
Proof.
  revert acc. induction s as [|c s IH]; intros acc; simpl.
  - eauto.
  - destruct s as [|d s'']; [eauto|].
    destruct ((c =? 46)%N && (d =? 32)%N); [eauto|].
    apply IH.
Qed.

Lemma append_if_truthy_prefix chunks current_chunk :
  exists more, append_if_truthy chunks current_chunk = chunks ++ more.
Proof.
  unfold append_if_truthy. destruct (truthy current_chunk).
  - eauto.
  - exists []. symmetry. apply app_nil_r.
Qed.

Lemma sentences_fold_prefix max_length sentences :
  forall chunks current_chunk,
    exists more,
      (fold_left (sentence_step max_length) sentences
         (chunks, current_chunk)).1 = chunks ++ more.
Proof.
  induction sentences as [|sentence rest IH]; intros chunks current.
  - exists []. simpl. symmetry. apply app_nil_r.
  - cbn [fold_left]. unfold sentence_step at 2.
    destruct (len (current ++ sentence ++ dot_space) <=? max_length).
    + apply IH.
    + destruct (append_if_truthy_prefix chunks current) as (m1 & ->).
      destruct (append_if_truthy_prefix (chunks ++ m1)
                  (sentence ++ dot_space)) as (m2 & ->).
      destruct (IH ((chunks ++ m1) ++ m2) (sentence ++ dot_space))
        as (m3 & ->).
      exists (m1 ++ m2 ++ m3). rewrite <- !app_assoc. reflexivity.
Qed.

(** With a limit of 0 the sentence pass starts with a chunk that is not
    empty. *)
Lemma sentence_chunks_at_zero (text : str) :
  exists chunk rest,
    sentence_chunks 0 text = chunk :: rest /\ chunk <> [].
Proof.
  unfold sentence_chunks, split_dot_space.
  destruct (split_dot_space_from_cons [] text) as (sentence & rest & ->).
  cbn [fold_left].
  assert (Hfirst :
    sentence_step 0 ([], []) sentence
    = ([strip (sentence ++ dot_space)], sentence ++ dot_space)).
  { unfold sentence_step.
    destruct (Z.leb_spec (len ([] ++ sentence ++ dot_space)) 0) as [Hle|_].
    - unfold len in Hle. rewrite !length_app in Hle. simpl in Hle. lia.
    - unfold append_if_truthy. destruct sentence; reflexivity. }
  rewrite Hfirst.
  destruct (sentences_fold_prefix 0 rest [strip (sentence ++ dot_space)]
              (sentence ++ dot_space)) as (more & Hmore).
  destruct (fold_left (sentence_step 0) rest _) as [chunks current].
  simpl in Hmore. subst chunks.
  change (exists chunk rest0,
            append_if_truthy ([strip (sentence ++ dot_space)] ++ more)
              current = chunk :: rest0 /\ chunk <> []).
  destruct (append_if_truthy_prefix
              ([strip (sentence ++ dot_space)] ++ more) current)
    as (more' & ->).
  exists (strip (sentence ++ dot_space)), (more ++ more').
  split; [reflexivity|].
  destruct (strip_dot_space sentence) as (y & ->). destruct y; discriminate.
Qed.

Lemma final_loop_negative (max_length : Z) (chunks : list str) :
  max_length < 0 ->
  forall final_chunks,
    final_loop max_length chunks final_chunks = Returned final_chunks.
Proof.
  intros Hm. induction chunks as [|chunk rest IH]; intros acc; simpl.
  - reflexivity.
  - destruct (Z.leb_spec (len chunk) max_length) as [Hle|_];
      [unfold len in Hle; lia|].
    unfold hard_split, range0.
    destruct (Z.eqb_spec max_length 0) as [?|_]; [lia|].
    destruct (Z.ltb_spec max_length 0) as [_|?]; [|lia].
    simpl. rewrite app_nil_r. apply IH.
Qed.

(** X3. A [max_length] that leaves no room. With [max_length = 0] and a
    text that is not empty the call raises the [ValueError] of
    [range(0, n, 0)]; with a negative [max_length] it returns the empty
    list, whatever the text: every chunk is longer than the limit, and
    the range that would cut it is empty. *)
Theorem chunk_text_without_room (text : str) (max_length : Z) :
  max_length <= 0 -> text <> [] ->
  _chunk_text text max_length
  = if max_length =? 0
    then Raised "ValueError: range() arg 3 must not be zero"
    else Returned [].
Proof.
  intros Hm Ht. unfold _chunk_text.
  destruct (Z.leb_spec (len text) max_length) as [Hle|_].
  { destruct text; [congruence | unfold len in Hle; simpl in Hle; lia]. }
  destruct (Z.eqb_spec max_length 0) as [->|Hnz].
  - destruct (sentence_chunks_at_zero text) as (chunk & rest & -> & Hne).
    simpl.
    destruct (Z.leb_spec (len chunk) 0) as [Hle|_].
    { destruct chunk; [congruence | unfold len in Hle; simpl in Hle; lia]. }
    reflexivity.
  - apply final_loop_negative. lia.
Qed.

Lemma chunk_text_without_room_witness :
  _chunk_text (lit "hello") 0
  = Raised "ValueError: range() arg 3 must not be zero"
  /\ _chunk_text (lit "hello") (-1) = Returned [].
Proof.
  split.
  - apply (chunk_text_without_room (lit "hello") 0); [lia | discriminate].
  - apply (chunk_text_without_room (lit "hello") (-1)); [lia | discriminate].
Defined.

End ChunkerShape.
(* ===================================================================== *)
(** * The three providers, one by one *)
(* ===================================================================== *)

Module ProviderFacts.
Import PyStr Await TranslationServices CascadeFacts.

Section Providers.
Context `{Interp} {W : Type} (srv : services W).

(** ** MyMemory: the choice among the matches *)











(** ** MyMemory: [responseData] taken as it is *)



(** ** LibreTranslate *)

(** The source language LibreTranslate is asked for: "auto" is taken as
    English. *)
Definition libretranslate_source (source_language : str) : str :=
  if str_eqb source_language (lit "auto") then lit "en"
  else _normalize_language_code source_language.

(** The source language of a result made from an answer of the
    server: the language the server says it detected, when it says so,
    and else the one that was asked for. *)
Definition detected_or (source_lang : str) (data : libretranslate_data)
  : str :=
  match lt_detectedLanguage data with
  | Some (Some language) => language
  | _ => source_lang
  end.

(** X6. What a result of [translate_with_libretranslate] looks like,
    whatever the server answers. The target language is one of the
    twelve supported ones. Either source and target are the same
    language: then the result is the text itself with confidence 100
    and no request was made; or the request was made, the server
    answered, and the result is the [translatedText] of its answer,
    which is not blank, with the language it detected (or the one asked
    for) and confidence 80. *)
Theorem libretranslate_result_shape (self : service)
    (text target_language source_language : str) (w w' : W) (d : pydict) :
  run srv (translate_with_libretranslate self text target_language
             source_language) w
  = (Returned (Some d), w') ->
  let target_lang := _normalize_language_code target_language in
  let source_lang := libretranslate_source source_language in
  is_supported target_lang = true
  /\ is_supported source_lang = true
  /\ ((source_lang = target_lang
       /\ w' = w
       /\ d = result_dict text source_lang target_lang
                (lit "libretranslate") 100 text)
      \/ (source_lang <> target_lang
          /\ exists data translated,
               libretranslate_server srv
                 (libretranslate_request self text source_lang target_lang) w
               = (Returned data, w')
               /\ lt_translatedText data = Some translated
               /\ strip translated <> []
               /\ d = result_dict translated (detected_or source_lang data)
                        target_lang (lit "libretranslate") 80 text)).
Proof.
  intros Hrun target_lang source_lang.
  unfold translate_with_libretranslate in Hrun.
  fold target_lang in Hrun.
  change (if str_eqb source_language (lit "auto") then lit "en"
          else _normalize_language_code source_language)
    with source_lang in Hrun.
  destruct (is_supported target_lang); cbn [negb] in *;
    [|simpl in Hrun; discriminate].
  destruct (is_supported source_lang); cbn [negb] in *;
    [|simpl in Hrun; discriminate].
  split; [reflexivity|]. split; [reflexivity|].
  unfold str_eqb in Hrun at 1. case_bool_decide as Hsame.
  - left. simpl in Hrun. injection Hrun as <- <-. auto.
  - right. split; [exact Hsame|]. cbn [run] in Hrun.
    destruct (libretranslate_server srv _ w) as [[data|e] w1]; simpl in Hrun;
      [|discriminate].
    destruct (lt_translatedText data) as [translated|] eqn:Htext;
      simpl in Hrun; [|discriminate].
    destruct (truthy (strip translated)) eqn:Htruthy; simpl in Hrun;
      [|discriminate].
    injection Hrun as <- <-.
    exists data, translated. split; [reflexivity|].
    split; [exact Htext|]. split; [|reflexivity].
    intros E. rewrite E in Htruthy. discriminate.
Qed.

(** X7. A request whose source and target are the same supported
    language, with "auto" counting as English, is answered by the text
    itself with confidence 100 as soon as MyMemory gives nothing: in
    particular every text sent with source "auto" and target English,
    whatever language it is written in. LibreTranslate is not
    contacted. *)
Theorem translate_same_language_echoes (self : service)
    (text source_language target_language : str) (w w1 : W)
    (o1 : outcome (option pydict)) :
  is_supported (_normalize_language_code target_language) = true ->
  libretranslate_source source_language
  = _normalize_language_code target_language ->
  run srv (translate_with_mymemory self text target_language
             source_language) w = (o1, w1) ->
  succeeded o1 = None ->
  run srv (translate self text source_language target_language) w
  = (result_dict text (_normalize_language_code target_language)
       (_normalize_language_code target_language) (lit "libretranslate")
       100 text,
     w1).
Proof.
  intros Hsupported Hsame Hrun Hfail.
  unfold translate. rewrite run_translate_with, Hrun, Hfail.
  unfold translate_with_libretranslate.
  change (if str_eqb source_language (lit "auto") then lit "en"
          else _normalize_language_code source_language)
    with (libretranslate_source source_language).
  rewrite Hsame, Hsupported. cbn [negb].
  unfold str_eqb at 1. rewrite bool_decide_eq_true_2 by reflexivity.
  cbn [run succeeded]. rewrite result_dict_truthy. reflexivity.
Qed.

(** ** The mock dictionary *)

Lemma normal_form_same (t1 t2 : str) :
  forallb is_ascii t1 = true -> forallb is_ascii t2 = true ->
  CacheFacts.same_but_case_and_margins t1 t2 ->
  strip (lower t1) = strip (lower t2).
Proof.
  intros A1 A2 (left1 & core1 & right1 & left2 & core2 & right2
                & -> & -> & Hl1 & Hr1 & Hl2 & Hr2 & Hcore).
  rewrite (CacheFacts.lower_ascii _ A1), (CacheFacts.lower_ascii _ A2),
    !map_app.
  rewrite !CacheFacts.strip_margins
    by (apply CacheFacts.blank_lower; assumption).
  rewrite Hcore. reflexivity.
Qed.

(** X8. The mock dictionary is looked up by the text in lower case and
    without the white space around it: two ASCII texts that differ only
    in that get the same answer, a translation or none, each with its
    own text as [original_text]. *)
Theorem mock_lookup_ignores_case_and_margins (self : service)
    (t1 t2 target_language : str) :
  forallb is_ascii t1 = true -> forallb is_ascii t2 = true ->
  CacheFacts.same_but_case_and_margins t1 t2 ->
  exists found : option str,
    let answer text :=
      Ret (Returned
             (option_map
                (fun translated_text =>
                   result_dict translated_text (lit "auto")
                     (_normalize_language_code target_language)
                     (lit "mock_indian") 60 text)
                found)) in
    translate_with_mock self t1 target_language = answer t1
    /\ translate_with_mock self t2 target_language = answer t2.
Proof.
  intros A1 A2 Hsame.
  destruct (enable_mock_fallback self) eqn:Hon.
  - exists (mock_entry (mock_translations self) (strip (lower t1))
              (_normalize_language_code target_language)).
    cbn zeta. split.
    + apply translate_with_mock_enabled, Hon.
    + rewrite (normal_form_same t1 t2 A1 A2 Hsame).
      apply translate_with_mock_enabled, Hon.
  - exists None. unfold translate_with_mock. rewrite Hon. auto.
Qed.

(** The eleven languages of the entries of the dictionary. *)
Definition mock_languages : list str :=
  map lit ["hi"; "ta"; "te"; "kn"; "ml"; "bn"; "gu"; "mr"; "pa"; "or";
           "as"]%string.

Definition mock_phrases : list str := map fst mock_translations_literal.

Lemma mock_table_complete :
  forallb
    (fun phrase =>
       forallb
         (fun language =>
            match mock_entry mock_translations_literal phrase language with
            | Some translated => truthy translated
            | None => false
            end)
         mock_languages)
    mock_phrases
  = true.
Proof. vm_compute. reflexivity. Qed.

(** X9. The dictionary of the source has an entry, not empty, for each
    of its 43 phrases in each of the eleven languages, and
    [translate_with_mock] finds it: for a text whose lower-case,
    stripped form is one of the phrases and a language code that
    [langcodes] leaves as it is, the provider returns that entry with
    service "mock_indian" and confidence 60. No two phrases of the
    literal are the same, so no entry hides another. *)
Theorem mock_serves_every_phrase_in_every_language (self : service)
    (text language : str) :
  enable_mock_fallback self = true ->
  mock_translations self = mock_translations_literal ->
  In (strip (lower text)) mock_phrases ->
  In language mock_languages ->
  _normalize_language_code language = language ->
  NoDup mock_phrases
  /\ exists translated,
       translated <> []
       /\ mock_entry mock_translations_literal (strip (lower text)) language
          = Some translated
       /\ translate_with_mock self text language
          = Ret (Returned (Some
              (result_dict translated (lit "auto") language
                 (lit "mock_indian") 60 text))).
Proof.
  intros Hon Htable Hphrase Hlanguage Hnorm.
  split.
  { apply (bool_decide_unpack _). vm_compute. exact I. }
  pose proof mock_table_complete as Hall.
  rewrite forallb_forall in Hall. specialize (Hall _ Hphrase).
  rewrite forallb_forall in Hall. specialize (Hall _ Hlanguage).
  destruct (mock_entry mock_translations_literal (strip (lower text))
              language) as [translated|] eqn:Hentry; [|discriminate].
  exists translated. split; [|split; [reflexivity|]].
  - intros ->. discriminate.
  - rewrite (translate_with_mock_enabled self text language Hon).
    rewrite Hnorm, Htable, Hentry. reflexivity.
Qed.

(** ** What a result is made of *)







(** ** Long texts: [_translate_single_chunk] *)







End Providers.
End ProviderFacts.
(* ===================================================================== *)
(** * The providers at work: examples *)
(* ===================================================================== *)

Module ProviderExamples.
Import PyStr Await TranslationServices CascadeFacts CascadeExamples
  ProviderFacts.

#[local] Existing Instance example_interp.




(** MyMemory cannot be reached; LibreTranslate answers "hola". *)
Definition hola_services : services (list http_request) :=
  Build_services
    (fun rq log => (Raised "ConnectError", log ++ [rq]))
    (fun rq log =>
       (Returned {| lt_translatedText := Some (lit "hola");
                    lt_detectedLanguage := None |},
        log ++ [rq])).

Definition hola_result : pydict :=
  result_dict (lit "hola") (lit "en") (lit "es") (lit "libretranslate") 80
    (lit "hello").

Lemma hola_run :
  run hola_services
    (translate_with_libretranslate example_service (lit "hello") (lit "es")
       (lit "auto")) []
  = (Returned (Some hola_result),
     [libretranslate_request example_service (lit "hello") (lit "en")
        (lit "es")]).
Proof. reflexivity. Qed.

Lemma libretranslate_result_shape_witness :
  is_supported (lit "es") = true
  /\ is_supported (lit "en") = true
  /\ ((lit "en" = lit "es"
       /\ [libretranslate_request example_service (lit "hello") (lit "en")
             (lit "es")] = []
       /\ hola_result
          = result_dict (lit "hello") (lit "en") (lit "es")
              (lit "libretranslate") 100 (lit "hello"))
      \/ (lit "en" <> lit "es"
          /\ exists data translated,
               libretranslate_server hola_services
                 (libretranslate_request example_service (lit "hello")
                    (lit "en") (lit "es")) []
               = (Returned data,
                  [libretranslate_request example_service (lit "hello")
                     (lit "en") (lit "es")])
               /\ lt_translatedText data = Some translated
               /\ strip translated <> []
               /\ hola_result
                  = result_dict translated (detected_or (lit "en") data)
                      (lit "es") (lit "libretranslate") 80 (lit "hello"))).
Proof.
  exact (libretranslate_result_shape hola_services example_service
           (lit "hello") (lit "es") (lit "auto") [] _ _ hola_run).
Defined.

Lemma mymemory_fails_vanakkam :
  run recording_services
    (translate_with_mymemory example_service (lit "vanakkam") (lit "en")
       (lit "auto")) []
  = (Returned None,
     [mymemory_request example_service (lit "vanakkam") (lit "auto")
        (lit "en")]).
Proof. vm_compute. reflexivity. Qed.

Lemma translate_same_language_echoes_witness :
  run recording_services
    (translate example_service (lit "vanakkam") (lit "auto") (lit "en")) []
  = (result_dict (lit "vanakkam") (lit "en") (lit "en")
       (lit "libretranslate") 100 (lit "vanakkam"),
     [mymemory_request example_service (lit "vanakkam") (lit "auto")
        (lit "en")]).
Proof.
  exact (translate_same_language_echoes recording_services example_service
           (lit "vanakkam") (lit "auto") (lit "en") [] _ _
           eq_refl eq_refl mymemory_fails_vanakkam eq_refl).
Defined.

Lemma hello_with_margins :
  CacheFacts.same_but_case_and_margins (lit "  Hello ") (lit "hello").
Proof.
  exists (lit "  "), (lit "Hello"), (lit " "), [], (lit "hello"), [].
  repeat split.
Qed.

Lemma mock_lookup_ignores_case_and_margins_witness :
  exists found : option str,
    let answer text :=
      Ret (Returned
             (option_map
                (fun translated_text =>
                   result_dict translated_text (lit "auto")
                     (_normalize_language_code (lit "ta"))
                     (lit "mock_indian") 60 text)
                found)) in
    translate_with_mock example_service (lit "  Hello ") (lit "ta")
    = answer (lit "  Hello ")
    /\ translate_with_mock example_service (lit "hello") (lit "ta")
       = answer (lit "hello").
Proof.
  exact (mock_lookup_ignores_case_and_margins example_service
           (lit "  Hello ") (lit "hello") (lit "ta")
           eq_refl eq_refl hello_with_margins).
Defined.

Lemma thank_you_is_a_phrase :
  In (strip (lower (lit "Thank You "))) mock_phrases.
Proof.
  apply list_elem_of_In, (bool_decide_unpack _). vm_compute. exact I.
Qed.

Lemma hindi_is_a_mock_language : In (lit "hi") mock_languages.
Proof.
  apply list_elem_of_In, (bool_decide_unpack _). vm_compute. exact I.
Qed.

Lemma mock_serves_every_phrase_in_every_language_witness :
  NoDup mock_phrases
  /\ exists translated,
       translated <> []
       /\ mock_entry mock_translations_literal
            (strip (lower (lit "Thank You "))) (lit "hi")
          = Some translated
       /\ translate_with_mock example_service (lit "Thank You ") (lit "hi")
          = Ret (Returned (Some
              (result_dict translated (lit "auto") (lit "hi")
                 (lit "mock_indian") 60 (lit "Thank You ")))).
Proof.
  exact (mock_serves_every_phrase_in_every_language example_service
           (lit "Thank You ") (lit "hi") eq_refl eq_refl
           thank_you_is_a_phrase hindi_is_a_mock_language eq_refl).
Defined.

End ProviderExamples.
(* ===================================================================== *)
(** * The cache in the running service *)
(* ===================================================================== *)

Module CacheService.
Import PyStr CacheManager CacheFacts.

Section CacheService.
Context `{Interp} `{Process}.

(** ** The round trip through Redis *)



(** ** The states the service reaches *)

(** The states of the cache manager in a running service: the one
    [__init__] builds, those after a [get] or a [set], and those in
    which the Redis server has changed in between, under other
    processes or by going down. *)
Inductive reachable : MultiLevelCache -> Prop :=
| reachable_init s t t2 e1 e2 server :
    reachable (init s t t2 e1 e2 server)
| reachable_get cm time h text target_language :
    reachable cm -> reachable (get cm time h text target_language).1.2
| reachable_set cm time h text target_language r :
    reachable cm -> reachable (set cm time h text target_language r).1.2
| reachable_redis cm client server :
    reachable cm -> redis_client cm = Some client ->
    reachable (with_redis cm server).

Lemma reachable_l1_empty cm : reachable cm -> l1_empty cm.
Proof.
  induction 1 as [s t t2 e1 e2 server|cm time h text tl _ IH
                 |cm time h text tl r _ IH|cm client server _ IH Hc].
  - apply init_l1_empty.
  - apply (l1_stays_empty cm time h text tl IH).
  - apply (l1_stays_empty cm time h text tl IH).
  - exact IH.
Qed.


(** X12. In a running service neither [get] nor [set] ever raises,
    whatever the Redis server does. When the command sent to Redis
    raises, [get] returns [None] and [set] returns without storing,
    both leaving the cache and the objects as they were; this is so
    for a server that cannot be reached, and, for [set], for a lifetime
    that Redis refuses. *)
Theorem get_and_set_never_raise (cm : MultiLevelCache) (time : Z) (h : heap)
    (text target_language : str) (translation_data : ref) :
  reachable cm ->
  let key := _generate_cache_key text target_language in
  (exists cached, (get cm time h text target_language).1.1 = Returned cached)
  /\ (set cm time h text target_language translation_data).1.1 = Returned tt
  /\ (forall client,
        redis_client cm = Some client ->
        (forall e,
           Redis.get time client key = Raised e ->
           get cm time h text target_language = (Returned None, cm, h))
        /\ (forall e,
              Redis.setex time client key (l2_cache_ttl cm)
                (default ∅ (h !! translation_data)) = Raised e ->
              set cm time h text target_language translation_data
              = (Returned tt, cm, h))
        /\ (Redis.reachable client = false ->
            get cm time h text target_language = (Returned None, cm, h)
            /\ set cm time h text target_language translation_data
               = (Returned tt, cm, h))
        /\ (l2_cache_ttl cm < 1 ->
            set cm time h text target_language translation_data
            = (Returned tt, cm, h))).
Proof.
  intros Hreach key. pose proof (reachable_l1_empty cm Hreach) as Hempty.
  rewrite (get_on_empty_l1 cm time h text target_language Hempty).
  rewrite (set_on_empty_l1 cm time h text target_language
             translation_data Hempty).
  fold key. rewrite (get_l2_on_empty_l1 cm time h key Hempty).
  split; [|split; [reflexivity|]].
  - destruct (redis_client cm) as [client|]; [|eauto].
    destruct (Redis.get time client key) as [[cached|]|e]; eauto.
  - intros client Hclient. unfold set_l2. rewrite Hclient.
    split; [intros e ->; reflexivity|].
    split; [intros e ->; reflexivity|].
    split.
    + intros Hdown. unfold Redis.get, Redis.setex. rewrite Hdown.
      split; reflexivity.
    + intros Httl. unfold Redis.setex.
      destruct (Redis.reachable client); [|reflexivity].
      destruct (Z.ltb_spec (l2_cache_ttl cm) 1); [reflexivity | lia].
Qed.

(** ** The statistics *)

(** X13. What [get_cache_stats] reports in a running service. L1 is
    reported with size 0 and also with maximal size 0, whatever
    [L1_CACHE_SIZE] is: both figures are under the test on the truth
    value of the cache, which holds nothing. L2 is reported as connected
    exactly when there is a client and both [info()] and [dbsize()]
    returned; when [info()] returned and [dbsize()] raised, the memory
    figure stays in the report of a cache that is not connected. *)
Theorem cache_stats_in_a_running_service (cm : MultiLevelCache) (time : Z)
    (info : outcome (option str)) (dbsize : outcome Z) :
  reachable cm ->
  let stats := get_cache_stats cm time info dbsize in
  l1_enabled stats = enable_l1 cm
  /\ l1_size stats = 0
  /\ l1_maxsize stats = 0
  /\ (l2_connected stats = true <->
      redis_client cm <> None
      /\ (exists used, info = Returned used)
      /\ (exists keys, dbsize = Returned keys))
  /\ (redis_client cm <> None ->
      forall used e,
        info = Returned used -> dbsize = Raised e ->
        l2_connected stats = false
        /\ l2_memory_used stats = Some (default (lit "N/A") used)
        /\ l2_total_keys stats = None).
Proof.
  intros Hreach stats. pose proof (reachable_l1_empty cm Hreach) as Hempty.
  assert (Hsize : l1_size stats = 0 /\ l1_maxsize stats = 0).
  { subst stats. unfold get_cache_stats.
    rewrite (l1_empty_falsy cm time Hempty).
    unfold l1_empty in Hempty.
    destruct (l1_cache cm) as [c|] eqn:Hc.
    - rewrite (truthy_empty_links time c Hempty).
      destruct (redis_client cm), info, dbsize; split; reflexivity.
    - destruct (redis_client cm), info, dbsize; split; reflexivity. }
  destruct Hsize as [Hsize Hmax].
  split.
  { subst stats. unfold get_cache_stats.
    destruct (redis_client cm), info, dbsize; reflexivity. }
  split; [exact Hsize|]. split; [exact Hmax|]. split.
  - subst stats. unfold get_cache_stats.
    destruct (redis_client cm) as [client|], info as [used|e],
      dbsize as [keys|e']; cbn [l2_connected]; split;
      try discriminate; try (intros (Hc & (u & Hu) & (k & Hk));
                             congruence).
    intros _. split; [discriminate|]. eauto.
  - intros Hclient used e -> ->. subst stats. unfold get_cache_stats.
    destruct (redis_client cm); [|congruence]. repeat split.
Qed.

End CacheService.
End CacheService.
Module CacheServiceExamples.
Import PyStr TranslationServices CacheManager CacheFacts CacheExamples
  CacheService.

#[local] Existing Instance example_interp.
#[local] Existing Instance example_process.

(** A cache as [__init__] builds it next to an empty Redis server that
    answers. *)
Definition empty_redis : Redis.t :=
  {| Redis.reachable := true; Redis.db := ∅ |}.

Definition cache_with_redis : MultiLevelCache :=
  init 1000 300 3600 true true (Some empty_redis).


(** The cache after the entry for "hello" has been stored: Redis holds
    it. *)
Definition cache_with_hello : MultiLevelCache :=
  (set cache_with_redis 0 warm_heap (lit "hello") (lit "ta") 0%nat).1.2.


(** Reading the entry back answers with a new object, the second of
    the heap. *)
Lemma hello_read_back :
  (get cache_with_hello 5 warm_heap (lit "hello") (lit "ta")).1.1
  = Returned (Some 1%nat).
Proof. vm_compute. reflexivity. Qed.


(** The same cache once the Redis server has gone down. *)
Definition down_redis : Redis.t :=
  {| Redis.reachable := false; Redis.db := ∅ |}.

Definition cache_with_redis_down : MultiLevelCache :=
  with_redis cache_with_redis down_redis.

Lemma cache_with_redis_down_reachable : reachable cache_with_redis_down.
Proof.
  apply (reachable_redis cache_with_redis empty_redis down_redis).
  - apply reachable_init.
  - reflexivity.
Qed.

Lemma get_and_set_never_raise_witness :
  get cache_with_redis_down 0 warm_heap (lit "hello") (lit "ta")
  = (Returned None, cache_with_redis_down, warm_heap)
  /\ set cache_with_redis_down 0 warm_heap (lit "hello") (lit "ta") 0%nat
     = (Returned tt, cache_with_redis_down, warm_heap).
Proof.
  destruct (get_and_set_never_raise cache_with_redis_down 0 warm_heap
              (lit "hello") (lit "ta") 0%nat cache_with_redis_down_reachable)
    as (_ & _ & Hredis).
  destruct (Hredis down_redis eq_refl) as (_ & _ & Hdown & _).
  exact (Hdown eq_refl).
Defined.

Lemma cache_stats_in_a_running_service_witness :
  let stats :=
    get_cache_stats cache_with_redis 0 (Returned None)
      (Raised "ConnectionError") in
  l1_enabled stats = enable_l1 cache_with_redis
  /\ l1_size stats = 0
  /\ l1_maxsize stats = 0
  /\ (l2_connected stats = true <->
      redis_client cache_with_redis <> None
      /\ (exists used, @Returned (option str) None = Returned used)
      /\ (exists keys, @Raised Z "ConnectionError" = Returned keys))
  /\ (redis_client cache_with_redis <> None ->
      forall used e,
        @Returned (option str) None = Returned used ->
        @Raised Z "ConnectionError" = Raised e ->
        l2_connected stats = false
        /\ l2_memory_used stats = Some (default (lit "N/A") used)
        /\ l2_total_keys stats = None).
Proof.
  apply (cache_stats_in_a_running_service cache_with_redis 0 (Returned None)
           (Raised "ConnectionError")).
  apply reachable_init.
Defined.

End CacheServiceExamples.
(* ===================================================================== *)
(** * The endpoints: counters, failures, and what the cache gives back *)
(* ===================================================================== *)

Module EndpointFacts.
Import PyStr Await TranslationServices CacheManager Main CascadeFacts
  TTLCacheFacts CacheFacts FrameFacts MainFacts ProviderFacts CacheService.

Section EndpointFacts.
Context `{Interp} `{Process} {W : Type} (srv : services W).

(** ** The counters of the batch loop *)

(** What one text adds to the counters: one cache hit or one call of
    the providers; the global counter is left alone inside the loop. *)
Lemma batch_item_counts svc request text clock b (w : W) o b' w' :
  run srv (batch_item svc request text clock b) w = ((o, b'), w') ->
  total_translations (state b') = total_translations (state b)
  /\ (o = Returned tt ->
      (cache_hits b' = cache_hits b + 1 /\ api_calls b' = api_calls b)
      \/ (cache_hits b' = cache_hits b /\ api_calls b' = api_calls b + 1)).
Proof.
  unfold batch_item.
  destruct (get (cache_manager (state b)) (at_get clock) (objects (state b))
              text (BatchTranslationRequest.target_language request))
    as [[og cm1] h1].
  destruct og as [cached|e].
  - destruct (ref_truthy h1 cached) eqn:Et.
    + destruct cached as [res|]; [|rewrite ref_truthy_None in Et; discriminate].
      simpl. intros [= <- <- <-]. simpl. auto.
    + unfold batch_item_fresh. rewrite run_bind.
      destruct (run srv (translate svc _ _ _) w) as [d w1].
      unfold alloc.
      destruct (set cm1 (at_set clock) _ text _ (length h1))
        as [[os cm2] h3].
      destruct os as [[]|e]; simpl; intros [= <- <- <-]; simpl.
      * auto.
      * split; [reflexivity | discriminate].
  - simpl. intros [= <- <- <-]. simpl. split; [reflexivity | discriminate].
Qed.

Lemma batch_loop_counts svc request texts clocks :
  forall i b (w : W) b' w',
    run srv (batch_loop svc request texts clocks i b) w
    = ((Returned tt, b'), w') ->
    total_translations (state b') = total_translations (state b)
    /\ cache_hits b <= cache_hits b'
    /\ api_calls b <= api_calls b'
    /\ cache_hits b' + api_calls b'
       = cache_hits b + api_calls b + Z.of_nat (length texts)
    /\ length (results b') = (length (results b) + length texts)%nat.
Proof.
  induction texts as [|text rest IH]; intros i b w b' w'.
  - simpl. intros [= <- <-]. repeat split; lia.
  - cbn [batch_loop]. rewrite run_bind.
    destruct (run srv (batch_item svc request text (clocks i) b) w)
      as [[o1 b1] w1] eqn:E1.
    destruct (batch_item_counts _ _ _ _ _ _ _ _ _ E1) as (T1 & C1).
    destruct (batch_item_changes srv _ _ _ _ _ _ _ _ _ E1) as (_ & _ & R1).
    destruct o1 as [[]|e]; [|simpl; discriminate].
    intros Hrest. destruct (IH _ _ _ _ _ Hrest) as (T2 & H2 & A2 & C2 & L2).
    destruct (R1 eq_refl) as (new & Hnew). rewrite Hnew, length_app in L2.
    cbn [length] in *.
    destruct (C1 eq_refl) as [[Hh Ha]|[Hh Ha]]; repeat split; lia.
Qed.

(** A response counts as successful when its [error] is missing or
    empty. *)
Definition response_without_error (response : TranslationResponse.t) : bool :=
  match TranslationResponse.error response with
  | Some (_ :: _) => false
  | _ => true
  end.

Lemma response_of_without_error (h : heap) result response :
  response_of h result = Returned response ->
  response_without_error response = without_error h result.
Proof.
  unfold response_of, without_error, response_without_error, dict_get.
  set (d := default ∅ (h !! result)).
  unfold TranslationResponse.of_dict, TranslationResponse.and_then.
  destruct (TranslationResponse.required_str d "translated_text");
    [|discriminate].
  destruct (TranslationResponse.required_str d "source_language");
    [|discriminate].
  destruct (TranslationResponse.required_str d "target_language");
    [|discriminate].
  destruct (TranslationResponse.required_str d "service"); [|discriminate].
  destruct (TranslationResponse.confidence_field d); [|discriminate].
  destruct (TranslationResponse.required_str d "original_text");
    [|discriminate].
  destruct (TranslationResponse.optional_str d "cache_level");
    [|discriminate].
  destruct (TranslationResponse.optional_float d "processing_time_ms");
    [|discriminate].
  unfold TranslationResponse.optional_str.
  destruct (d !! "error") as [[|s|z|x]|]; try discriminate;
    intros [= <-]; simpl; try reflexivity.
  destruct s; reflexivity.
Qed.

Lemma responses_of_counts (h : heap) results :
  forall responses,
    responses_of h results = Returned responses ->
    length responses = length results
    /\ length (List.filter response_without_error responses)
       = length (List.filter (without_error h) results).
Proof.
  induction results as [|result rest IH]; intros responses; simpl.
  - intros [= <-]. split; reflexivity.
  - destruct (response_of h result) as [response|e] eqn:E; [|discriminate].
    destruct (responses_of h rest) as [responses'|e]; [|discriminate].
    intros [= <-]. destruct (IH responses' eq_refl) as [Hl Hf].
    simpl. rewrite (response_of_without_error h result response E).
    split; [lia|]. destruct (without_error h result); simpl; lia.
Qed.

Lemma minimals_of_length (h : heap) results :
  forall responses,
    minimals_of h results = Returned responses ->
    length responses = length results.
Proof.
  induction results as [|result rest IH]; intros responses; simpl.
  - intros [= <-]. reflexivity.
  - destruct (minimal_of h result) as [response|e]; [|discriminate].
    destruct (minimals_of h rest) as [responses'|e]; [|discriminate].
    intros [= <-]. simpl. rewrite (IH responses' eq_refl). reflexivity.
Qed.

(** X14. The figures of an answer of [POST /translate/batch]. Whenever
    the endpoint answers, [total_count] is the number of texts of the
    request, cache hits and provider calls add up to it, and so do
    [successful_count] and [failed_count]; the full answer has one
    result per text and [successful_count] of them have no error or an
    empty one; the minimal answer lists exactly [successful_count]
    results. The global counter grows by the number of texts, cache
    hits included. *)
Theorem batch_answer_counts (svc : service)
    (request : BatchTranslationRequest.t) (minimal : bool)
    (clocks : nat -> timing) (total : pynumber) (st st' : app) (w : W)
    (answer : BatchTranslationResponse + MinimalBatchTranslationResponse) :
  (run srv (Main.translate_batch svc request minimal clocks total st) w).1
  = (Returned answer, st') ->
  let n := Z.of_nat (length (BatchTranslationRequest.texts request)) in
  total_translations st' = total_translations st + n
  /\ match answer with
     | inl full =>
       minimal = false
       /\ Z.of_nat (length (full_results full)) = n
       /\ total_count full = n
       /\ 0 <= response_cache_hits full
       /\ 0 <= response_api_calls full
       /\ response_cache_hits full + response_api_calls full = n
       /\ successful_count full
          = Z.of_nat
              (length
                 (List.filter response_without_error (full_results full)))
       /\ successful_count full + failed_count full = n
     | inr short =>
       minimal = true
       /\ minimal_total_count short = n
       /\ Z.of_nat (length (minimal_results short))
          = minimal_successful_count short
       /\ 0 <= minimal_successful_count short <= n
       /\ minimal_successful_count short + minimal_failed_count short = n
     end.
Proof.
  unfold Main.translate_batch. rewrite run_bind.
  destruct (run srv (batch_loop svc request _ clocks 0 _) w)
    as [[o b] w1] eqn:Eloop.
  destruct o as [[]|e]; [|simpl; discriminate].
  destruct (batch_loop_counts _ _ _ _ _ _ _ _ _ Eloop)
    as (Ht & Hh & Ha & Hc & Hl).
  cbn [results cache_hits api_calls state length] in *.
  pose proof (filter_length_le (without_error (objects (state b)))
                (results b)) as Hle.
  destruct minimal.
  - destruct (minimals_of _ _) as [minimal_results|e] eqn:Em;
      [|simpl; discriminate].
    simpl. intros [= <- <-]. cbn zeta. simpl.
    rewrite (minimals_of_length _ _ _ Em).
    repeat split; lia.
  - destruct (responses_of _ _) as [responses|e] eqn:Er;
      [|simpl; discriminate].
    simpl. intros [= <- <-]. cbn zeta. simpl.
    destruct (responses_of_counts _ _ _ Er) as [Hlr Hfr].
    rewrite Hlr, Hfr. repeat split; lia.
Qed.

(** ** The response built from an object *)


Ltac lookups :=
  repeat first [rewrite lookup_insert_eq
               | rewrite lookup_insert_ne by discriminate
               | rewrite lookup_singleton_eq].


Lemma of_dict_cache_level (d : pydict) (r : TranslationResponse.t) :
  TranslationResponse.of_dict d = Returned r ->
  TranslationResponse.optional_str d "cache_level"
  = Returned (TranslationResponse.cache_level r).
Proof.
  unfold TranslationResponse.of_dict, TranslationResponse.and_then.
  destruct (TranslationResponse.required_str d "translated_text");
    [|discriminate].
  destruct (TranslationResponse.required_str d "source_language");
    [|discriminate].
  destruct (TranslationResponse.required_str d "target_language");
    [|discriminate].
  destruct (TranslationResponse.required_str d "service"); [|discriminate].
  destruct (TranslationResponse.confidence_field d); [|discriminate].
  destruct (TranslationResponse.required_str d "original_text");
    [|discriminate].
  destruct (TranslationResponse.optional_str d "cache_level");
    [|discriminate].
  destruct (TranslationResponse.optional_float d "processing_time_ms");
    [|discriminate].
  destruct (TranslationResponse.optional_str d "error"); [|discriminate].
  intros [= <-]. reflexivity.
Qed.

Lemma of_dict_empty : exists e, TranslationResponse.of_dict ∅ = Raised e.
Proof. eexists. reflexivity. Qed.






(** ** Objects after an assignment *)

Lemma dict_setitem_lookup_fmap (h : heap) r k v :
  dict_setitem h r k v !! r = <[k := v]> <$> (h !! r).
Proof.
  unfold dict_setitem. destruct (h !! r) as [d|] eqn:E.
  - rewrite list_lookup_insert_eq by (apply lookup_lt_Some in E; exact E).
    reflexivity.
  - rewrite E. reflexivity.
Qed.

(** The object a hit of [get] returns carries the level it came from. *)
Lemma get_l2_tags cm time h k res cm' h' :
  get_l2 cm time h k = (Returned (Some res), cm', h') ->
  exists d, h' !! res = Some (<["cache_level" := VStr (lit "L2")]> d).
Proof.
  unfold get_l2. destruct (redis_client cm) as [client|]; [|discriminate].
  destruct (Redis.get time client k) as [[cached|]|e]; try discriminate.
  unfold alloc.
  assert (Hnew : dict_setitem (h ++ [cached]) (length h) "cache_level"
                   (VStr (lit "L2")) !! length h
                 = Some (<["cache_level" := VStr (lit "L2")]> cached))
    by apply dict_setitem_lookup_new.
  destruct (l1_cache cm) as [c|].
  - destruct (TTLCache.truthy time c).
    + destruct (TTLCache.setitem time c k (length h)); [|discriminate].
      intros [= <- <- <-]. eauto.
    + intros [= <- <- <-]. eauto.
  - intros [= <- <- <-]. eauto.
Qed.

Lemma get_tags cm time h text target_language res cm' h' :
  get cm time h text target_language = (Returned (Some res), cm', h') ->
  h' !! res = None
  \/ exists d level,
       h' !! res = Some (<["cache_level" := VStr level]> d)
       /\ (level = lit "L1" \/ level = lit "L2").
Proof.
  unfold get. remember (_generate_cache_key text target_language) as k.
  assert (Hl2 : get_l2 cm time h k = (Returned (Some res), cm', h') ->
                h' !! res = None
                \/ exists d level,
                     h' !! res = Some (<["cache_level" := VStr level]> d)
                     /\ (level = lit "L1" \/ level = lit "L2")).
  { intros E. destruct (get_l2_tags _ _ _ _ _ _ _ E) as (d & Hd).
    right. exists d, (lit "L2"). auto. }
  destruct (l1_cache cm) as [c|]; [|exact Hl2].
  destruct (TTLCache.truthy time c && TTLCache.contains time c k);
    [|exact Hl2].
  destruct (TTLCache.getitem time c k) as [[r c']|e]; [|discriminate].
  intros [= <- <- <-]. rewrite dict_setitem_lookup_fmap.
  destruct (h !! r) as [d|]; [|left; reflexivity].
  right. exists d, (lit "L1"). auto.
Qed.

(** ** The global counter under [POST /translate] *)

(** X15. What [POST /translate] counts. Whenever the endpoint answers,
    either the response has no cache level: then it is a fresh
    translation, the global counter has grown by one and one task for
    the database has been handed over; or the response has the cache
    level "L1" or "L2": then the counter and the tasks are as before.
    ([POST /translate/batch] counts every text, hits included: X14.) *)
Theorem translate_counts_fresh_translations_only (svc : service)
    (request : TranslationRequest.t) (clock : timing) (st st' : app) (w : W)
    (response : TranslationResponse.t) :
  (run srv (translate_text svc request clock st) w).1
  = (Returned response, st') ->
  (TranslationResponse.cache_level response = None
   /\ total_translations st' = total_translations st + 1
   /\ exists result,
        background_tasks st'
        = background_tasks st ++ [(TranslationRequest.text request, result)])
  \/ ((TranslationResponse.cache_level response = Some (lit "L1")
       \/ TranslationResponse.cache_level response = Some (lit "L2"))
      /\ total_translations st' = total_translations st
      /\ background_tasks st' = background_tasks st).
Proof.
  unfold translate_text.
  destruct (get (cache_manager st) (at_get clock) (objects st)
              (TranslationRequest.text request)
              (TranslationRequest.target_language request))
    as [[og cm1] h1] eqn:Eg.
  destruct og as [cached|e]; [|simpl; discriminate].
  destruct (ref_truthy h1 cached) eqn:Et.
  - destruct cached as [res|]; [|simpl; discriminate].
    simpl. intros [= Hresp <-]. right. simpl.
    split; [|split; reflexivity].
    unfold response_of in Hresp. rewrite dict_setitem_lookup_fmap in Hresp.
    destruct (get_tags _ _ _ _ _ _ _ _ Eg) as [Hnone|(d & lv & Hd & Hlv)].
    { unfold ref_truthy in Et. rewrite Hnone in Et. discriminate Et. }
    rewrite Hd in Hresp. cbn [fmap option_fmap option_map default from_option id] in Hresp.
    destruct (TranslationResponse.of_dict _) as [r|e] eqn:Eof;
      [|discriminate].
    injection Hresp as <-.
    apply of_dict_cache_level in Eof.
    unfold TranslationResponse.optional_str in Eof.
    revert Eof. lookups. intros [= <-].
    destruct Hlv as [-> | ->]; auto.
  - unfold translate_text_fresh. rewrite run_bind.
    destruct (run srv (translate svc _ _ _) w) as [d w1].
    unfold alloc.
    destruct (set cm1 (at_set clock) (h1 ++ [d])
                (TranslationRequest.text request)
                (TranslationRequest.target_language request) (length h1))
      as [[os cm2] h2].
    destruct os as [[]|e]; [|simpl; discriminate].
    simpl. intros [= Hresp <-]. left. simpl.
    split; [|split; [reflexivity | eauto]].
    unfold response_of in Hresp.
    rewrite !dict_setitem_lookup_fmap in Hresp.
    destruct (h2 !! length h1) as [d2|].
    + cbn [fmap option_fmap option_map default from_option id] in Hresp.
      destruct (TranslationResponse.of_dict _) as [r|e] eqn:Eof;
        [|discriminate].
      injection Hresp as <-.
      apply of_dict_cache_level in Eof.
      unfold TranslationResponse.optional_str in Eof.
      revert Eof. lookups. intros [= <-]. reflexivity.
    + cbn [fmap option_fmap option_map default from_option id] in Hresp.
      destruct of_dict_empty as (e & He). rewrite He in Hresp.
      discriminate Hresp.
Qed.

(** ** [POST /translate] after a miss *)



(** ** What Redis gives back to the next request *)



End EndpointFacts.
End EndpointFacts.
Module EndpointExamples.
Import PyStr Await TranslationServices CacheManager Main CascadeFacts
  CascadeExamples CacheFacts CacheExamples FrameFacts MainFacts
  BatchExamples ProviderFacts CacheService CacheServiceExamples EndpointFacts.

#[local] Existing Instance example_interp.
#[local] Existing Instance example_process.

(** A batch of two texts, asked for in the minimal form: the first is in
    the mock dictionary, the second is not, and no remote provider can
    be reached. *)
Definition mixed_batch : BatchTranslationRequest.t :=
  {| BatchTranslationRequest.texts := [lit "hello"; lit "bonjour"];
     BatchTranslationRequest.target_language := lit "en";
     BatchTranslationRequest.source_language := lit "ta" |}.

Lemma mixed_batch_answer :
  match
    (run recording_services
       (Main.translate_batch example_service mixed_batch true
          example_clocks 7 new_app) []).1
  with
  | (Returned (inr short), _) =>
    minimal_successful_count short = 1 /\ minimal_failed_count short = 1
  | _ => False
  end.
Proof. vm_compute. split; reflexivity. Qed.

Lemma batch_answer_counts_witness :
  exists short st',
    (run recording_services
       (Main.translate_batch example_service mixed_batch true
          example_clocks 7 new_app) []).1
    = (Returned (inr short), st')
    /\ total_translations st' = total_translations new_app + 2
    /\ true = true
    /\ minimal_total_count short = 2
    /\ Z.of_nat (length (minimal_results short))
       = minimal_successful_count short
    /\ 0 <= minimal_successful_count short <= 2
    /\ minimal_successful_count short + minimal_failed_count short = 2.
Proof.
  pose proof mixed_batch_answer as Hanswer.
  destruct (run recording_services
              (Main.translate_batch example_service mixed_batch true
                 example_clocks 7 new_app) []).1
    as [[[full|short]|e] st'] eqn:Hrun; try contradiction.
  exists short, st'. split; [reflexivity|].
  exact (batch_answer_counts recording_services example_service mixed_batch
           true example_clocks 7 new_app st' [] (inr short) Hrun).
Defined.

Lemma bonjour_answer :
  match
    (run recording_services
       (translate_text example_service bonjour_request example_clock
          new_app) []).1
  with
  | (Returned response, _) =>
    TranslationResponse.cache_level response = None
  | _ => False
  end.
Proof. vm_compute. reflexivity. Qed.

Lemma translate_counts_fresh_translations_only_witness :
  exists response st',
    (run recording_services
       (translate_text example_service bonjour_request example_clock
          new_app) []).1
    = (Returned response, st')
    /\ ((TranslationResponse.cache_level response = None
         /\ total_translations st' = total_translations new_app + 1
         /\ exists result,
              background_tasks st'
              = background_tasks new_app
                ++ [(TranslationRequest.text bonjour_request, result)])
        \/ ((TranslationResponse.cache_level response = Some (lit "L1")
             \/ TranslationResponse.cache_level response = Some (lit "L2"))
            /\ total_translations st' = total_translations new_app
            /\ background_tasks st' = background_tasks new_app)).
Proof.
  pose proof bonjour_answer as Hanswer.
  destruct (run recording_services
              (translate_text example_service bonjour_request example_clock
                 new_app) []).1
    as [[response|e] st'] eqn:Hrun; try contradiction.
  exists response, st'. split; [reflexivity|].
  exact (translate_counts_fresh_translations_only recording_services
           example_service bonjour_request example_clock new_app st' []
           response Hrun).
Defined.

(** MyMemory answers the request for "hello" with one match of
    quality 150. *)
Definition overconfident_answer : mymemory_data :=
  {| responseStatus := Some 200;
     matches :=
       [{| segment := lit "hello"; translation := lit "வணக்கம்";
           quality := 150 |}];
     responseData := None |}.

Definition overconfident_services : services (list http_request) :=
  Build_services
    (fun rq log => (Returned overconfident_answer, log ++ [rq]))
    (fun rq log => (Raised "ConnectError", log ++ [rq])).

Definition hello_request : TranslationRequest.t :=
  {| TranslationRequest.text := lit "hello";
     TranslationRequest.target_language := lit "en";
     TranslationRequest.source_language := lit "ta" |}.



(** The request with the error 500 it gets. *)
Lemma overconfident_answer_is_refused :
  match
    (run overconfident_services
       (translate_text example_service hello_request example_clock new_app)
       []).1
  with
  | (Raised _, st') => total_translations st' = 1
  | _ => False
  end.
Proof. vm_compute. reflexivity. Qed.

(** The application next to an empty Redis server that answers. *)
Definition app_with_redis : app :=
  {| cache_manager := cache_with_redis; objects := [];
     total_translations := 0; background_tasks := [] |}.






End EndpointExamples.
(* ===================================================================== *)
(** * The validators of the request models *)
(* ===================================================================== *)

(** ** [str.strip()] *)

Module StripFacts.
Import PyStr CacheFacts.

Lemma lstrip_split (s : str) :
  exists margin, s = margin ++ lstrip s /\ blank margin.
Proof.
  induction s as [|c s (margin & E & B)]; simpl.
  - exists []. split; reflexivity.
  - destruct (isspace c) eqn:Ec.
    + exists (c :: margin). split; [simpl; f_equal; exact E|].
      unfold blank in *. simpl. rewrite Ec, B. reflexivity.
    + exists []. split; reflexivity.
Qed.

Lemma lstrip_head (s : str) c r : lstrip s = c :: r -> isspace c = false.
Proof.
  induction s as [|a s IH]; simpl; [discriminate|].
  destruct (isspace a) eqn:Ea; [exact IH|].
  intros [= <- <-]. exact Ea.
Qed.

Lemma lstrip_fixed (s : str) :
  (forall c r, s = c :: r -> isspace c = false) -> lstrip s = s.
Proof.
  destruct s as [|c r]; simpl; [reflexivity|].
  intros Hc. rewrite (Hc c r eq_refl). reflexivity.
Qed.

Lemma lstrip_idem (s : str) : lstrip (lstrip s) = lstrip s.
Proof. apply lstrip_fixed. intros c r E. exact (lstrip_head s c r E). Qed.

Lemma rstrip_split (s : str) :
  exists margin, s = rstrip s ++ margin /\ blank margin.
Proof.
  destruct (lstrip_split (rev s)) as (margin & E & B).
  exists (rev margin). split; [|apply blank_rev, B].
  unfold rstrip. rewrite <- rev_app_distr, <- E, rev_involutive.
  reflexivity.
Qed.

Lemma rstrip_last (s : str) r c : rstrip s = r ++ [c] -> isspace c = false.
Proof.
  unfold rstrip. intros E. apply (f_equal (@rev N)) in E.
  rewrite rev_involutive, rev_app_distr in E. simpl in E.
  exact (lstrip_head _ _ _ E).
Qed.

Lemma rstrip_idem (s : str) : rstrip (rstrip s) = rstrip s.
Proof. unfold rstrip. rewrite rev_involutive, lstrip_idem. reflexivity. Qed.

(** What [strip] removes is white space, on both sides. *)
Lemma strip_split (s : str) :
  exists left_ right_,
    s = left_ ++ strip s ++ right_ /\ blank left_ /\ blank right_.
Proof.
  destruct (lstrip_split s) as (left_ & El & Bl).
  destruct (rstrip_split (lstrip s)) as (right_ & Er & Br).
  exists left_, right_. unfold strip. rewrite <- Er. auto.
Qed.

Lemma strip_first (s : str) c r : strip s = c :: r -> isspace c = false.
Proof.
  unfold strip. intros E.
  destruct (rstrip_split (lstrip s)) as (margin & Es & _).
  rewrite E in Es. exact (lstrip_head s c (r ++ margin) Es).
Qed.

Lemma strip_last (s : str) r c : strip s = r ++ [c] -> isspace c = false.
Proof. unfold strip. apply rstrip_last. Qed.

Lemma strip_idem (s : str) : strip (strip s) = strip s.
Proof.
  unfold strip at 1.
  rewrite (lstrip_fixed (strip s)) by (intros c r E; exact (strip_first s c r E)).
  unfold strip. apply rstrip_idem.
Qed.

Lemma strip_blank (s : str) : blank s -> strip s = [].
Proof. intros B. unfold strip. rewrite (lstrip_blank s B). reflexivity. Qed.

Lemma strip_not_blank (s : str) : forallb isspace s = false -> strip s <> [].
Proof.
  intros Hs E. destruct (strip_split s) as (left_ & right_ & Es & Bl & Br).
  rewrite E in Es. rewrite Es, forallb_app in Hs. simpl in Hs.
  unfold blank in *. rewrite Bl, Br in Hs. discriminate.
Qed.

Lemma length_strip (s : str) : (length (strip s) <= length s)%nat.
Proof.
  destruct (strip_split s) as (left_ & right_ & Es & _).
  rewrite Es at 2. rewrite !length_app. lia.
Qed.

Lemma In_strip (s : str) c : In c (strip s) -> In c s.
Proof.
  destruct (strip_split s) as (left_ & right_ & Es & _).
  intros Hin. rewrite Es. apply in_or_app. right. apply in_or_app. left.
  exact Hin.
Qed.

End StripFacts.

Module ValidatorFacts.
Import PyStr CacheFacts StripFacts.

Section ValidatorFacts.
Context `{Interp} `{Unicodedata}.

(** The test [not v or v.isspace()]: the text is empty or made of white
    space only. *)
Lemma empty_or_isspace (v : str) :
  negb (truthy v) || str_isspace v = forallb isspace v.
Proof. destruct v; reflexivity. Qed.

(** X18. [validate_text] refuses exactly the texts that are empty or
    made of white space only. A text it accepts is kept without the
    white space around it: what it returns is not empty, is not longer
    than the text, has no white space at either end, and is accepted
    unchanged when validated again. *)
Theorem validate_text_keeps_the_stripped_text (v : str) :
  match TranslationRequest.validate_text v with
  | Returned t =>
    forallb isspace v = false
    /\ t = strip v
    /\ t <> []
    /\ len t <= len v
    /\ (forall c r, t = c :: r -> isspace c = false)
    /\ (forall r c, t = r ++ [c] -> isspace c = false)
    /\ TranslationRequest.validate_text t = Returned t
  | Raised _ => forallb isspace v = true
  end.
Proof.
  unfold TranslationRequest.validate_text. rewrite empty_or_isspace.
  destruct (forallb isspace v) eqn:Hv; [reflexivity|].
  pose proof (strip_not_blank v Hv) as Hne.
  split; [reflexivity|]. split; [reflexivity|]. split; [exact Hne|].
  split; [unfold len; pose proof (length_strip v); lia|].
  split; [intros c r E; exact (strip_first v c r E)|].
  split; [intros r c E; exact (strip_last v r c E)|].
  rewrite empty_or_isspace.
  destruct (forallb isspace (strip v)) eqn:Hs.
  - destruct (strip v) as [|c r] eqn:E; [congruence|].
    pose proof (strip_first v c r E) as Hc. simpl in Hs.
    rewrite Hc in Hs. discriminate.
  - rewrite strip_idem. reflexivity.
Qed.

(** ** [validate_texts] *)

(** A text the loop lets through: not blank and within the limit. *)
Definition acceptable (max_text_length : Z) (text : str) : bool :=
  negb (forallb isspace text) && (len text <=? max_text_length).

(** The message for the text of index [i] that is refused. *)
Definition refusal (max_text_length : Z) (i : Z) (text : str) : string :=
  if forallb isspace text then
    message [lit "ValueError: Text at index "; of_int i;
             lit " cannot be empty or only whitespace"]
  else
    message [lit "ValueError: Text at index "; of_int i;
             lit " exceeds maximum length of "; of_int max_text_length;
             lit " characters"].

Lemma validate_texts_from_accepts max_text_length v :
  Forall (fun text => acceptable max_text_length text = true) v ->
  forall i validated_texts,
    BatchTranslationRequest.validate_texts_from max_text_length i v
      validated_texts
    = Returned (validated_texts ++ map strip v).
Proof.
  induction 1 as [|text rest Htext _ IH]; intros i acc; simpl.
  - rewrite app_nil_r. reflexivity.
  - rewrite empty_or_isspace. unfold acceptable in Htext.
    apply andb_true_iff in Htext as [Hb Hl].
    apply negb_true_iff in Hb. rewrite Hb.
    destruct (Z.ltb_spec max_text_length (len text)) as [Hlt|_];
      [apply Z.leb_le in Hl; lia|].
    rewrite IH, <- app_assoc. reflexivity.
Qed.

Lemma validate_texts_from_refuses max_text_length good bad rest :
  Forall (fun text => acceptable max_text_length text = true) good ->
  acceptable max_text_length bad = false ->
  forall i validated_texts,
    BatchTranslationRequest.validate_texts_from max_text_length i
      (good ++ bad :: rest) validated_texts
    = Raised (refusal max_text_length (i + Z.of_nat (length good)) bad).
Proof.
  induction 1 as [|text good Htext _ IH]; intros Hbad i acc; simpl.
  - rewrite empty_or_isspace, Z.add_0_r. unfold refusal, acceptable in *.
    destruct (forallb isspace bad); [reflexivity|]. simpl in Hbad.
    apply Z.leb_gt in Hbad.
    destruct (Z.ltb_spec max_text_length (len bad)); [reflexivity | lia].
  - rewrite empty_or_isspace. unfold acceptable in Htext.
    apply andb_true_iff in Htext as [Hb Hl].
    apply negb_true_iff in Hb. rewrite Hb.
    destruct (Z.ltb_spec max_text_length (len text)) as [Hlt|_];
      [apply Z.leb_le in Hl; lia|].
    rewrite (IH Hbad). do 2 f_equal. lia.
Qed.

(** X19. [validate_texts] on a list [v]. An empty list is refused. When
    every text is neither blank nor longer than [MAX_TEXT_LENGTH], the
    result is the list of the stripped texts, in the same order and of
    the same length. Otherwise the call raises for the first text that
    is blank or too long, and the message names its index (a blank text
    is reported as blank even when it is also too long). *)
Theorem validate_texts_strips_or_names_the_first_bad_text
    (max_text_length : Z) (v : list str) :
  (v = [] ->
   BatchTranslationRequest.validate_texts max_text_length v
   = Raised "ValueError: Texts list cannot be empty")
  /\ (v <> [] ->
      Forall (fun text => acceptable max_text_length text = true) v ->
      BatchTranslationRequest.validate_texts max_text_length v
      = Returned (map strip v))
  /\ (forall good bad rest,
        v = good ++ bad :: rest ->
        Forall (fun text => acceptable max_text_length text = true) good ->
        acceptable max_text_length bad = false ->
        BatchTranslationRequest.validate_texts max_text_length v
        = Raised (refusal max_text_length (Z.of_nat (length good)) bad)).
Proof.
  split; [intros ->; reflexivity|]. split.
  - intros Hne Hall. destruct v as [|text rest]; [congruence|].
    unfold BatchTranslationRequest.validate_texts.
    apply (validate_texts_from_accepts max_text_length _ Hall 0 []).
  - intros good bad rest -> Hgood Hbad.
    unfold BatchTranslationRequest.validate_texts.
    destruct (good ++ bad :: rest) eqn:E;
      [destruct good; discriminate|].
    rewrite <- E.
    apply (validate_texts_from_refuses max_text_length good bad rest Hgood
             Hbad 0 []).
Qed.

(** ** [validate_language_codes] *)

(** A character of a normalized ASCII code: a small letter, a digit or
    a hyphen. *)
Definition code_character (c : N) : bool :=
  ((0x61 <=? c) && (c <=? 0x7A) || (0x30 <=? c) && (c <=? 0x39)
   || (c =? 0x2D))%N.

Lemma ascii_lower_is_ascii c : is_ascii c = true -> is_ascii (ascii_lower c) = true.
Proof.
  unfold is_ascii, ascii_lower. intros Hc. apply N.ltb_lt in Hc.
  destruct ((65 <=? c)%N && (c <=? 90)%N) eqn:E; apply N.ltb_lt; [|lia].
  apply andb_true_iff in E as [_ E]. apply N.leb_le in E. lia.
Qed.

Lemma ascii_lower_not_upper c :
  ((0x41 <=? ascii_lower c) && (ascii_lower c <=? 0x5A))%N = false.
Proof.
  unfold ascii_lower.
  destruct ((65 <=? c)%N && (c <=? 90)%N) eqn:E.
  - apply andb_true_iff in E as [E1 E2].
    apply N.leb_le in E1, E2. apply andb_false_iff. right.
    apply N.leb_gt. lia.
  - exact E.
Qed.

Lemma code_character_of_lower c :
  is_ascii c = true ->
  isalnum (ascii_lower c) || (ascii_lower c =? 0x2D)%N = true ->
  code_character (ascii_lower c) = true
  /\ ascii_lower (ascii_lower c) = ascii_lower c
  /\ is_ascii (ascii_lower c) = true.
Proof.
  intros Hc Hok. pose proof (ascii_lower_is_ascii c Hc) as Hl.
  pose proof (ascii_lower_not_upper c) as Hu.
  split; [|split; [|exact Hl]].
  - unfold isalnum in Hok. rewrite Hl in Hok. unfold code_character.
    destruct ((48 <=? ascii_lower c)%N && (ascii_lower c <=? 57)%N);
      destruct ((97 <=? ascii_lower c)%N && (ascii_lower c <=? 122)%N);
      simpl in *; try reflexivity.
    rewrite Hu in Hok. exact Hok.
  - unfold ascii_lower at 1. rewrite Hu. reflexivity.
Qed.

Lemma Forall_strip (P : N -> Prop) (s : str) :
  Forall P s -> Forall P (strip s).
Proof.
  intros Hs. apply Forall_forall. intros c Hin.
  rewrite Forall_forall in Hs. apply Hs.
  apply list_elem_of_In, In_strip, list_elem_of_In, Hin.
Qed.

(** X20. [validate_language_codes] on an ASCII value. A code it accepts
    comes back in lower case and without the white space around it: it
    has between 2 and 10 characters, each a small letter, a digit or a
    hyphen, and validating it again returns it unchanged. *)
Theorem validate_language_codes_normalizes (v c : str) :
  forallb is_ascii v = true ->
  TranslationRequest.validate_language_codes v = Returned c ->
  (c = v \/ c = strip (map ascii_lower v))
  /\ 2 <= len c <= 10
  /\ forallb code_character c = true
  /\ TranslationRequest.validate_language_codes c = Returned c.
Proof.
  intros Hascii. unfold TranslationRequest.validate_language_codes at 1.
  case_bool_decide as Hauto.
  { intros [= <-]. subst v. split; [left; reflexivity|].
    split; [vm_compute; split; discriminate|].
    split; [reflexivity|].
    unfold TranslationRequest.validate_language_codes.
    rewrite bool_decide_eq_true_2; reflexivity. }
  rewrite (lower_ascii v Hascii). cbn zeta.
  set (v_clean := strip (map ascii_lower v)).
  destruct (Z.ltb_spec (len v_clean) 2) as [|Hmin]; [discriminate|].
  destruct (Z.ltb_spec 10 (len v_clean)) as [|Hmax]; [discriminate|].
  cbn [orb].
  destruct (forallb (fun c0 => isalnum c0 || (c0 =? 45)%N) v_clean)
    eqn:Hchars; [|discriminate].
  cbn [negb]. intros [= <-].
  assert (Hall : Forall (fun ch => code_character ch = true
                                   /\ ascii_lower ch = ch
                                   /\ is_ascii ch = true) v_clean).
  { assert (Hlow : Forall (fun ch => exists x, is_ascii x = true
                                               /\ ch = ascii_lower x)
                     v_clean).
    { apply Forall_strip. apply Forall_forall. intros ch Hin.
      apply list_elem_of_In, in_map_iff in Hin as (x & <- & Hx).
      exists x. split; [|reflexivity].
      rewrite forallb_forall in Hascii. exact (Hascii x Hx). }
    rewrite forallb_forall in Hchars.
    apply Forall_forall. intros ch Hin.
    rewrite Forall_forall in Hlow.
    destruct (Hlow ch Hin) as (x & Hx & ->).
    apply (code_character_of_lower x Hx).
    apply Hchars. apply list_elem_of_In. exact Hin. }
  split; [right; reflexivity|]. split; [lia|]. split.
  { apply forallb_forall. intros ch Hin.
    rewrite Forall_forall in Hall.
    apply (Hall ch). apply list_elem_of_In. exact Hin. }
  assert (Hfix : strip (lower v_clean) = v_clean).
  { assert (Ha : forallb is_ascii v_clean = true).
    { apply forallb_forall. intros ch Hin. rewrite Forall_forall in Hall.
      apply (Hall ch). apply list_elem_of_In. exact Hin. }
    rewrite (lower_ascii v_clean Ha).
    assert (Hmap : map ascii_lower v_clean = v_clean).
    { rewrite <- (map_id v_clean) at 2. apply map_ext_in.
      intros ch Hin. rewrite Forall_forall in Hall.
      apply (Hall ch). apply list_elem_of_In. exact Hin. }
    rewrite Hmap. apply strip_idem. }
  unfold TranslationRequest.validate_language_codes.
  case_bool_decide as Hauto'; [reflexivity|].
  cbn zeta. rewrite Hfix.
  destruct (Z.ltb_spec (len v_clean) 2); [lia|].
  destruct (Z.ltb_spec 10 (len v_clean)); [lia|].
  cbn [orb]. rewrite Hchars. reflexivity.
Qed.

End ValidatorFacts.
End ValidatorFacts.
(** An interpreter for the examples in which no character outside ASCII
    counts as a letter or a digit. *)
Definition example_unicodedata : Unicodedata :=
  {| unicode_isalnum := fun _ => false |}.

Module ValidatorExamples.
Import PyStr ValidatorFacts.

#[local] Existing Instance example_interp.
#[local] Existing Instance example_unicodedata.

Lemma region_code_accepted :
  TranslationRequest.validate_language_codes (lit " EN-us ")
  = Returned (lit "en-us").
Proof. vm_compute. reflexivity. Qed.

Lemma validate_language_codes_normalizes_witness :
  (lit "en-us" = lit " EN-us "
   \/ lit "en-us" = strip (map ascii_lower (lit " EN-us ")))
  /\ 2 <= len (lit "en-us") <= 10
  /\ forallb code_character (lit "en-us") = true
  /\ TranslationRequest.validate_language_codes (lit "en-us")
     = Returned (lit "en-us").
Proof.
  exact (validate_language_codes_normalizes (lit " EN-us ") (lit "en-us")
           eq_refl region_code_accepted).
Defined.

(** A code of two characters one of which is a space passes a length
    test on the raw value and is refused by the validator. *)
Lemma short_code_refused :
  TranslationRequest.validate_language_codes (lit "a ")
  = Raised "ValueError: Language code must be between 2-10 characters (ISO 639 format)".
Proof. vm_compute. reflexivity. Qed.

End ValidatorExamples.

(* ===================================================================== *)
(** * The table of translations: keys and rows *)
(* ===================================================================== *)

Module StorageFacts.
Import PyStr Await TranslationServices CacheManager Main CascadeFacts
  CacheFacts MainFacts ProviderFacts EndpointFacts Storage.

(** ** The digest *)

(** A digit of a hexadecimal number in lower case. *)
Definition hex_character (c : N) : bool :=
  ((0x30 <=? c) && (c <=? 0x39) || (0x61 <=? c) && (c <=? 0x66))%N.

(** A code point of the surrogate range, which UTF-8 does not encode. *)
Definition surrogate (c : N) : bool := ((0xD800 <=? c) && (c <=? 0xDFFF))%N.

Lemma hex_digit_character (d : N) :
  (d < 16)%N -> hex_character (Sha256.hex_digit d) = true.
Proof.
  intros Hd. unfold Sha256.hex_digit, hex_character.
  destruct (N.ltb_spec d 10).
  - apply orb_true_iff. left. apply andb_true_iff.
    split; apply N.leb_le; lia.
  - apply orb_true_iff. right. apply andb_true_iff.
    split; apply N.leb_le; lia.
Qed.

Lemma hex_word_characters (x : N) :
  forallb hex_character (Sha256.hex_word x) = true.
Proof.
  unfold Sha256.hex_word. apply forallb_forall. intros c Hin.
  apply in_map_iff in Hin as (k & <- & _).
  apply hex_digit_character. apply N.mod_lt. discriminate.
Qed.

Lemma hexdigest_shape (message : list N) :
  len (Sha256.hexdigest message) = 64
  /\ forallb hex_character (Sha256.hexdigest message) = true.
Proof.
  unfold Sha256.hexdigest. split; [reflexivity|].
  rewrite !forallb_app, !hex_word_characters. reflexivity.
Qed.

Lemma encode_point_surrogate (c : N) :
  match Utf8.encode_point c with
  | Returned _ => surrogate c = false
  | Raised _ => surrogate c = true
  end.
Proof.
  unfold Utf8.encode_point, surrogate.
  destruct (N.ltb_spec c 0x80).
  { apply andb_false_iff. left. apply N.leb_gt. lia. }
  destruct (N.ltb_spec c 0x800).
  { apply andb_false_iff. left. apply N.leb_gt. lia. }
  destruct (N.ltb_spec c 0x10000).
  { destruct ((55296 <=? c)%N && (c <=? 57343)%N); reflexivity. }
  apply andb_false_iff. right. apply N.leb_gt. lia.
Qed.

Lemma encode_surrogate (s : str) :
  match Utf8.encode s with
  | Returned _ => existsb surrogate s = false
  | Raised _ => existsb surrogate s = true
  end.
Proof.
  induction s as [|c s IH]; simpl; [reflexivity|].
  pose proof (encode_point_surrogate c) as Hc.
  destruct (Utf8.encode_point c); rewrite Hc; [|reflexivity].
  destruct (Utf8.encode s); exact IH.
Qed.

Section StorageFacts.
Context `{Interp}.

(** X21. [Translation.generate_hash] returns 64 hexadecimal digits in
    lower case, the size of the column [text_hash], for every text and
    language but those whose joined normal form holds a surrogate code
    point: there the encoding raises. Two ASCII texts that differ only
    by case and by the white space around them, with languages that
    differ only by case, have the same hash. *)
Theorem generate_hash_gives_64_digits_of_the_normal_form
    (text target_language : str) :
  match Translation.generate_hash text target_language with
  | Returned text_hash =>
    existsb surrogate (Translation.combined text target_language) = false
    /\ len text_hash = 64
    /\ forallb hex_character text_hash = true
  | Raised _ =>
    existsb surrogate (Translation.combined text target_language) = true
  end
  /\ forall text' target_language',
       forallb is_ascii text = true -> forallb is_ascii text' = true ->
       same_but_case_and_margins text text' ->
       lower target_language = lower target_language' ->
       Translation.generate_hash text' target_language'
       = Translation.generate_hash text target_language.
Proof.
  split.
  - unfold Translation.generate_hash.
    pose proof (encode_surrogate (Translation.combined text target_language))
      as He.
    destruct (Utf8.encode _) as [bytes|e]; [|exact He].
    split; [exact He|]. apply hexdigest_shape.
  - intros text' target_language' A A' Hsame Hl.
    unfold Translation.generate_hash, Translation.combined.
    rewrite (normal_form_same text text' A A' Hsame), Hl. reflexivity.
Qed.

(** ** One call of [store_translation_in_db] *)

Definition has_hash (hash : str) (r : Translation.t) : bool :=
  bool_decide (Translation.text_hash r = hash).

(** The table after the call, case by case. *)
Lemma store_translations (text : str) (translation_result : pydict)
    (database : Database.t) :
  Database.translations
    (store_translation_in_db text translation_result database)
  = match getitem translation_result "target_language" with
    | Raised _ => Database.translations database
    | Returned target_language =>
      match hash_of text target_language with
      | Raised _ => Database.translations database
      | Returned text_hash =>
        if Database.reachable database then
          match List.find (has_hash text_hash)
                  (Database.translations database) with
          | Some _ => Database.translations database
          | None =>
            match new_translation text_hash text translation_result with
            | Raised _ => Database.translations database
            | Returned row =>
              if Database.admits database row
              then Database.translations database ++ [row]
              else Database.translations database
            end
          end
        else Database.translations database
      end
    end.
Proof.
  unfold store_translation_in_db, store_in_database, get_db_session,
    store_in_session.
  destruct (getitem translation_result "target_language")
    as [target_language|e]; [|reflexivity].
  destruct (hash_of text target_language) as [text_hash|e]; [|reflexivity].
  unfold Session.query_first, Database.select_first, Session.SessionLocal.
  cbn [Session.bind].
  destruct (Database.reachable database) eqn:Hup; [|reflexivity].
  fold (has_hash text_hash).
  destruct (List.find (has_hash text_hash) (Database.translations database));
    [reflexivity|].
  destruct (new_translation text_hash text translation_result) as [row|e];
    [|reflexivity].
  unfold Session.commit, Session.add, Database.insert_all.
  cbn [Session.new Session.bind List.app]. rewrite Hup.
  cbn [forallb]. rewrite andb_true_r.
  destruct (Database.admits database row); reflexivity.
Qed.

Lemma store_keeps_the_server (text : str) (translation_result : pydict)
    (database : Database.t) :
  Database.reachable
    (store_translation_in_db text translation_result database)
  = Database.reachable database
  /\ Database.admits
       (store_translation_in_db text translation_result database)
     = Database.admits database.
Proof.
  unfold store_translation_in_db, store_in_database, get_db_session,
    store_in_session.
  destruct (getitem translation_result "target_language")
    as [target_language|e]; [|split; reflexivity].
  destruct (hash_of text target_language) as [text_hash|e];
    [|split; reflexivity].
  unfold Session.query_first, Database.select_first, Session.SessionLocal.
  cbn [Session.bind].
  destruct (Database.reachable database) eqn:Hup;
    [|cbn; rewrite Hup; split; reflexivity].
  destruct (List.find _ (Database.translations database));
    [cbn; rewrite Hup; split; reflexivity|].
  destruct (new_translation text_hash text translation_result) as [row|e];
    [|cbn; rewrite Hup; split; reflexivity].
  unfold Session.commit, Session.add, Database.insert_all.
  cbn [Session.new Session.bind List.app]. rewrite Hup.
  cbn [forallb]. rewrite andb_true_r.
  destruct (Database.admits database row);
    cbn; rewrite ?Hup; split; reflexivity.
Qed.

Lemma new_translation_hash (text_hash text : str) (translation_result : pydict)
    (row : Translation.t) :
  new_translation text_hash text translation_result = Returned row ->
  Translation.text_hash row = text_hash
  /\ Translation.source_text row = text
  /\ translation_result !! "target_language"
     = Some (Translation.target_language row)
  /\ translation_result !! "source_language"
     = Some (Translation.source_language row)
  /\ translation_result !! "translated_text"
     = Some (Translation.translated_text row)
  /\ translation_result !! "service"
     = Some (Translation.translation_service row)
  /\ translation_result !! "confidence" = Some (Translation.confidence row)
  /\ Translation.is_cached row = true.
Proof.
  unfold new_translation, getitem.
  destruct (translation_result !! "target_language"); [|discriminate].
  destruct (translation_result !! "source_language"); [|discriminate].
  destruct (translation_result !! "translated_text"); [|discriminate].
  destruct (translation_result !! "service"); [|discriminate].
  destruct (translation_result !! "confidence"); [|discriminate].
  intros [= <-]. cbn. repeat split.
Qed.

Lemma find_none_Forall (hash : str) (rows : list Translation.t) :
  List.find (has_hash hash) rows = None ->
  Forall (fun old => Translation.text_hash old <> hash) rows.
Proof.
  intros Hfind. apply Forall_forall. intros old Hin Heq.
  apply list_elem_of_In in Hin.
  apply (find_none _ _ Hfind) in Hin.
  unfold has_hash in Hin. rewrite bool_decide_eq_true_2 in Hin by exact Heq.
  discriminate.
Qed.

(** X22. One call of [store_translation_in_db] leaves the rows of the
    table as they are and adds at most one row after them. A row is
    added only to a database that can be reached and admits it, when
    the result holds a [str] under "target_language" and the five
    fields of the row, and when no row of the table has the hash of the
    text and of that language; the new row then has this hash, the text
    as [source_text] and the five values of the result. In every other
    case, a failing database included, the table is unchanged and
    nothing is raised to the caller. *)
Theorem store_adds_at_most_one_row (text : str) (translation_result : pydict)
    (database : Database.t) :
  let database' := store_translation_in_db text translation_result database in
  Database.reachable database' = Database.reachable database
  /\ Database.admits database' = Database.admits database
  /\ (Database.translations database' = Database.translations database
      \/ exists target_language row,
           Database.translations database'
           = Database.translations database ++ [row]
           /\ Database.reachable database = true
           /\ Database.admits database row = true
           /\ translation_result !! "target_language"
              = Some (VStr target_language)
           /\ Translation.generate_hash text target_language
              = Returned (Translation.text_hash row)
           /\ Forall
                (fun old =>
                   Translation.text_hash old <> Translation.text_hash row)
                (Database.translations database)
           /\ new_translation (Translation.text_hash row) text
                translation_result
              = Returned row).
Proof.
  intros database'. subst database'.
  destruct (store_keeps_the_server text translation_result database)
    as [Hup Hadmits].
  split; [exact Hup|]. split; [exact Hadmits|].
  rewrite store_translations. unfold getitem.
  destruct (translation_result !! "target_language") as [v|] eqn:Hv;
    [|left; reflexivity].
  destruct (hash_of text v) as [text_hash|e] eqn:Hh; [|left; reflexivity].
  destruct (Database.reachable database) eqn:Hr; [|left; reflexivity].
  destruct (List.find _ _) eqn:Hfind; [left; reflexivity|].
  destruct (new_translation text_hash text translation_result) as [row|e]
    eqn:Hrow; [|left; reflexivity].
  destruct (Database.admits database row) eqn:Ha; [|left; reflexivity].
  right. destruct v as [|target_language| |]; try discriminate Hh.
  destruct (new_translation_hash _ _ _ _ Hrow) as (Hhash & _).
  exists target_language, row. rewrite Hhash.
  repeat split; try assumption; try reflexivity.
  apply find_none_Forall. exact Hfind.
Qed.

(** ** The hashes of the table *)





(** ** The first translation of a text stays *)

Lemma find_app_Some {A} (f : A -> bool) (l l' : list A) :
  (exists x, List.find f l = Some x) ->
  exists x, List.find f (l ++ l') = Some x.
Proof.
  induction l as [|a l IH]; cbn [List.find List.app].
  - intros [x Hx]. discriminate.
  - destruct (f a); [eauto | exact IH].
Qed.

Lemma find_last_Some {A} (f : A -> bool) (l : list A) (a : A) :
  f a = true -> exists x, List.find f (l ++ [a]) = Some x.
Proof.
  intros Ha. induction l as [|b l IH]; cbn [List.find List.app].
  - rewrite Ha. eauto.
  - destruct (f b); [eauto | exact IH].
Qed.

(** When the [with] statement has returned, the table holds a row with
    the hash of the text and of the language of the result. *)
Lemma store_returned_row (text : str) (translation_result : pydict)
    (database database' : Database.t) :
  store_in_database text translation_result database
  = (Returned tt, database') ->
  exists target_language text_hash found,
    translation_result !! "target_language" = Some (VStr target_language)
    /\ Translation.generate_hash text target_language = Returned text_hash
    /\ List.find (has_hash text_hash) (Database.translations database')
       = Some found.
Proof.
  unfold store_in_database, get_db_session, store_in_session, getitem.
  destruct (translation_result !! "target_language") as [v|];
    [|discriminate].
  destruct (hash_of text v) as [text_hash|e] eqn:Hh; [|discriminate].
  destruct v as [|target_language| |]; try discriminate Hh.
  cbn [hash_of] in Hh.
  unfold Session.query_first, Database.select_first, Session.SessionLocal.
  cbn [Session.bind].
  destruct (Database.reachable database) eqn:Hup; [|discriminate].
  fold (has_hash text_hash).
  destruct (List.find (has_hash text_hash) (Database.translations database))
    as [found|] eqn:Hfind.
  - cbn. intros [= <-]. eauto 6.
  - destruct (new_translation text_hash text translation_result) as [row|e]
      eqn:Hrow; [|discriminate].
    unfold Session.commit, Session.add, Database.insert_all.
    cbn [Session.new Session.bind List.app]. rewrite Hup.
    cbn [forallb]. rewrite andb_true_r.
    destruct (Database.admits database row); [|discriminate].
    cbn. intros [= <-]. cbn.
    destruct (new_translation_hash _ _ _ _ Hrow) as (Hhash & _).
    destruct (find_last_Some (has_hash text_hash)
                (Database.translations database) row) as (found & Hfound).
    { unfold has_hash. apply bool_decide_eq_true_2. exact Hhash. }
    eauto 6.
Qed.

(** X24. The first translation of a text stays. Once the [with]
    statement of [store_translation_in_db] has returned for a text and
    a result, a later call for a text that differs only by case and by
    the white space around it, with a result whose target language
    differs only by case, leaves the table as it is, whatever else that
    result holds and whatever rows were added in between: a better
    translation, or a translation that follows a stored failure, is not
    stored. *)
Theorem first_translation_of_a_text_stays (text text' : str)
    (translation_result translation_result' : pydict)
    (target_language target_language' : str)
    (database database1 database2 : Database.t) :
  forallb is_ascii text = true -> forallb is_ascii text' = true ->
  same_but_case_and_margins text text' ->
  translation_result !! "target_language" = Some (VStr target_language) ->
  translation_result' !! "target_language" = Some (VStr target_language') ->
  lower target_language = lower target_language' ->
  store_in_database text translation_result database
  = (Returned tt, database1) ->
  (exists added,
     Database.translations database2
     = Database.translations database1 ++ added) ->
  Database.translations
    (store_translation_in_db text' translation_result' database2)
  = Database.translations database2.
Proof.
  intros A A' Hsame Hl Hl' Hlower Hstore (added & Hadded).
  destruct (store_returned_row _ _ _ _ Hstore)
    as (l & text_hash & found & Hl0 & Hhash & Hfind).
  rewrite Hl in Hl0. injection Hl0 as <-.
  rewrite store_translations. unfold getitem. rewrite Hl'. cbn [hash_of].
  assert (Hhash' : Translation.generate_hash text' target_language'
                   = Returned text_hash).
  { rewrite <- Hhash.
    unfold Translation.generate_hash, Translation.combined.
    rewrite (normal_form_same text text' A A' Hsame), Hlower. reflexivity. }
  rewrite Hhash'.
  destruct (Database.reachable database2); [|reflexivity].
  destruct (find_app_Some (has_hash text_hash)
              (Database.translations database1) added
              (ex_intro _ found Hfind)) as (found' & Hfound').
  rewrite Hadded, Hfound'. reflexivity.
Qed.

End StorageFacts.

(** ** From the answer of [POST /translate] to the row *)

Section TaskFacts.
Context `{Interp} `{Process} {W : Type} (srv : services W).

(** The row with the fields of a response. *)
Definition row_of (text_hash text : str) (response : TranslationResponse.t)
  : Translation.t :=
  {| Translation.text_hash := text_hash;
     Translation.source_text := text;
     Translation.target_language :=
       VStr (TranslationResponse.target_language response);
     Translation.source_language :=
       VStr (TranslationResponse.source_language response);
     Translation.translated_text :=
       VStr (TranslationResponse.translated_text response);
     Translation.translation_service :=
       VStr (TranslationResponse.service response);
     Translation.confidence := VInt (TranslationResponse.confidence response);
     Translation.is_cached := true |}.

Lemma of_dict_fields (d : pydict) (r : TranslationResponse.t) :
  TranslationResponse.of_dict d = Returned r ->
  d !! "translated_text" = Some (VStr (TranslationResponse.translated_text r))
  /\ d !! "source_language"
     = Some (VStr (TranslationResponse.source_language r))
  /\ d !! "target_language"
     = Some (VStr (TranslationResponse.target_language r))
  /\ d !! "service" = Some (VStr (TranslationResponse.service r))
  /\ d !! "confidence" = Some (VInt (TranslationResponse.confidence r)).
Proof.
  unfold TranslationResponse.of_dict, TranslationResponse.and_then.
  destruct (TranslationResponse.required_str d "translated_text") eqn:Ht;
    [|discriminate].
  destruct (TranslationResponse.required_str d "source_language") eqn:Hs;
    [|discriminate].
  destruct (TranslationResponse.required_str d "target_language") eqn:Hg;
    [|discriminate].
  destruct (TranslationResponse.required_str d "service") eqn:Hn;
    [|discriminate].
  destruct (TranslationResponse.confidence_field d) eqn:Hc; [|discriminate].
  destruct (TranslationResponse.required_str d "original_text");
    [|discriminate].
  destruct (TranslationResponse.optional_str d "cache_level");
    [|discriminate].
  destruct (TranslationResponse.optional_float d "processing_time_ms");
    [|discriminate].
  destruct (TranslationResponse.optional_str d "error"); [|discriminate].
  intros [= <-]. cbn.
  unfold TranslationResponse.required_str in Ht, Hs, Hg, Hn.
  unfold TranslationResponse.confidence_field in Hc.
  destruct (d !! "translated_text") as [[|?| |]|]; try discriminate Ht.
  destruct (d !! "source_language") as [[|?| |]|]; try discriminate Hs.
  destruct (d !! "target_language") as [[|?| |]|]; try discriminate Hg.
  destruct (d !! "service") as [[|?| |]|]; try discriminate Hn.
  destruct (d !! "confidence") as [[| |z|]|]; try discriminate Hc.
  destruct ((0 <=? z) && (z <=? 100)); try discriminate Hc.
  injection Ht as <-. injection Hs as <-. injection Hg as <-.
  injection Hn as <-. injection Hc as <-. repeat split.
Qed.

Lemma find_existsb {A} (f : A -> bool) (l : list A) :
  existsb f l = match List.find f l with Some _ => true | None => false end.
Proof.
  induction l as [|a l IH]; cbn [existsb List.find]; [reflexivity|].
  destruct (f a); [reflexivity | exact IH].
Qed.

(** The table after the task of a result that makes the response
    [response]. *)
Lemma store_response (text : str) (d : pydict)
    (response : TranslationResponse.t) (database : Database.t) :
  TranslationResponse.of_dict d = Returned response ->
  Database.translations (store_translation_in_db text d database)
  = match
      Translation.generate_hash text
        (TranslationResponse.target_language response)
    with
    | Raised _ => Database.translations database
    | Returned text_hash =>
      if Database.reachable database
         && negb (existsb (has_hash text_hash)
                    (Database.translations database))
         && Database.admits database (row_of text_hash text response)
      then Database.translations database
           ++ [row_of text_hash text response]
      else Database.translations database
    end.
Proof.
  intros Hof.
  destruct (of_dict_fields d response Hof) as (Ht & Hs & Hg & Hn & Hc).
  rewrite store_translations. unfold getitem. rewrite Hg. cbn [hash_of].
  destruct (Translation.generate_hash text _) as [text_hash|e];
    [|reflexivity].
  destruct (Database.reachable database); [|reflexivity].
  rewrite find_existsb.
  destruct (List.find (has_hash text_hash) (Database.translations database));
    [reflexivity|].
  unfold new_translation, getitem. rewrite Hg, Hs, Ht, Hn, Hc.
  fold (row_of text_hash text response). cbn [negb andb].
  destruct (Database.admits database (row_of text_hash text response));
    reflexivity.
Qed.

(** X25. What the database task of [POST /translate] writes. When the
    endpoint answers with a fresh translation (no cache level), it has
    handed over one task, for the text of the request and the object
    the response was made from. Run on a database, that task adds the
    row with the fields of the response (translated text, languages,
    service and confidence as answered, and the text of the request)
    when the database can be reached, admits the row and holds no row
    with the hash of the text and of the [target_language] of the
    response; else it leaves the table as it is. The answer that every
    provider failed is stored like any other. *)
Theorem database_task_stores_the_answer (svc : service)
    (request : TranslationRequest.t) (clock : timing) (st st' : app) (w : W)
    (response : TranslationResponse.t) (database : Database.t) :
  (run srv (translate_text svc request clock st) w).1
  = (Returned response, st') ->
  TranslationResponse.cache_level response = None ->
  exists result,
    background_tasks st'
    = background_tasks st ++ [(TranslationRequest.text request, result)]
    /\ Database.translations
         (run_background_tasks (objects st')
            [(TranslationRequest.text request, result)] database)
       = match
           Translation.generate_hash (TranslationRequest.text request)
             (TranslationResponse.target_language response)
         with
         | Raised _ => Database.translations database
         | Returned text_hash =>
           let row :=
             row_of text_hash (TranslationRequest.text request) response in
           if Database.reachable database
              && negb (existsb (has_hash text_hash)
                         (Database.translations database))
              && Database.admits database row
           then Database.translations database ++ [row]
           else Database.translations database
         end.
Proof.
  unfold translate_text.
  destruct (get (cache_manager st) (at_get clock) (objects st)
              (TranslationRequest.text request)
              (TranslationRequest.target_language request))
    as [[og cm1] h1] eqn:Eg.
  destruct og as [cached|e]; [|simpl; discriminate].
  destruct (ref_truthy h1 cached) eqn:Et.
  - destruct cached as [res|]; [|simpl; discriminate].
    simpl. intros [= Hresp <-] Hlevel. exfalso.
    unfold response_of in Hresp. rewrite dict_setitem_lookup_fmap in Hresp.
    destruct (get_tags _ _ _ _ _ _ _ _ Eg) as [Hnone|(d & lv & Hd & Hlv)].
    { unfold ref_truthy in Et. rewrite Hnone in Et. discriminate Et. }
    rewrite Hd in Hresp.
    cbn [fmap option_fmap option_map default from_option id] in Hresp.
    destruct (TranslationResponse.of_dict _) as [r|e] eqn:Eof;
      [|discriminate].
    injection Hresp as <-.
    apply of_dict_cache_level in Eof.
    unfold TranslationResponse.optional_str in Eof.
    revert Eof.
    rewrite lookup_insert_ne by discriminate.
    rewrite lookup_insert_eq, Hlevel. discriminate.
  - unfold translate_text_fresh. rewrite run_bind.
    destruct (run srv (translate svc _ _ _) w) as [d w1].
    unfold alloc.
    destruct (set cm1 (at_set clock) (h1 ++ [d])
                (TranslationRequest.text request)
                (TranslationRequest.target_language request) (length h1))
      as [[os cm2] h2].
    destruct os as [[]|e]; [|simpl; discriminate].
    simpl. intros [= Hresp <-] _. exists (length h1).
    split; [reflexivity|].
    unfold run_background_tasks. cbn [fold_left fst snd objects].
    unfold response_of in Hresp.
    rewrite !dict_setitem_lookup_fmap in Hresp.
    rewrite !dict_setitem_lookup_fmap.
    destruct (h2 !! length h1) as [d2|].
    + cbn [fmap option_fmap option_map default from_option id] in *.
      destruct (TranslationResponse.of_dict _) as [r|e] eqn:Eof;
        [|discriminate].
      injection Hresp as <-.
      apply (store_response _ _ _ _ Eof).
    + cbn [fmap option_fmap option_map default from_option id] in Hresp.
      destruct of_dict_empty as (e & He). rewrite He in Hresp.
      discriminate Hresp.
Qed.

(** ** The tasks of [POST /translate/batch] *)

(** The texts of a request that the cache did not answer, [hits]
    saying text by text whether it did. *)
Fixpoint missed (texts : list str) (hits : list bool) : list str :=
  match texts, hits with
  | text :: texts', hit :: hits' =>
    if hit then missed texts' hits' else text :: missed texts' hits'
  | _, _ => []
  end.

Definition hit_count (hits : list bool) : Z :=
  Z.of_nat (length (List.filter id hits)).

(** Whether the cache answered the text of index [i]: the truth value
    of what [get] returned for it, in the state the loop had reached
    after the [i] texts before it. The loop starts at the index
    [first] in the state [b]. *)
Definition cache_answered (svc : service)
    (request : BatchTranslationRequest.t) (texts : list str)
    (clocks : nat -> timing) (first : nat) (b : batch) (w : W)
    (i : nat) (text : str) (hit : bool) : Prop :=
  exists b_i w_i cached cm h,
    run srv (batch_loop svc request (take i texts) clocks first b) w
    = ((Returned tt, b_i), w_i)
    /\ get (cache_manager (state b_i)) (at_get (clocks (first + i)%nat))
         (objects (state b_i)) text
         (BatchTranslationRequest.target_language request)
       = (Returned cached, cm, h)
    /\ hit = ref_truthy h cached.

(** One text of a batch: a cache hit counts as one and hands nothing
    over, a call of the providers counts as one and hands over one
    task, for that text. *)
Lemma batch_item_tasks svc request text clock b (w : W) b' w' :
  run srv (batch_item svc request text clock b) w = ((Returned tt, b'), w') ->
  exists cached cm h,
    get (cache_manager (state b)) (at_get clock) (objects (state b)) text
      (BatchTranslationRequest.target_language request)
    = (Returned cached, cm, h)
    /\ if ref_truthy h cached then
         cache_hits b' = cache_hits b + 1
         /\ api_calls b' = api_calls b
         /\ background_tasks (state b') = background_tasks (state b)
       else
         cache_hits b' = cache_hits b
         /\ api_calls b' = api_calls b + 1
         /\ exists result,
              background_tasks (state b')
              = background_tasks (state b) ++ [(text, result)].
Proof.
  unfold batch_item.
  destruct (get (cache_manager (state b)) (at_get clock) (objects (state b))
              text (BatchTranslationRequest.target_language request))
    as [[og cm1] h1].
  destruct og as [cached|e]; [|simpl; discriminate].
  intros Hrun. exists cached, cm1, h1. split; [reflexivity|].
  destruct (ref_truthy h1 cached) eqn:Et.
  - destruct cached as [res|]; [|simpl in Hrun; discriminate].
    simpl in Hrun. injection Hrun as <- <-. simpl. auto.
  - unfold batch_item_fresh in Hrun. rewrite run_bind in Hrun.
    destruct (run srv (translate svc _ _ _) w) as [d w1].
    unfold alloc in Hrun.
    destruct (set cm1 (at_set clock) _ text _ (length h1))
      as [[os cm2] h3].
    destruct os as [[]|e]; simpl in Hrun; [|discriminate].
    injection Hrun as <- <-. simpl. eauto.
Qed.

Lemma batch_loop_tasks svc request clocks texts :
  forall first b (w : W) b' w',
    run srv (batch_loop svc request texts clocks first b) w
    = ((Returned tt, b'), w') ->
    exists hits tasks,
      length hits = length texts
      /\ background_tasks (state b') = background_tasks (state b) ++ tasks
      /\ map fst tasks = missed texts hits
      /\ cache_hits b' = cache_hits b + hit_count hits
      /\ api_calls b' = api_calls b + Z.of_nat (length tasks)
      /\ forall i text hit,
           texts !! i = Some text -> hits !! i = Some hit ->
           cache_answered svc request texts clocks first b w i text hit.
Proof.
  induction texts as [|text rest IH]; intros first b w b' w'.
  - simpl. intros [= <- <-]. exists [], []. rewrite app_nil_r.
    unfold hit_count. cbn.
    repeat split; try reflexivity; try lia.
    intros i text hit Hi. discriminate Hi.
  - cbn [batch_loop]. rewrite run_bind.
    destruct (run srv (batch_item svc request text (clocks first) b) w)
      as [[o1 b1] w1] eqn:E1.
    destruct o1 as [[]|e]; [|simpl; discriminate].
    intros Hrest.
    destruct (IH _ _ _ _ _ Hrest)
      as (hits & tasks & Hlen & Htasks & Hfst & Hhits & Hcalls & Hat).
    destruct (batch_item_tasks _ _ _ _ _ _ _ _ E1)
      as (cached & cm & h & Hget & Hitem).
    assert (Hhere : cache_answered svc request (text :: rest) clocks first b
                      w 0 text (ref_truthy h cached)).
    { exists b, w, cached, cm, h. rewrite Nat.add_0_r.
      split; [reflexivity|]. split; [exact Hget | reflexivity]. }
    assert (Hthere : forall i text' hit,
               rest !! i = Some text' -> hits !! i = Some hit ->
               cache_answered svc request (text :: rest) clocks first b w
                 (S i) text' hit).
    { intros i text' hit Hi Hh.
      destruct (Hat i text' hit Hi Hh)
        as (b_i & w_i & cached' & cm' & h' & Hrun & Hget' & Hhit).
      exists b_i, w_i, cached', cm', h'.
      rewrite Nat.add_succ_r. split; [|split; assumption].
      cbn [take batch_loop]. rewrite run_bind, E1. exact Hrun. }
    destruct (ref_truthy h cached) eqn:Et.
    + destruct Hitem as (Hh & Ha & Ht).
      exists (true :: hits), tasks. rewrite Htasks, Ht.
      unfold hit_count in *. cbn [List.filter id length missed].
      split; [lia|]. split; [reflexivity|]. split; [exact Hfst|].
      split; [lia|]. split; [lia|].
      intros [|i] text' hit Hi Hh'.
      * injection Hi as <-. injection Hh' as <-. exact Hhere.
      * apply Hthere; assumption.
    + destruct Hitem as (Hh & Ha & result & Ht).
      exists (false :: hits), ((text, result) :: tasks).
      rewrite Htasks, Ht, <- app_assoc.
      unfold hit_count in *. cbn [List.filter id length missed map fst].
      split; [lia|]. split; [reflexivity|].
      split; [rewrite Hfst; reflexivity|].
      split; [lia|]. split; [lia|].
      intros [|i] text' hit Hi Hh'.
      * injection Hi as <-. injection Hh' as <-. exact Hhere.
      * apply Hthere; assumption.
Qed.

(** X26. What [POST /translate/batch] hands to the database. Whenever
    the endpoint answers, the tasks it has added are those of the texts
    that the cache did not answer, one each, in the order of the
    request: for every text, the cache answered it or not according to
    what [get] returned for it when the loop reached it, a text that
    was answered has no task, and a text that was not has one, for that
    text, whether its translation has failed or not. The figures of the
    full answer are the number of texts answered by the cache and the
    number of tasks; the total of the minimal answer is their sum. *)
Theorem batch_hands_over_one_task_per_call (svc : service)
    (request : BatchTranslationRequest.t) (minimal : bool)
    (clocks : nat -> timing) (total : pynumber) (st st' : app) (w : W)
    (answer : BatchTranslationResponse + MinimalBatchTranslationResponse) :
  (run srv (Main.translate_batch svc request minimal clocks total st) w).1
  = (Returned answer, st') ->
  let texts := BatchTranslationRequest.texts request in
  exists hits tasks,
    length hits = length texts
    /\ (forall i text hit,
          texts !! i = Some text -> hits !! i = Some hit ->
          cache_answered svc request texts clocks 0 (batch_start st) w
            i text hit)
    /\ background_tasks st' = background_tasks st ++ tasks
    /\ map fst tasks = missed texts hits
    /\ match answer with
       | inl full =>
         response_cache_hits full = hit_count hits
         /\ response_api_calls full = Z.of_nat (length tasks)
       | inr short =>
         minimal_total_count short
         = hit_count hits + Z.of_nat (length tasks)
       end.
Proof.
  unfold Main.translate_batch. rewrite run_bind.
  change {| results := []; cache_hits := 0; api_calls := 0; state := st |}
    with (batch_start st).
  destruct (run srv (batch_loop svc request _ clocks 0 _) w)
    as [[o b] w1] eqn:Eloop.
  destruct o as [[]|e]; [|simpl; discriminate].
  destruct (batch_loop_tasks _ _ _ _ _ _ _ _ _ Eloop)
    as (hits & tasks & Hlen & Htasks & Hfst & Hhits & Hcalls & Hat).
  destruct (batch_loop_counts srv _ _ _ _ _ _ _ _ _ Eloop)
    as (_ & _ & _ & Hsum & Hl).
  cbn [results cache_hits api_calls state length batch_start] in *.
  intros Hanswer. cbn zeta. exists hits, tasks.
  split; [exact Hlen|]. split; [exact Hat|].
  destruct minimal.
  - destruct (minimals_of _ _) as [minimal_results|e];
      [|simpl in Hanswer; discriminate].
    simpl in Hanswer. injection Hanswer as <- <-. simpl.
    split; [exact Htasks|]. split; [exact Hfst | lia].
  - destruct (responses_of _ _) as [responses|e];
      [|simpl in Hanswer; discriminate].
    simpl in Hanswer. injection Hanswer as <- <-. simpl.
    split; [exact Htasks|]. split; [exact Hfst|]. split; lia.
Qed.

End TaskFacts.
End StorageFacts.

Module StorageExamples.
Import PyStr Await TranslationServices CacheManager Main CascadeFacts
  CascadeExamples CacheFacts CacheExamples MainFacts BatchExamples
  ProviderFacts ProviderExamples EndpointFacts EndpointExamples Storage
  StorageFacts.

#[local] Existing Instance example_interp.
#[local] Existing Instance example_process.

(** A database that answers, enforces the columns declared
    [nullable=False] and holds no row yet. *)
Definition not_none (v : value) : bool :=
  match v with VNone => false | _ => true end.

Definition empty_database : Database.t :=
  {| Database.reachable := true;
     Database.admits :=
       fun row =>
         not_none (Translation.target_language row)
         && not_none (Translation.translated_text row);
     Database.translations := [] |}.

(** The digest that [hashlib] gives for the text "hello" and the
    language "ta", whatever the case and the margins of the text. *)
Lemma hello_hash :
  Translation.generate_hash (lit "  Hello ") (lit "TA")
  = Returned
      (lit "19229dddbe9e9b064c435c9ebbd245e639eb0fd22836b9362ef5aa378ced7903").
Proof. vm_compute. reflexivity. Qed.

(** A text with a lone surrogate has no hash. *)
Lemma surrogate_has_no_hash :
  Translation.generate_hash [0x68; 0xD800]%N (lit "ta")
  = Raised "UnicodeEncodeError: surrogates not allowed".
Proof. vm_compute. reflexivity. Qed.

(** Two results for the same text: the answer of the mock dictionary
    and a later answer of MyMemory. *)
Definition mock_result : pydict :=
  result_dict (lit "வணக்கம்") (lit "auto") (lit "ta") (lit "mock_indian") 60
    (lit "  Hello ").

Definition later_result : pydict :=
  result_dict (lit "ஹலோ") (lit "en") (lit "TA") (lit "mymemory") 95
    (lit "hello").

Definition hello_stored : Database.t :=
  (store_in_database (lit "  Hello ") mock_result empty_database).2.

Lemma hello_is_stored :
  store_in_database (lit "  Hello ") mock_result empty_database
  = (Returned tt, hello_stored).
Proof. vm_compute. reflexivity. Qed.

Lemma hello_stored_rows :
  map Translation.translated_text (Database.translations hello_stored)
  = [VStr (lit "வணக்கம்")].
Proof. vm_compute. reflexivity. Qed.

Lemma first_translation_of_a_text_stays_witness :
  Database.translations
    (store_translation_in_db (lit "hello") later_result hello_stored)
  = Database.translations hello_stored.
Proof.
  apply (first_translation_of_a_text_stays (lit "  Hello ") (lit "hello")
           mock_result later_result (lit "ta") (lit "TA")
           empty_database hello_stored hello_stored).
  - reflexivity.
  - reflexivity.
  - exact hello_with_margins.
  - reflexivity.
  - reflexivity.
  - reflexivity.
  - exact hello_is_stored.
  - exists []. rewrite app_nil_r. reflexivity.
Defined.

(** Three tasks on two objects: the first and the last are for the same
    text and language. *)
Definition example_objects : heap :=
  [mock_result;
   result_dict (lit "bonjour") (lit "fr") (lit "en") (lit "none") 0
     (lit "bonjour")].

Definition example_tasks : list (str * ref) :=
  [(lit "  Hello ", 0%nat); (lit "bonjour", 1%nat); (lit "hello", 0%nat)].

Lemma example_tasks_rows :
  map Translation.source_text
    (Database.translations
       (run_background_tasks example_objects example_tasks empty_database))
  = [lit "  Hello "; lit "bonjour"].
Proof. vm_compute. reflexivity. Qed.


(** The answer that every provider failed on "bonjour", and the row of
    it in a database that was empty. *)
Lemma bonjour_row :
  match
    (run recording_services
       (translate_text example_service bonjour_request example_clock
          new_app) []).1
  with
  | (Returned response, st') =>
    map
      (fun row =>
         (Translation.source_text row, Translation.translated_text row,
          Translation.translation_service row,
          Translation.target_language row))
      (Database.translations
         (run_background_tasks (objects st') (background_tasks st')
            empty_database))
    = [(lit "bonjour", VStr (lit "bonjour"), VStr (lit "none"),
        VStr (lit "en"))]
  | _ => False
  end.
Proof. vm_compute. reflexivity. Qed.

Lemma database_task_stores_the_answer_witness :
  exists response st' result,
    (run recording_services
       (translate_text example_service bonjour_request example_clock
          new_app) []).1
    = (Returned response, st')
    /\ background_tasks st'
       = background_tasks new_app
         ++ [(TranslationRequest.text bonjour_request, result)]
    /\ Database.translations
         (run_background_tasks (objects st')
            [(TranslationRequest.text bonjour_request, result)]
            empty_database)
       = match
           Translation.generate_hash (TranslationRequest.text bonjour_request)
             (TranslationResponse.target_language response)
         with
         | Raised _ => Database.translations empty_database
         | Returned text_hash =>
           let row :=
             row_of text_hash (TranslationRequest.text bonjour_request)
               response in
           if Database.reachable empty_database
              && negb (existsb (has_hash text_hash)
                         (Database.translations empty_database))
              && Database.admits empty_database row
           then Database.translations empty_database ++ [row]
           else Database.translations empty_database
         end.
Proof.
  pose proof bonjour_answer as Hanswer.
  destruct (run recording_services
              (translate_text example_service bonjour_request example_clock
                 new_app) []).1
    as [[response|e] st'] eqn:Hrun; try contradiction.
  destruct (database_task_stores_the_answer recording_services
              example_service bonjour_request example_clock new_app st' []
              response empty_database Hrun Hanswer)
    as (result & Htasks & Hrows).
  exists response, st', result. split; [reflexivity|].
  split; [exact Htasks | exact Hrows].
Defined.

(** The same text twice in one batch, next to a Redis server that
    answers: the mock dictionary translates the first, Redis answers
    the second, and one task is handed over. *)
Definition repeated_batch : BatchTranslationRequest.t :=
  {| BatchTranslationRequest.texts := [lit "hello"; lit "hello"];
     BatchTranslationRequest.target_language := lit "en";
     BatchTranslationRequest.source_language := lit "ta" |}.

Lemma repeated_batch_answer :
  match
    (run recording_services
       (Main.translate_batch example_service repeated_batch false
          example_clocks 7 app_with_redis) []).1
  with
  | (Returned (inl full), st') =>
    response_cache_hits full = 1
    /\ response_api_calls full = 1
    /\ map fst (background_tasks st') = [lit "hello"]
  | _ => False
  end.
Proof. vm_compute. repeat split. Qed.

Lemma batch_hands_over_one_task_per_call_witness :
  exists full st' hits tasks,
    (run recording_services
       (Main.translate_batch example_service repeated_batch false
          example_clocks 7 app_with_redis) []).1
    = (Returned (inl full), st')
    /\ length hits = length (BatchTranslationRequest.texts repeated_batch)
    /\ (forall i text hit,
          BatchTranslationRequest.texts repeated_batch !! i = Some text ->
          hits !! i = Some hit ->
          cache_answered recording_services example_service repeated_batch
            (BatchTranslationRequest.texts repeated_batch) example_clocks 0
            (batch_start app_with_redis) [] i text hit)
    /\ background_tasks st' = background_tasks app_with_redis ++ tasks
    /\ map fst tasks
       = missed (BatchTranslationRequest.texts repeated_batch) hits
    /\ response_cache_hits full = hit_count hits
    /\ response_api_calls full = Z.of_nat (length tasks).
Proof.
  pose proof repeated_batch_answer as Hanswer.
  destruct (run recording_services
              (Main.translate_batch example_service repeated_batch false
                 example_clocks 7 app_with_redis) []).1
    as [[[full|short]|e] st'] eqn:Hrun; try contradiction.
  destruct (batch_hands_over_one_task_per_call recording_services
              example_service repeated_batch false example_clocks 7
              app_with_redis st' [] (inl full) Hrun)
    as (hits & tasks & Hlen & Hat & Htasks & Hfst & Hhits & Hcalls).
  exists full, st', hits, tasks. split; [reflexivity|].
  repeat split; assumption.
Defined.

End StorageExamples.

(* ===================================================================== *)
(** * The health check: what the status says *)
(* ===================================================================== *)

Module HealthFacts.
Import PyStr TranslationServices CacheManager Health.

Section HealthFacts.
Context `{Interp} `{Process} `{Builtins}.


Lemma libretranslate_check_flag env clock :
  (libretranslate_check env clock).2
  = libretranslate_reachable (libretranslate_check env clock).1.
Proof.
  unfold libretranslate_check.
  destruct (libretranslate_get env) as [status_code|message]; [|reflexivity].
  destruct (status_code =? 200); reflexivity.
Qed.

Lemma redis_check_flag cache_manager env clock :
  (redis_check cache_manager env clock).2
  = connected (redis_check cache_manager env clock).1.
Proof.
  unfold redis_check. destruct (redis_client cache_manager); [|reflexivity].
  destruct (redis_ping env) as [[]|message]; reflexivity.
Qed.

Lemma database_check_reachable database :
  database_check database = Database.reachable database.
Proof.
  unfold database_check, Storage.get_db_session, select_1,
    Session.SessionLocal.
  cbn [Session.bind].
  destruct (Database.reachable database); reflexivity.
Qed.

(** The status in terms of the five checks. *)
Definition status_from (database mymemory libretranslate redis mock : bool)
  : str :=
  if database && mymemory
     && (if mock then libretranslate || redis else libretranslate && redis)
  then lit "healthy"
  else if database || mymemory then lit "degraded"
  else lit "unhealthy".

Definition count (checks : list bool) : Z :=
  Z.of_nat (length (List.filter id checks)).

Lemma status_of_checks (database mymemory libretranslate redis mock : bool) :
  let service_checks :=
    [database; mymemory; libretranslate; redis]
    ++ (if mock then [true] else []) in
  status_of service_checks
  = status_from database mymemory libretranslate redis mock
  /\ Health.sum service_checks
     = count [database; mymemory; libretranslate; redis; mock]
  /\ Z.of_nat (length service_checks) = if mock then 5 else 4.
Proof.
  destruct database, mymemory, libretranslate, redis, mock;
    vm_compute; repeat split.
Qed.


(** X28. Without an API key for MyMemory the service never reports
    itself healthy. No request is made to MyMemory: it is reported as
    not configured, not reached and without an error, whatever it would
    have answered; and the status is "degraded" when the database
    answers and "unhealthy" when it does not, whatever the state of
    LibreTranslate, of Redis and of the mock fallback. *)
Theorem health_without_api_key_is_never_healthy (start_time : PrimFloat.float)
    (total_translations : Z) (translation_service : service)
    (cache_manager : MultiLevelCache) (env : outside) (clock : readings) :
  api_key_truthy translation_service = false ->
  let answer :=
    health_check start_time total_translations translation_service
      cache_manager env clock in
  status answer <> lit "healthy"
  /\ status answer
     = (if Database.reachable (Health.database env) then lit "degraded"
        else lit "unhealthy")
  /\ mymemory (services answer)
     = {| configured := false; mymemory_reachable := false;
          mymemory_response_time_ms := None; mymemory_error := None |}.
Proof.
  intros Hkey answer. subst answer. unfold health_check, mymemory_check.
  rewrite Hkey.
  pose proof (libretranslate_check_flag env clock) as Hl.
  pose proof (redis_check_flag cache_manager env clock) as Hr.
  destruct (libretranslate_check env clock)
    as [libretranslate_status libretranslate_ok].
  destruct (redis_check cache_manager env clock) as [redis_status redis_ok].
  unfold mock_check.
  cbn [status services mymemory].
  rewrite database_check_reachable.
  destruct (status_of_checks (Database.reachable (Health.database env))
              false libretranslate_ok redis_ok
              (enable_mock_fallback translation_service))
    as (Hstatus & _).
  cbn zeta in Hstatus. rewrite Hstatus.
  destruct (Database.reachable (Health.database env));
    (split; [discriminate | split; reflexivity]).
Qed.

End HealthFacts.
End HealthFacts.

(** An interpreter for the examples in which [round] leaves the number
    as it is. *)
Definition example_builtins : Builtins :=
  {| round_ndigits := fun x _ => x |}.

Module HealthExamples.
Import PyStr TranslationServices CacheManager Health CascadeExamples
  CacheExamples BatchExamples CacheServiceExamples StorageExamples
  HealthFacts.

#[local] Existing Instance example_interp.
#[local] Existing Instance example_process.
#[local] Existing Instance example_builtins.

(** Everything outside answers: the database, both translation
    services with the status 200, and Redis. *)
Definition all_up : outside :=
  {| database := empty_database;
     mymemory_get := Replied 200;
     libretranslate_get := Replied 200;
     redis_ping := Replied true;
     redis_info := Returned (Some (lit "1.02M"));
     redis_dbsize := Returned 0 |}.

Definition example_readings : readings :=
  {| at_timestamp := float_of_int 100; at_uptime := float_of_int 100;
     mymemory_start := float_of_int 100; mymemory_end := float_of_int 101;
     libretranslate_start := float_of_int 101;
     libretranslate_end := float_of_int 102;
     redis_start := float_of_int 102; redis_end := float_of_int 103;
     at_stats := 0 |}.

(** The time at which the module was loaded. *)
Definition example_start : PrimFloat.float := float_of_int 40.

(** The service as the defaults of the environment configure it, with
    no API key, next to a Redis server: every check but the one of
    MyMemory passes, four of five. *)
Lemma default_service_is_degraded :
  let answer :=
    health_check example_start 0 example_service cache_with_redis all_up
      example_readings in
  status answer = lit "degraded"
  /\ healthy_services (summary answer) = 4
  /\ total_services (summary answer) = 5.
Proof. vm_compute. repeat split. Qed.

Lemma health_without_api_key_is_never_healthy_witness :
  let answer :=
    health_check example_start 0 example_service cache_with_redis all_up
      example_readings in
  status answer <> lit "healthy"
  /\ status answer
     = (if Database.reachable (Health.database all_up) then lit "degraded"
        else lit "unhealthy")
  /\ mymemory (services answer)
     = {| configured := false; mymemory_reachable := false;
          mymemory_response_time_ms := None; mymemory_error := None |}.
Proof.
  exact (health_without_api_key_is_never_healthy example_start 0
           example_service
           cache_with_redis all_up example_readings eq_refl).
Defined.

(** With a key, and Redis down, the service is healthy as long as the
    mock fallback is enabled, and degraded once it is disabled. *)
Definition service_with_key (mock : bool) : service :=
  {| mymemory_api_key := Some (lit "key");
     mymemory_base_url := mymemory_base_url example_service;
     libretranslate_base_url := libretranslate_base_url example_service;
     request_timeout := request_timeout example_service;
     enable_mock_fallback := mock;
     mock_translations := mock_translations example_service |}.

Definition redis_down : outside :=
  {| database := empty_database;
     mymemory_get := Replied 200;
     libretranslate_get := Replied 200;
     redis_ping := Failed (lit "Connection refused");
     redis_info := Raised "ConnectionError";
     redis_dbsize := Raised "ConnectionError" |}.

Lemma mock_fallback_decides_the_status :
  status
    (health_check example_start 0 (service_with_key true) cache_with_redis redis_down
       example_readings)
  = lit "healthy"
  /\ status
       (health_check example_start 0 (service_with_key false) cache_with_redis
          redis_down example_readings)
     = lit "degraded".
Proof. vm_compute. split; reflexivity. Qed.

End HealthExamples.
